(** * HMLR core: a shallow embedding of the memory engine and its properties

    The development follows the Python sources:
    - [tests/test_large_text_chunking.py]   (token estimate, large-text windows)
    - [hmlr/memory/dossier_storage.py]      (dossier fact embeddings table)
    - [hmlr/memory/sliding_window_persistence.py] (sliding-window state file)
    - [hmlr/memory/embeddings/chunker.py]   (convenience chunker)
    - [hmlr/core/conversation_engine.py]    (the engine turn pipeline)

    Python integers are [Z]; Python strings are [string], or [list ascii]
    where the code indexes and slices them; exceptions are explicit results. *)

From Stdlib Require Import ZArith String Ascii List Bool Lia QArith Sorted Permutation.
Import ListNotations.
Local Open Scope Z_scope.

(** ** Python sequence primitives *)

Module Py.

Definition len {A} (l : list A) : Z := Z.of_nat (length l).

(** Index normalisation of [s[i:j]], [s.rfind(c, i, j)]: a negative index
    counts from the end, and everything is clamped to [0, len]. *)
Definition clamp (n i : Z) : Z :=
  if i <? 0 then Z.max (i + n) 0 else Z.min i n.

Definition slice {A} (l : list A) (i j : Z) : list A :=
  let a := clamp (len l) i in
  let b := clamp (len l) j in
  firstn (Z.to_nat (b - a)) (skipn (Z.to_nat a) l).

(** [rfind_from c l i lo hi acc]: scan [l] (whose head has index [i]) and
    remember the last index in [lo, hi) holding [c]. *)
Fixpoint rfind_from (c : ascii) (l : list ascii) (i lo hi acc : Z) : Z :=
  match l with
  | [] => acc
  | x :: l' =>
      rfind_from c l' (i + 1) lo hi
        (if (lo <=? i) && (i <? hi) && Ascii.eqb x c then i else acc)
  end.

(** [s.rfind(c, start, end)]: highest index in the slice, or -1. *)
Definition rfind (c : ascii) (s : list ascii) (start stop : Z) : Z :=
  rfind_from c s 0 (clamp (len s) start) (clamp (len s) stop) (-1).

(** [l[:k]] for any integer [k]. *)
Definition take {A} (l : list A) (k : Z) : list A := slice l 0 k.

End Py.

(** ** Large-text windows ([tests/test_large_text_chunking.py]) *)

Module Chunking.

Definition text := list ascii.

(** [estimate_tokens]: [len(text) // 4]. *)
Definition estimate_tokens (t : text) : Z := Py.len t / 4.

Record chunk := mkChunk {
  chunk_text : text;
  start_char : Z;
  end_char : Z;
  chunk_index : Z;
  total_chunks : option Z
}.

Definition set_total (n : Z) (c : chunk) : chunk :=
  mkChunk (chunk_text c) (start_char c) (end_char c) (chunk_index c) (Some n).

(** The end of the window that starts at [start_char]: the target cut,
    moved back to just after the last sentence punctuation found by the
    look-back. *)
Definition window_end (t : text) (chunk_size_chars start_char : Z) : Z :=
  let end_char := Z.min (start_char + chunk_size_chars) (Py.len t) in
  if end_char <? Py.len t then
    let search_start := Z.max (end_char - 500) start_char in
    let last_period := Py.rfind "."%char t search_start end_char in
    let last_exclaim := Py.rfind "!"%char t search_start end_char in
    let last_question := Py.rfind "?"%char t search_start end_char in
    let boundary := Z.max (Z.max last_period last_exclaim) last_question in
    if boundary >? search_start then boundary + 1 else end_char
  else end_char.

(** The [while start_char < len(text)] loop.  [None] stands for a loop that
    has not finished within [fuel] iterations. *)
Fixpoint chunk_loop (fuel : nat) (t : text) (chunk_size_chars overlap_chars : Z)
         (start_char chunk_index : Z) : option (list chunk) :=
  match fuel with
  | O => None
  | S fuel' =>
      if start_char <? Py.len t then
        let end_char := window_end t chunk_size_chars start_char in
        let c := mkChunk (Py.slice t start_char end_char)
                         start_char end_char chunk_index None in
        if end_char >=? Py.len t then Some [c]
        else
          match chunk_loop fuel' t chunk_size_chars overlap_chars
                           (end_char - overlap_chars) (chunk_index + 1) with
          | Some cs => Some (c :: cs)
          | None => None
          end
      else Some []
  end.

Definition chunk_large_text_with (fuel : nat) (t : text)
           (chunk_size_tokens overlap_tokens heuristic_tokens : Z)
  : option (list chunk) :=
  let estimated_tokens := estimate_tokens t in
  if estimated_tokens <=? 10000 then
    Some [mkChunk t 0 (Py.len t) 0 (Some 1)]
  else
    let chunk_size_chars := chunk_size_tokens * 4 in
    let overlap_chars := overlap_tokens * 4 in
    match chunk_loop fuel t chunk_size_chars overlap_chars 0 0 with
    | Some chunks => Some (map (set_total (Py.len chunks)) chunks)
    | None => None
    end.

(** The call with the default arguments
    [chunk_size_tokens=10000, overlap_tokens=500, heuristic_tokens=400].
    One unit of fuel per character is more than the loop can use. *)
Definition chunk_large_text_for_extraction (t : text) : option (list chunk) :=
  chunk_large_text_with (S (length t)) t 10000 500 400.

End Chunking.

(** ** Python floats, as far as comparisons go *)

Module Float.

(** A float is a finite value or NaN; every comparison with NaN is false. *)
Inductive pyfloat := FNaN | FVal (q : Q).

Definition ge (a b : pyfloat) : bool :=
  match a, b with
  | FVal x, FVal y => Qle_bool y x
  | _, _ => false
  end.

Definition lt (a b : pyfloat) : bool :=
  match a, b with
  | FVal x, FVal y => negb (Qle_bool y x)
  | _, _ => false
  end.

Definition eqb (a b : pyfloat) : bool :=
  match a, b with
  | FVal x, FVal y => Qeq_bool x y
  | _, _ => false
  end.

Definition is_nan (a : pyfloat) : bool :=
  match a with FNaN => true | FVal _ => false end.

End Float.

(** ** Dossier fact embeddings ([hmlr/memory/dossier_storage.py]) *)

Module DossierStorage.
Import Float.

(** [embedding.astype(np.float32).tobytes()] *)
Definition blob := list Z.

(** A row of [dossier_fact_embeddings]; [fact_id] is the primary key. *)
Record row := mkRow {
  fact_id : string;
  dossier_id : string;
  embedding : blob;
  created_at : string
}.

(** The table in rowid order, which is the order of a full scan. *)
Definition table := list row.

(** [_initialize_table] on a fresh database. *)
Definition _initialize_table : table := [].

(** Whether the sqlite calls of an operation go through or raise. *)
Inductive sqlite_outcome := SqlOk | SqlError.

(** [INSERT OR REPLACE]: the row holding the same primary key is deleted
    and the new row is stored under a fresh, larger rowid. *)
Definition has_fact (fid : string) (r : row) : bool := String.eqb (fact_id r) fid.
Definition in_dossier (did : string) (r : row) : bool := String.eqb (dossier_id r) did.

Definition insert_or_replace (r : row) (t : table) : table :=
  filter (fun x => negb (has_fact (fact_id r) x)) t ++ [r].

(** [DELETE FROM dossier_fact_embeddings WHERE dossier_id = ?] *)
Definition delete_where_dossier (d : string) (t : table) : table :=
  filter (fun x => negb (in_dossier d x)) t.

Section WithModel.
(** [self.model.encode(text)], serialised; [None] when it raises. *)
Variable encode : string -> option blob.
(** [np.dot(q, e) / (norm(q) * norm(e))] on deserialised blobs; [None]
    when numpy raises (shapes that do not match). *)
Variable cosine : blob -> blob -> option pyfloat.

Definition save_fact_embedding (db : sqlite_outcome) (now : string)
           (fid did fact_text : string) (t : table) : bool * table :=
  match encode fact_text with
  | None => (false, t)
  | Some e =>
      match db with
      | SqlError => (false, t)
      | SqlOk => (true, insert_or_replace (mkRow fid did e now) t)
      end
  end.

Definition delete_dossier_embeddings (db : sqlite_outcome) (did : string)
           (t : table) : bool * table :=
  match db with
  | SqlError => (false, t)
  | SqlOk => (true, delete_where_dossier did t)
  end.

Definition hit := (string * string * pyfloat)%type.
Definition score (h : hit) : pyfloat := snd h.

(** The [for ... in cursor.fetchall()] loop: similarity of every row, the
    rows at or above the threshold appended in scan order. *)
Fixpoint scan (q : blob) (threshold : pyfloat) (t : table) : option (list hit) :=
  match t with
  | [] => Some []
  | r :: t' =>
      match cosine q (embedding r) with
      | None => None
      | Some similarity =>
          match scan q threshold t' with
          | None => None
          | Some results =>
              if ge similarity threshold
              then Some ((fact_id r, dossier_id r, similarity) :: results)
              else Some results
          end
      end
  end.

(** [results.sort(key=lambda x: x[2], reverse=True)].  Python's sort is
    stable, also with [reverse=True]; on keys that are totally ordered
    every stable sort gives the list built here. *)
Fixpoint insert_desc (h : hit) (l : list hit) : list hit :=
  match l with
  | [] => [h]
  | y :: l' => if lt (score h) (score y) then y :: insert_desc h l'
               else h :: l
  end.

Fixpoint sort_desc (l : list hit) : list hit :=
  match l with
  | [] => []
  | h :: l' => insert_desc h (sort_desc l')
  end.

Definition search_similar_facts (db : sqlite_outcome) (query : string)
           (top_k : Z) (threshold : pyfloat) (t : table) : list hit :=
  match encode query with
  | None => []
  | Some query_embedding =>
      match db with
      | SqlError => []
      | SqlOk =>
          match scan query_embedding threshold t with
          | None => []
          | Some results => Py.take (sort_desc results) top_k
          end
      end
  end.

(** Operations that write the table. *)
Inductive op :=
| Save (db : sqlite_outcome) (now fid did fact_text : string)
| Delete (db : sqlite_outcome) (did : string).

Definition run_op (t : table) (o : op) : table :=
  match o with
  | Save db now fid did txt => snd (save_fact_embedding db now fid did txt t)
  | Delete db did => snd (delete_dossier_embeddings db did t)
  end.

Definition run_ops (ops : list op) : table :=
  fold_left run_op ops _initialize_table.

End WithModel.

End DossierStorage.

(** ** Sliding-window state file ([hmlr/memory/sliding_window_persistence.py]) *)

Module SlidingWindow.

(** What [json.load] returns. An object is kept as its key/value pairs, the
    keys distinct as in a Python dict. *)
#[warnings="-register-all"]
Inductive json :=
| JNull
| JBool (b : bool)
| JNum (q : Q)
| JStr (s : string)
| JArr (items : list json)
| JObj (fields : list (string * json)).

(** The state file as [load_window] meets it. *)
Inductive file_state :=
| FileAbsent                 (* [self.state_file.exists()] is false *)
| FileUnreadable             (* [open] raises *)
| FileNotJson                (* [json.load] raises *)
| FileJson (state : json).

Definition STATE_VERSION : string := "1".

Inductive failure := ReadFailed | VersionMismatch | DeserializeFailed.

Inductive error :=
| SlidingWindowStateError (why : failure)
| AttributeError.            (* raised by [state.get] on a non-dict *)

Inductive result (A : Type) :=
| Ok (a : A)
| Raise (e : error).
Arguments Ok {A} a.
Arguments Raise {A} e.

Definition datetime := Z.

(** [ConversationTurn]: a dataclass, its fields hold what they are given. *)
Record ConversationTurn := mkTurn {
  turn_id : json;
  session_id : json;
  day_id : json;
  timestamp : json;
  turn_sequence : json;
  user_message : json;
  assistant_response : json;
  detail_level : json;
  compressed_content : json;
  compression_timestamp : option datetime;
  keywords : json;
  assistant_summary : json
}.

Fixpoint assoc (k : string) (fields : list (string * json)) : option json :=
  match fields with
  | [] => None
  | (k', v) :: rest => if String.eqb k k' then Some v else assoc k rest
  end.

(** [d.get(k, default)] on a dict. *)
Definition dict_get (fields : list (string * json)) (k : string) (default : json) : json :=
  match assoc k fields with Some v => v | None => default end.

(** [x[k]] with a string key: [KeyError] on a dict without the key,
    [TypeError] on everything that is not a dict. *)
Definition subscript (x : json) (k : string) : option json :=
  match x with
  | JObj fields => assoc k fields
  | _ => None
  end.

(** Truth value of a Python object. *)
Definition truthy (x : json) : bool :=
  match x with
  | JNull => false
  | JBool b => b
  | JNum q => negb (Qeq_bool q 0)
  | JStr s => negb (String.eqb s "")
  | JArr items => match items with [] => false | _ => true end
  | JObj fields => match fields with [] => false | _ => true end
  end.

(** [version != STATE_VERSION]: only the string ["1"] equals it. *)
Definition is_state_version (v : json) : bool :=
  match v with
  | JStr s => String.eqb s STATE_VERSION
  | _ => false
  end.

Fixpoint chars (s : string) : list json :=
  match s with
  | EmptyString => []
  | String c s' => JStr (String c EmptyString) :: chars s'
  end.

(** [for turn_data in x]: [None] when [x] is not iterable. *)
Definition iterate (x : json) : option (list json) :=
  match x with
  | JArr items => Some items
  | JObj fields => Some (map (fun kv => JStr (fst kv)) fields)
  | JStr s => Some (chars s)
  | _ => None
  end.

Section WithClock.
(** [datetime.fromisoformat]; [None] when it raises [ValueError]. *)
Variable fromisoformat : string -> option datetime.

(** One [ConversationTurn(...)] call; [None] for any exception raised
    while its arguments are evaluated, left to right. *)
Definition build_turn (turn_data : json) : option ConversationTurn :=
  match subscript turn_data "turn_id" with None => None | Some tid =>
  match subscript turn_data "session_id" with None => None | Some sid =>
  match subscript turn_data "day_id" with None => None | Some did =>
  match subscript turn_data "timestamp" with None => None | Some ts =>
  match subscript turn_data "turn_sequence" with None => None | Some sq =>
  match subscript turn_data "user_message" with None => None | Some um =>
  match subscript turn_data "assistant_response" with None => None | Some ar =>
  match turn_data with
  | JObj fields =>
      let mk ct :=
        mkTurn tid sid did ts sq um ar
               (dict_get fields "detail_level" (JStr "VERBATIM"))
               (dict_get fields "compressed_content" JNull)
               ct
               (dict_get fields "keywords" (JArr []))
               (dict_get fields "assistant_summary" JNull) in
      if truthy (dict_get fields "compression_timestamp" JNull) then
        match subscript turn_data "compression_timestamp" with
        | Some (JStr s) =>
            match fromisoformat s with
            | Some d => Some (mk (Some d))
            | None => None
            end
        | _ => None               (* [TypeError]: not a string *)
        end
      else Some (mk None)
  | _ => None
  end end end end end end end end.

Fixpoint build_turns (items : list json) : option (list ConversationTurn) :=
  match items with
  | [] => Some []
  | turn_data :: rest =>
      match build_turn turn_data with
      | None => None
      | Some turn =>
          match build_turns rest with
          | None => None
          | Some turns => Some (turn :: turns)
          end
      end
  end.

Definition load_window (f : file_state) : result (list ConversationTurn) :=
  match f with
  | FileAbsent => Ok []
  | FileUnreadable => Raise (SlidingWindowStateError ReadFailed)
  | FileNotJson => Raise (SlidingWindowStateError ReadFailed)
  | FileJson state =>
      match state with
      | JObj fields =>
          let version := dict_get fields "version" JNull in
          if negb (is_state_version version) then
            Raise (SlidingWindowStateError VersionMismatch)
          else
            match iterate (dict_get fields "turns" (JArr [])) with
            | None => Raise (SlidingWindowStateError DeserializeFailed)
            | Some items =>
                match build_turns items with
                | None => Raise (SlidingWindowStateError DeserializeFailed)
                | Some turns => Ok turns
                end
            end
      | _ => Raise AttributeError
      end
  end.

End WithClock.

End SlidingWindow.

(** ** The convenience chunker ([hmlr/memory/embeddings/chunker.py]) *)

Module Chunker.

(** Names bound at module level: the attributes every module has, then, in
    the order the module body binds them, [import re],
    [from typing import List, Tuple] and [def chunk_conversation]. *)
Definition module_globals : list string :=
  ["__name__"; "__doc__"; "__package__"; "__loader__"; "__spec__"; "__file__";
   "__cached__"; "__builtins__";
   "re"; "List"; "Tuple"; "chunk_conversation"]%string.

Inductive error := NameError (name : string).

Inductive result (A : Type) :=
| Ok (a : A)
| Raise (e : error).
Arguments Ok {A} a.
Arguments Raise {A} e.

Section WithBuiltins.
(** The names of the [builtins] module; [SemanticChunker] is a class of
    this repository and no builtin. *)
Variable builtins : list string.
(** What calling a resolved global would do: construct the chunker and
    call [chunk_turn]. *)
Variable call_global :
  string -> Z -> string -> string -> result (list string).

(** Lookup of a global name from a function body: module globals, then
    builtins, else [NameError]. *)
Definition load_global (name : string) : result string :=
  if existsb (String.eqb name) module_globals then Ok name
  else if existsb (String.eqb name) builtins then Ok name
  else Raise (NameError name).

Definition chunk_conversation (user_message assistant_response : string)
           (max_chunk_size : Z) : result (list string) :=
  match load_global "SemanticChunker" with
  | Raise e => Raise e
  | Ok cls => call_global cls max_chunk_size user_message assistant_response
  end.
End WithBuiltins.

End Chunker.

(** ** Response model ([hmlr.core.models], as the engine constructs it) *)

Module Models.

Inductive ResponseStatus := SUCCESS | PARTIAL | ERROR.

(** [hmlr/core/exceptions.py], as far as the engine tells them apart;
    [OtherException] is any other subclass of [Exception]. *)
Inductive exn :=
| ApiConnectionError
| ConfigurationError
| RetrievalError
| StorageWriteError
| OtherException.

Record ConversationResponse := mkResponse {
  response_text : string;
  status : ResponseStatus;
  detected_intent : string;
  detected_action : string;
  contexts_retrieved : Z;
  error_message : option exn
}.

End Models.

(** ** The Bridge Block ledger behind [self.storage] *)

Module Storage.

Inductive block_status := ACTIVE | PAUSED | CLOSED.

Definition block_status_eqb (a b : block_status) : bool :=
  match a, b with
  | ACTIVE, ACTIVE | PAUSED, PAUSED | CLOSED, CLOSED => true
  | _, _ => false
  end.

(** Modelled from the spec: the storage class is not among the sources.
    A row of [daily_ledger] (section 6): [block_id] is the primary key, and
    section 3 gives a Bridge Block its [day_id], [topic_label], [keywords]
    and [status]. The label is what the caller passed: a string, or [None]
    for Python's [None]. *)
Record block := mkBlock {
  block_id : string;
  day_id : string;
  topic_label : option string;
  keywords : list string;
  status : block_status
}.

Record ledger := mkLedger {
  rows : list block;
  today : string           (* the day the storage serves *)
}.

Definition set_status (s : block_status) (b : block) : block :=
  mkBlock (block_id b) (day_id b) (topic_label b) (keywords b) s.

(** Modelled from the spec: [get_active_bridge_blocks()] of the missing
    storage class, the day's blocks that are still in flight (section 4.4:
    [ACTIVE] or [PAUSED]), in ledger order. *)
Definition get_active_bridge_blocks (l : ledger) : list block :=
  filter (fun b => String.eqb (day_id b) (today l)
                   && negb (block_status_eqb (status b) CLOSED)) (rows l).

(** Modelled from the spec: [update_bridge_block_status(block_id, status)]
    of the missing storage class, a status write on the row with that key. *)
Definition update_bridge_block_status (id : string) (s : block_status)
           (l : ledger) : ledger :=
  mkLedger (map (fun b => if String.eqb (block_id b) id then set_status s b else b)
                (rows l))
           (today l).

(** Modelled from the spec: the forced pause of section 4.4, "creating a
    new active block while one exists forces the prior one to [PAUSED]":
    every [ACTIVE] row of the day becomes [PAUSED]. *)
Definition force_pause (day : string) (b : block) : block :=
  if String.eqb (day_id b) day && block_status_eqb (status b) ACTIVE
  then set_status PAUSED b else b.

(** Modelled from the spec: [create_new_bridge_block(day_id, topic_label,
    keywords)] of the missing storage class: the day's [ACTIVE] rows are
    paused and one new [ACTIVE] row is added (section 4.4); [None] when the
    primary key is taken. *)
Definition create_new_bridge_block (new_id day : string) (label : option string)
           (kws : list string) (l : ledger) : option ledger :=
  if existsb (fun b => String.eqb (block_id b) new_id) (rows l) then None
  else Some (mkLedger (map (force_pause day) (rows l)
                       ++ [mkBlock new_id day label kws ACTIVE])
                      (today l)).

(** Number of [ACTIVE] blocks of a day. *)
Definition active_count (day : string) (l : ledger) : nat :=
  length (filter (fun b => String.eqb (day_id b) day
                           && block_status_eqb (status b) ACTIVE) (rows l)).

End Storage.

(** ** The engine turn pipeline ([hmlr/core/conversation_engine.py]) *)

Module ConversationEngine.
Import Models Storage.

Inductive result (A : Type) :=
| Ret (a : A)
| Raise (e : exn).
Arguments Ret {A} a.
Arguments Raise {A} e.

(** A chunk of the chunk engine; every chunk carries these attributes. *)
Record Chunk := mkChunk {
  chunk_id : string;
  chunk_type : string;
  text_verbatim : string;
  parent_chunk_id : option string;
  token_count : Z
}.

(** The routing dict of the governor. For [matched_block_id] and
    [is_new_topic], [None] is a missing key or a null: the code reads both
    the same way. For [suggested_label], read with a default, [None] is a
    missing key and [Some None] a key that holds Python's [None]. *)
Record routing_decision := mkRouting {
  matched_block_id : option string;
  is_new_topic : option bool;
  suggested_label : option (option string)
}.

Definition memory := string.
Definition fact := string.
Definition dossier := string.
Definition metadata := list (string * string).

Record ConversationTurn := mkTurn {
  turn_id : string;
  user_message : string;
  assistant_response : string
}.

(** The [turn_data] dict appended to the block. *)
Record turn_data := mkTurnData {
  td_turn_id : string;
  td_user_message : string;
  td_ai_response : string;
  td_chunks : list Chunk
}.

(** What the engine changes or feeds: the block ledger, the calls made to
    [embedding_storage.save_turn_embeddings] (turn id, texts), oldest first,
    and its own [self.previous_day]. *)
Record world := mkWorld {
  store : ledger;
  embedded : list (string * list string);
  previous_day : option string
}.

(** The collaborators held by the engine.  Each call either returns or
    raises; an optional component is [None] when it was not configured. *)
Record collaborators := mkCollaborators {
  governor_ready : bool;     (* [self.governor and self.governor.api_client] *)
  now_turn_id : string;      (* [turn_<timestamp>] *)
  chunk_engine : option (string -> string -> result (list Chunk));
  fact_scrubber : option (string -> string -> list Chunk -> result (list fact));
  (* [self.conversation_mgr.current_day], as read when the turn is routed *)
  current_day : string;
  (* the same attribute as [log_conversation_turn] reads it once the turn is
     logged: [log_turn] may have moved the day on, and the read may raise *)
  current_day_logged : result string;
  (* [self.sliding_window.set_session]; [None]: no such attribute *)
  set_session : option (string -> result unit);
  gpt_nano_keywords : list string;
  govern : string -> string ->
           result (routing_decision * list memory * list fact * list dossier);
  generate_block_summary : string -> result unit;
  mint_block_id : ledger -> string -> option string -> string;
  update_facts_block_id : string -> string -> result Z;
  get_facts_for_block : string -> result (list fact);
  hydrate_bridge_block :
    string -> list memory -> list fact -> string -> bool -> list dossier ->
    result string;
  query_external_api_async : string -> result string;
  find_json_block : string -> option string;      (* [re.search(...).group(1)] *)
  json_loads : string -> option metadata;         (* [None]: JSONDecodeError *)
  strip_json_block : string -> string;            (* [re.sub(...).strip()] *)
  update_bridge_block_metadata : string -> metadata -> result unit;
  append_turn_to_block : ledger -> string -> turn_data -> result bool;
  log_turn : string -> string -> string -> result ConversationTurn;
  add_turn : ConversationTurn -> result unit;
  save_turn_embeddings : string -> list string -> result unit;
  scribe : option (string -> string -> result unit)
}.

(** *** State and exceptions *)

Definition M (A : Type) : Type := world -> result A * world.

Definition ret {A} (a : A) : M A := fun w => (Ret a, w).
Definition raise {A} (e : exn) : M A := fun w => (Raise e, w).
Definition bind {A B} (m : M A) (k : A -> M B) : M B :=
  fun w => match m w with
           | (Ret a, w') => k a w'
           | (Raise e, w') => (Raise e, w')
           end.
(** [try: m  except ...: h e]; what [m] did before it raised stays done. *)
Definition try_except {A} (m : M A) (h : exn -> M A) : M A :=
  fun w => match m w with
           | (Ret a, w') => (Ret a, w')
           | (Raise e, w') => h e w'
           end.
(** A call to a collaborator that leaves the world alone. *)
Definition call {A} (r : result A) : M A := fun w => (r, w).
Definition get_store : M ledger := fun w => (Ret (store w), w).
Definition put_store (l : ledger) : M unit :=
  fun w => (Ret tt, mkWorld l (embedded w) (previous_day w)).
Definition get_previous_day : M (option string) :=
  fun w => (Ret (previous_day w), w).
Definition put_previous_day (d : option string) : M unit :=
  fun w => (Ret tt, mkWorld (store w) (embedded w) d).

Notation "x <- m ;; k" := (bind m (fun x => k))
  (at level 61, m at next level, right associativity).
Notation "m ;;; k" := (bind m (fun _ => k))
  (at level 61, right associativity).

Definition truthy_str (s : string) : bool := negb (String.eqb s "").
Definition truthy_id (o : option string) : bool :=
  match o with Some s => truthy_str s | None => false end.

Definition default_routing : routing_decision :=
  mkRouting None (Some true) (Some (Some "General Discussion"%string)).

Definition option_string_eqb (a b : option string) : bool :=
  match a, b with
  | Some x, Some y => String.eqb x y
  | None, None => true
  | _, _ => false
  end.

Definition sentence_texts (chunks : list Chunk) : list string :=
  map text_verbatim
      (filter (fun c => String.eqb (chunk_type c) "sentence") chunks).

Section WithCollaborators.
Variable env : collaborators.

(** *** Storage calls, as steps of the pipeline *)

Definition storage_update_status (id : string) (s : block_status) : M unit :=
  l <- get_store ;; put_store (update_bridge_block_status id s l).

Definition storage_create_block (day : string) (label : option string)
           (kws : list string) : M string :=
  l <- get_store ;;
  let new_id := mint_block_id env l day label in
  match create_new_bridge_block new_id day label kws l with
  | Some l' => put_store l' ;;; ret new_id
  | None => raise OtherException
  end.

Definition embedding_storage_save (tid : string) (texts : list string) : M unit :=
  fun w => (save_turn_embeddings env tid texts,
            mkWorld (store w) (embedded w ++ [(tid, texts)]) (previous_day w)).

(** *** [log_conversation_turn] *)

(** The inner [try]: chunk the user query and embed its sentences. *)
Definition embed_user_query (user_msg : string) (turn : ConversationTurn) : M unit :=
  try_except
    (let turn_text := user_msg in
     text_chunks <-
       match chunk_engine env with
       | Some chunk_turn =>
           chunks <- call (chunk_turn turn_text (turn_id turn)) ;;
           ret (sentence_texts chunks)
       | None => ret [turn_text]
       end ;;
     match text_chunks with
     | [] => ret tt
     | _ => embedding_storage_save (turn_id turn) text_chunks
     end)
    (fun _ => ret tt).

(** The day check that ends the outer [try]: [self.previous_day] follows
    the day read from the conversation manager. *)
Definition note_day : M unit :=
  day <- call (current_day_logged env) ;;
  previous <- get_previous_day ;;
  if negb (option_string_eqb (Some day) previous)
  then put_previous_day (Some day)
  else ret tt.

Definition log_conversation_turn (user_msg assistant_msg session_id : string)
  : M unit :=
  try_except
    (turn <- call (log_turn env session_id user_msg assistant_msg) ;;
     call (add_turn env turn) ;;;
     embed_user_query user_msg turn ;;;
     note_day)
    (fun _ => raise StorageWriteError).

(** *** [_handle_chat] *)

(** [await self.governor.govern(...)] under [except RetrievalError]. *)
Definition govern_step (user_query day : string)
  : M (routing_decision * list memory * list fact * list dossier) :=
  try_except (call (govern env user_query day))
    (fun e => match e with
              | RetrievalError => ret (default_routing, [], [], [])
              | _ => raise e
              end).

Definition pause_block (old_active_id : string) : M unit :=
  storage_update_status old_active_id PAUSED ;;;
  call (generate_block_summary env old_active_id).

(** Routing execution: the scenario chosen from the decision and the last
    active block; returns [(block_id, is_new_topic)]. *)
Definition routing_execution (day : string) (rd : routing_decision)
  : M (string * bool) :=
  let matched := matched_block_id rd in
  let is_new := match is_new_topic rd with Some b => b | None => false end in
  (* [routing_decision.get('suggested_label', 'General Discussion')] *)
  let label := match suggested_label rd with
               | Some value => value
               | None => Some "General Discussion"%string
               end in
  l <- get_store ;;
  let active_blocks := get_active_bridge_blocks l in
  let last_active_block :=
    find (fun b => block_status_eqb (status b) ACTIVE) active_blocks in
  let has_active :=
    match last_active_block with Some _ => true | None => false end in
  let matched_id := match matched with Some m => m | None => EmptyString end in
  let pause_last :=
    match last_active_block with
    | Some b => pause_block (block_id b)
    | None => ret tt
    end in
  let keywords := gpt_nano_keywords env in
  if truthy_id matched && has_active
     && match last_active_block with
        | Some b => String.eqb matched_id (block_id b)
        | None => false
        end
  then
    (* Topic Continuation: no status changes *)
    ret (matched_id, false)
  else if truthy_id matched && negb is_new then
    (* Topic Resumption *)
    pause_last ;;;
    storage_update_status matched_id ACTIVE ;;;
    ret (matched_id, false)
  else if is_new && negb has_active then
    (* New Topic Creation (no active blocks) *)
    id <- storage_create_block day label keywords ;;
    ret (id, true)
  else if is_new && has_active then
    (* Topic Shift to New *)
    pause_last ;;;
    id <- storage_create_block day label keywords ;;
    ret (id, true)
  else
    (* Fallback *)
    id <- storage_create_block day label keywords ;;
    ret (id, true).

(** Await the fact extraction started before the governor, and link its
    facts to the block. *)
Definition await_fact_extraction (turn user_query block : string)
           (chunks : list Chunk) : M unit :=
  match fact_scrubber env, chunks with
  | Some extract_and_save, _ :: _ =>
      extracted_facts <- call (extract_and_save turn user_query chunks) ;;
      match extracted_facts with
      | _ :: _ =>
          if truthy_str block
          then call (update_facts_block_id env turn block) ;;; ret tt
          else ret tt
      | [] => ret tt
      end
  | _, _ => ret tt
  end.

(** Parse the optional metadata JSON block of the LLM response; returns
    [(metadata_json, response_text)]. *)
Definition parse_metadata (chat_response : string) : option metadata * string :=
  match find_json_block env chat_response with
  | Some group1 =>
      match json_loads env group1 with
      | Some m => (Some m, strip_json_block env chat_response)
      | None => (None, chat_response)
      end
  | None => (None, chat_response)
  end.

Definition update_header (block : string) (metadata_json : option metadata)
  : M unit :=
  match metadata_json with
  | Some ((_ :: _) as m) =>
      try_except (call (update_bridge_block_metadata env block m))
                 (fun _ => ret tt)
  | _ => ret tt
  end.

(** The body of the [try] of [_handle_chat]. *)
Definition handle_chat_body (user_query session_id : string)
  : M ConversationResponse :=
  let turn := now_turn_id env in
  chunks <- match chunk_engine env with
            | Some chunk_turn => call (chunk_turn user_query turn)
            | None => ret []
            end ;;
  let day := current_day env in
  r <- govern_step user_query day ;;
  let '(routing, filtered_memories, facts, dossiers) := r in
  rb <- routing_execution day routing ;;
  let '(block, is_new_topic) := rb in
  await_fact_extraction turn user_query block chunks ;;;
  block_facts <- call (get_facts_for_block env block) ;;
  full_prompt <- call (hydrate_bridge_block env block filtered_memories
                         block_facts user_query is_new_topic dossiers) ;;
  chat_response <- call (query_external_api_async env full_prompt) ;;
  let '(metadata_json, response_text) := parse_metadata chat_response in
  update_header block metadata_json ;;;
  l <- get_store ;;
  success <- call (append_turn_to_block env l block
                     (mkTurnData turn user_query response_text chunks)) ;;
  (* [success] is only printed *)
  log_conversation_turn user_query response_text session_id ;;;
  ret (mkResponse response_text SUCCESS "chat" "chat"
                  (Py.len filtered_memories) None).

Definition connection_apology : string :=
  "I apologize, but I'm having trouble connecting to my brain right now. Please try again in a moment.".
Definition fallback_response : string :=
  "I'm here to chat, but I'm having trouble connecting to my chat system right now.".

Definition _handle_chat (user_query session_id : string)
  : M ConversationResponse :=
  if negb (governor_ready env) then
    ret (mkResponse "I'm here to chat! (External API not available)"
                    PARTIAL "chat" "chat" 0 None)
  else
    try_except (handle_chat_body user_query session_id)
      (fun e =>
         match e with
         | ApiConnectionError =>
             ret (mkResponse connection_apology ERROR "chat" "chat" 0 None)
         | _ =>
             log_conversation_turn user_query fallback_response
                                   "default_session" ;;;
             ret (mkResponse fallback_response ERROR "chat" "chat" 0 (Some e))
         end).

(** [self.sliding_window.set_session(session_id)], when the sliding window
    has the method. *)
Definition sliding_window_set_session (session_id : string) : result unit :=
  match set_session env with
  | Some set => set session_id
  | None => Ret tt
  end.

(** [process_user_message]; the processing time is left out. The session
    is set before the [try]: what [set_session] raises leaves the function. *)
Definition process_user_message (user_query session_id : string)
  : M ConversationResponse :=
  call (sliding_window_set_session session_id) ;;;
  try_except
    (match scribe env with
     | Some run_scribe_agent => call (run_scribe_agent user_query session_id)
     | None => ret tt
     end ;;;
     _handle_chat user_query session_id)
    (fun e =>
       ret (mkResponse "I encountered an error processing your request."
                       ERROR "error" "error" 0 (Some e))).

End WithCollaborators.

End ConversationEngine.

(** ** Quantities named by the specification *)

Module SpecWords.

(** The token count as the specification words it: [ceil(len / 4)]. *)
Definition ceil_quarter_tokens (t : Chunking.text) : Z := (Py.len t + 3) / 4.

(** Sentence punctuation of the look-back. *)
Definition is_sentence_end (c : ascii) : bool :=
  Ascii.eqb c "." || Ascii.eqb c "!" || Ascii.eqb c "?".

(** A document with a single full stop, exactly 500 characters before the
    first target cut at 40,000. *)
Definition lone_stop_document : Chunking.text :=
  repeat "a"%char (Z.to_nat 39500) ++ "."%char :: repeat "a"%char (Z.to_nat 10499).

(** A window cut out of [t]: a non-empty slice of at most 40,000 characters
    (10,000 tokens of content). *)
Definition well_cut (t : Chunking.text) (c : Chunking.chunk) : Prop :=
  0 <= Chunking.start_char c < Chunking.end_char c /\
  Chunking.end_char c <= Py.len t /\
  Chunking.end_char c - Chunking.start_char c <= 40000 /\
  Chunking.chunk_text c
  = Py.slice t (Chunking.start_char c) (Chunking.end_char c).

(** Windows covering [t] from position [s] on: each next window starts 2,000
    characters (500 tokens) before the end of the one before it, and the last
    one ends with the text. *)
Inductive windows_from (t : Chunking.text) : Z -> list Chunking.chunk -> Prop :=
| windows_last c :
    well_cut t c -> Chunking.end_char c = Py.len t ->
    windows_from t (Chunking.start_char c) [c]
| windows_next c cs :
    well_cut t c -> Chunking.end_char c < Py.len t ->
    windows_from t (Chunking.end_char c - 2000) cs ->
    windows_from t (Chunking.start_char c) (c :: cs).

(** Every stored row with its similarity to the query, in scan order (rows
    stored earlier come first). *)
Definition table_hits (cosine : DossierStorage.blob -> DossierStorage.blob ->
                                option Float.pyfloat)
           (q : DossierStorage.blob) (t : DossierStorage.table)
  : list DossierStorage.hit :=
  flat_map (fun r =>
              match cosine q (DossierStorage.embedding r) with
              | Some x => [(DossierStorage.fact_id r, DossierStorage.dossier_id r, x)]
              | None => []
              end) t.

Definition same_score (s : Float.pyfloat) (h : DossierStorage.hit) : bool :=
  Float.eqb (DossierStorage.score h) s.

(** Scores never increase along the list. *)
Definition descending (res : list DossierStorage.hit) : Prop :=
  StronglySorted
    (fun a b => Float.ge (DossierStorage.score a) (DossierStorage.score b) = true)
    res.

(** Ties keep the order of the table: the results of any one score are the
    first stored rows of that score, in the order they were stored. *)
Definition older_first (stored res : list DossierStorage.hit) : Prop :=
  forall s, exists rest,
    filter (same_score s) stored = filter (same_score s) res ++ rest.

(** A fake sentence encoder for worked examples: a text is encoded by its
    length, and the similarity of two encodings is the stored value. *)
Definition toy_encode (s : string) : option DossierStorage.blob :=
  Some [Z.of_nat (String.length s)].
Definition toy_cosine (q e : DossierStorage.blob) : option Float.pyfloat :=
  Some (Float.FVal (inject_Z (hd 0 e))).

Definition three_saves : list DossierStorage.op :=
  [DossierStorage.Save DossierStorage.SqlOk "t1" "fact_001" "dos_diet" "abc";
   DossierStorage.Save DossierStorage.SqlOk "t2" "fact_002" "dos_diet" "abcd";
   DossierStorage.Save DossierStorage.SqlOk "t3" "fact_004" "dos_tech" "abc"]%string.

(** The built-in functions and constants of Python 3, for worked examples. *)
Definition python_builtins : list string :=
  ["abs"; "aiter"; "all"; "anext"; "any"; "ascii"; "bin"; "bool";
   "breakpoint"; "bytearray"; "bytes"; "callable"; "chr"; "classmethod";
   "compile"; "complex"; "delattr"; "dict"; "dir"; "divmod"; "enumerate";
   "eval"; "exec"; "filter"; "float"; "format"; "frozenset"; "getattr";
   "globals"; "hasattr"; "hash"; "help"; "hex"; "id"; "input"; "int";
   "isinstance"; "issubclass"; "iter"; "len"; "list"; "locals"; "map"; "max";
   "memoryview"; "min"; "next"; "object"; "oct"; "open"; "ord"; "pow";
   "print"; "property"; "range"; "repr"; "reversed"; "round"; "set";
   "setattr"; "slice"; "sorted"; "staticmethod"; "str"; "sum"; "super";
   "tuple"; "type"; "vars"; "zip"; "__import__";
   "True"; "False"; "None"; "Ellipsis"; "NotImplemented";
   "Exception"; "NameError"; "TypeError"; "ValueError"]%string.

(** A chunker class as [chunk_conversation] would use it, had the name been
    bound: the user message and the response as two chunks. *)
Definition toy_semantic_chunker (cls : string) (max_chunk_size : Z)
           (user_message assistant_response : string)
  : Chunker.result (list string) :=
  Chunker.Ok [user_message; assistant_response].

End SpecWords.

(** ** Worked collaborators and run observations for the engine *)

Module EngineWords.
Import Models Storage ConversationEngine.

(** The same collaborators with another governor. *)
Definition with_govern (env : collaborators)
           (g : string -> string ->
                result (routing_decision * list memory * list fact * list dossier))
  : collaborators :=
  mkCollaborators
    (governor_ready env) (now_turn_id env) (chunk_engine env)
    (fact_scrubber env) (current_day env) (current_day_logged env)
    (set_session env) (gpt_nano_keywords env)
    g
    (generate_block_summary env) (mint_block_id env)
    (update_facts_block_id env) (get_facts_for_block env)
    (hydrate_bridge_block env) (query_external_api_async env)
    (find_json_block env) (json_loads env) (strip_json_block env)
    (update_bridge_block_metadata env) (append_turn_to_block env)
    (log_turn env) (add_turn env) (save_turn_embeddings env) (scribe env).

(** The same collaborators with another [append_turn_to_block]. *)
Definition with_append (env : collaborators)
           (a : ledger -> string -> turn_data -> result bool)
  : collaborators :=
  mkCollaborators
    (governor_ready env) (now_turn_id env) (chunk_engine env)
    (fact_scrubber env) (current_day env) (current_day_logged env)
    (set_session env) (gpt_nano_keywords env)
    (govern env)
    (generate_block_summary env) (mint_block_id env)
    (update_facts_block_id env) (get_facts_for_block env)
    (hydrate_bridge_block env) (query_external_api_async env)
    (find_json_block env) (json_loads env) (strip_json_block env)
    (update_bridge_block_metadata env) a
    (log_turn env) (add_turn env) (save_turn_embeddings env) (scribe env).

(** A chunk engine for worked examples: the turn chunk and one sentence
    chunk, both holding the whole text; the ids carry the turn id. *)
Definition toy_chunk_turn (text turn : string) : result (list Chunk) :=
  Ret [mkChunk (turn ++ "_t") "turn" text None (Z.of_nat (String.length text) / 4);
       mkChunk (turn ++ "_s0") "sentence" text (Some (turn ++ "_t")%string)
               (Z.of_nat (String.length text) / 4)].

(** Collaborators that all answer: the governor matches block [bb_1], the
    LLM echoes, storage calls go through. *)
Definition quiet : collaborators :=
  mkCollaborators
    true "turn_20250101_120000" (Some toy_chunk_turn) None "2025-01-01"
    (Ret "2025-01-01"%string) (Some (fun _ => Ret tt)) []
    (fun _ _ => Ret (mkRouting (Some "bb_1") (Some false) (Some (Some "Diet")),
                     ["m1"], [], [])%string)
    (fun _ => Ret tt)
    (fun _ _ _ => "bb_2"%string)
    (fun _ _ => Ret 0)
    (fun _ => Ret [])
    (fun _ _ _ user _ _ => Ret user)
    (fun prompt => Ret ("Echo: " ++ prompt)%string)
    (fun _ => None) (fun _ => None) (fun s => s)
    (fun _ _ => Ret tt)
    (fun _ _ _ => Ret true)
    (fun session user assistant => Ret (mkTurn ("t_" ++ session) user assistant))
    (fun _ => Ret tt)
    (fun _ _ => Ret tt)
    None.

(** A day with the single block [bb_1], active. *)
Definition one_active_block : world :=
  mkWorld (mkLedger [mkBlock "bb_1" "2025-01-01" (Some "Diet"%string) [] ACTIVE]
                    "2025-01-01")
          [] (Some "2025-01-01"%string).

(** [m] raises from every world. *)
Definition raises {A} (m : M A) : Prop :=
  forall w, exists e w', m w = (Raise e, w').

(** The status of the response a run ends with, if it ends with one. *)
Definition response_status (r : result ConversationResponse * world)
  : option ResponseStatus :=
  match fst r with
  | Ret resp => Some (Models.status resp)
  | Raise _ => None
  end.

(** The texts handed to the embedding storage between two worlds. *)
Definition texts_passed (before after : world) : list (list string) :=
  map snd (skipn (length (embedded before)) (embedded after)).

(** Whether [conversation_mgr.log_turn] and [sliding_window.add_turn] both
    return for this turn. *)
Definition persisted (env : collaborators) (session user assistant : string)
  : bool :=
  match log_turn env session user assistant with
  | Ret turn => match add_turn env turn with Ret _ => true | Raise _ => false end
  | Raise _ => false
  end.

Definition sentences_of (r : result (list Chunk)) : option (list string) :=
  match r with
  | Ret chunks => Some (sentence_texts chunks)
  | Raise _ => None
  end.

(** Modelled from the spec: the chunk engine is not among the sources;
    section 4.2 has it deterministic and purely local, its chunks being
    pieces of the text. The turn id goes into the chunk ids only: the
    sentence texts, and whether chunking succeeds, depend on the text. *)
Definition chunker_local (env : collaborators) : Prop :=
  match chunk_engine env with
  | Some chunk_turn =>
      forall text i j, sentences_of (chunk_turn text i) = sentences_of (chunk_turn text j)
  | None => True
  end.

(** What is embedded for a user message: its sentence chunks, or the whole
    message when there is no chunk engine. *)
Definition user_texts (env : collaborators) (user : string) : list (list string) :=
  match chunk_engine env with
  | Some chunk_turn =>
      match sentences_of (chunk_turn user EmptyString) with
      | Some ((_ :: _) as texts) => [texts]
      | _ => []
      end
  | None => [[user]]
  end.

(** The block ids of a ledger are its primary key. *)
Definition keys_unique (l : ledger) : Prop := NoDup (map block_id (rows l)).

(** An [ACTIVE] block of a day. *)
Definition active_on (day : string) (b : block) : bool :=
  String.eqb (day_id b) day && block_status_eqb (Storage.status b) ACTIVE.


(** A routing decision that names no block and no new topic: the decision
    that takes routing to its fallback branch. *)
Definition indeterminate : routing_decision := mkRouting None (Some false) None.

End EngineWords.

(** ** Observations on the windows of a text *)

Module ChunkingWords.
Import Chunking.

(** The windows of the default call as the loop lays them out from position
    [s] and index [i]: every window but the last is cut between 39,502 and
    40,000 characters after its start, the next one starts 2,000 characters
    before that cut and carries the next index, and the last one ends with
    the text. A cut is where [window_end] puts it. *)
Inductive strides (t : text) : Z -> Z -> list chunk -> Prop :=
| strides_last s i c :
    start_char c = s -> end_char c = Py.len t -> chunk_index c = i ->
    chunk_text c = Py.slice t s (Py.len t) ->
    0 <= s < Py.len t -> Py.len t <= s + 40000 ->
    strides t s i [c]
| strides_next s i c cs :
    start_char c = s -> chunk_index c = i ->
    chunk_text c = Py.slice t s (end_char c) ->
    end_char c = window_end t 40000 s ->
    0 <= s -> s + 39502 <= end_char c <= s + 40000 -> end_char c < Py.len t ->
    strides t (end_char c - 2000) (i + 1) cs ->
    strides t s i (c :: cs).

(** The text read back from its windows: the first window, then every later
    window without the 2,000 characters it shares with the one before. *)
Definition reassemble (cs : list chunk) : text :=
  match cs with
  | [] => []
  | c :: rest =>
      chunk_text c ++ concat (map (fun c' => skipn 2000 (chunk_text c')) rest)
  end.

(** [sum(estimate_tokens(c['text']) for c in chunks)] *)
Definition total_content_tokens (cs : list chunk) : Z :=
  fold_right (fun c acc => estimate_tokens (chunk_text c) + acc) 0 cs.

(** The prompt overhead computed by [test_frankenstein_chunking]:
    [total_with_heuristics - original_with_heuristics], with 400 heuristic
    tokens per call. *)
Definition heuristic_overhead (t : text) (cs : list chunk) : Z :=
  let heuristic_tokens_per_chunk := 400 in
  let total_with_heuristics :=
    total_content_tokens cs + Py.len cs * heuristic_tokens_per_chunk in
  let original_with_heuristics := estimate_tokens t + heuristic_tokens_per_chunk in
  total_with_heuristics - original_with_heuristics.

Definition original_with_heuristics (t : text) : Z := estimate_tokens t + 400.

(** A document whose only full stop lies 200 characters before the first
    target cut. *)
Definition near_stop_document : text :=
  repeat "a"%char (Z.to_nat 39800) ++ "."%char :: repeat "a"%char (Z.to_nat 10199).

End ChunkingWords.

(** ** Dossier fact embeddings: the read-only queries
    ([hmlr/memory/dossier_storage.py]) *)

Module DossierQueries.
Import Float DossierStorage.

(** [get_dossier_by_fact_id]: the dossier of the first row with the fact id;
    [None] without such a row and when sqlite raises. *)
Definition get_dossier_by_fact_id (db : sqlite_outcome) (fid : string)
           (t : table) : option string :=
  match db with
  | SqlError => None
  | SqlOk =>
      match find (has_fact fid) t with
      | Some result => Some (dossier_id result)
      | None => None
      end
  end.

(** [get_fact_count]: [if dossier_id:] takes the filtered count only for a
    non-empty id; 0 when sqlite raises. *)
Definition get_fact_count (db : sqlite_outcome) (did : option string)
           (t : table) : Z :=
  match db with
  | SqlError => 0
  | SqlOk =>
      match did with
      | Some d =>
          if negb (String.eqb d "")
          then Py.len (filter (in_dossier d) t)
          else Py.len t
      | None => Py.len t
      end
  end.

(** The fact id and the dossier id of a hit. *)
Definition hit_fact (h : hit) : string := fst (fst h).
Definition hit_dossier (h : hit) : string := snd (fst h).

(** A similarity that cannot be computed for an embedding starting with 4,
    as for a stored vector of another dimension. *)
Definition picky_cosine (q e : blob) : option pyfloat :=
  if hd 0 e =? 4 then None else Some (FVal (inject_Z (hd 0 e))).

End DossierQueries.

(** ** Sliding-window state file: writing
    ([hmlr/memory/sliding_window_persistence.py]) *)

Module SlidingWindowSave.
Import SlidingWindow.

(** [turn.timestamp] of a turn in memory: a [datetime], a string, or
    something else, of which only [str(...)] is written. *)
Inductive stamp :=
| StampDatetime (d : datetime)
| StampStr (s : string)
| StampOther (str : string).

(** A [ConversationTurn] handed to [save_window]. [None] for [keywords] or
    [assistant_summary] is a turn object without that attribute. The values
    are ones [json.dump] can write. *)
Record LiveTurn := mkLive {
  live_turn_id : json;
  live_session_id : json;
  live_day_id : json;
  live_turn_sequence : json;
  live_timestamp : stamp;
  live_detail_level : json;
  live_user_message : json;
  live_assistant_response : json;
  live_compressed_content : json;
  live_compression_timestamp : option datetime;
  live_keywords : option json;
  live_assistant_summary : option json
}.

(** The files on disk, by path. *)
Definition disk := string -> file_state.

(** [open(path, 'w')] followed by writes that leave [content]. *)
Definition write_file (path : string) (content : file_state) (d : disk) : disk :=
  fun q => if String.eqb q path then content else d q.

(** [Path.replace]: [src] is renamed to [dst], over whatever was there;
    renaming a file to itself changes nothing. *)
Definition replace (src dst : string) (d : disk) : disk :=
  fun q => if String.eqb q dst then d src
           else if String.eqb q src then FileAbsent
           else d q.

(** How far the writing part of [save_window] gets. *)
Inductive write_outcome :=
| OpenRaises
    (* building the state, [with_suffix] or [open(temp_file, 'w')] raises *)
| DumpRaises (partial : file_state)
    (* [json.dump] raises; [partial] is what the opened file holds by then *)
| ReplaceRaises               (* the dump is complete; [temp_file.replace] raises *)
| Written.

(** The keys [load_window] subscripts, in the order it does. *)
Definition required_keys : list string :=
  ["turn_id"; "session_id"; "day_id"; "timestamp"; "turn_sequence";
   "user_message"; "assistant_response"]%string.

Section WithClock.
(** [datetime.isoformat] *)
Variable isoformat : datetime -> string.

Definition timestamp_str (t : LiveTurn) : string :=
  match live_timestamp t with
  | StampDatetime d => isoformat d
  | StampStr s => s
  | StampOther str => str
  end.

(** The [turn_data] dict of one turn. *)
Definition turn_json (t : LiveTurn) : json :=
  JObj [("turn_id", live_turn_id t);
        ("session_id", live_session_id t);
        ("day_id", live_day_id t);
        ("turn_sequence", live_turn_sequence t);
        ("timestamp", JStr (timestamp_str t));
        ("detail_level", live_detail_level t);
        ("user_message", live_user_message t);
        ("assistant_response", live_assistant_response t);
        ("compressed_content", live_compressed_content t);
        ("compression_timestamp",
         match live_compression_timestamp t with
         | Some d => JStr (isoformat d)
         | None => JNull
         end);
        ("keywords",
         match live_keywords t with Some k => k | None => JArr [] end);
        ("assistant_summary",
         match live_assistant_summary t with Some a => a | None => JNull end)
       ]%string.

(** The [state] dict that [save_window] dumps. *)
Definition window_state (now : string) (turns : list LiveTurn) : json :=
  JObj [("version", JStr STATE_VERSION);
        ("last_updated", JStr now);
        ("turn_count", JNum (inject_Z (Py.len turns)));
        ("turns", JArr (map turn_json turns))]%string.

(** [save_window]: the state is dumped to [temp_file], which then replaces
    [state_file]. Each step that raises ends the call there ([false]) with
    the disk as the steps before left it. [temp_path] is
    [self.state_file.with_suffix('.tmp')]: the state path itself when that
    already ends in [.tmp]. *)
Definition save_window (run : write_outcome) (now : string)
           (turns : list LiveTurn) (state_path temp_path : string) (d : disk)
  : bool * disk :=
  let state := window_state now turns in
  match run with
  | OpenRaises => (false, d)
  | DumpRaises partial => (false, write_file temp_path partial d)
  | ReplaceRaises => (false, write_file temp_path (FileJson state) d)
  | Written =>
      (true, replace temp_path state_path
               (write_file temp_path (FileJson state) d))
  end.

(** The turn that [load_window] builds from what [save_window] wrote. *)
Definition reloaded (t : LiveTurn) : ConversationTurn :=
  mkTurn (live_turn_id t) (live_session_id t) (live_day_id t)
         (JStr (timestamp_str t)) (live_turn_sequence t)
         (live_user_message t) (live_assistant_response t)
         (live_detail_level t) (live_compressed_content t)
         (live_compression_timestamp t)
         (match live_keywords t with Some k => k | None => JArr [] end)
         (match live_assistant_summary t with Some a => a | None => JNull end).

(** The compression time of a turn survives [isoformat] and
    [fromisoformat], and is not written as the empty string. *)
Definition stamp_round_trips (fromisoformat : string -> option datetime)
           (t : LiveTurn) : Prop :=
  match live_compression_timestamp t with
  | Some d => fromisoformat (isoformat d) = Some d /\ isoformat d <> EmptyString
  | None => True
  end.

End WithClock.

(** A clock for worked examples: a time is written as that many ticks. *)
Definition toy_isoformat (d : datetime) : string :=
  String "T" (string_of_list_ascii (repeat "i"%char (Z.to_nat d))).
Fixpoint count_ticks (s : string) : Z :=
  match s with
  | EmptyString => 0
  | String _ s' => 1 + count_ticks s'
  end.
Definition toy_fromisoformat (s : string) : option datetime :=
  match s with
  | String "T" rest => Some (count_ticks rest)
  | _ => None
  end.

Definition verbatim_turn : LiveTurn :=
  mkLive (JStr "turn_1") (JStr "s1") (JStr "2025-01-01") (JNum 1)
         (StampDatetime 3) (JStr "VERBATIM") (JStr "I am vegetarian.")
         (JStr "Noted.") JNull None (Some (JArr [JStr "vegetarian"])) None.
Definition compressed_turn : LiveTurn :=
  mkLive (JStr "turn_0") (JStr "s1") (JStr "2025-01-01") (JNum 0)
         (StampStr "2025-01-01T10:00:00") (JStr "COMPRESSED") (JStr "Hello")
         (JStr "Hi") (JStr "greeting") (Some 2) None (Some (JStr "greeted")).

(** A disk whose state file holds text that is no JSON. *)
Definition stale_disk : disk :=
  write_file "sliding_window_state.json" FileNotJson (fun _ => FileAbsent).

End SlidingWindowSave.

(** ** More worked collaborators for the engine *)

Module EngineMoreWords.
Import Models Storage ConversationEngine EngineWords.

(** The same collaborators without a governor (or without its API client). *)
Definition without_governor (env : collaborators) : collaborators :=
  mkCollaborators
    false (now_turn_id env) (chunk_engine env)
    (fact_scrubber env) (current_day env) (current_day_logged env)
    (set_session env) (gpt_nano_keywords env)
    (govern env)
    (generate_block_summary env) (mint_block_id env)
    (update_facts_block_id env) (get_facts_for_block env)
    (hydrate_bridge_block env) (query_external_api_async env)
    (find_json_block env) (json_loads env) (strip_json_block env)
    (update_bridge_block_metadata env) (append_turn_to_block env)
    (log_turn env) (add_turn env) (save_turn_embeddings env) (scribe env).

(** The same collaborators with another main LLM. *)
Definition with_llm (env : collaborators) (llm : string -> result string)
  : collaborators :=
  mkCollaborators
    (governor_ready env) (now_turn_id env) (chunk_engine env)
    (fact_scrubber env) (current_day env) (current_day_logged env)
    (set_session env) (gpt_nano_keywords env)
    (govern env)
    (generate_block_summary env) (mint_block_id env)
    (update_facts_block_id env) (get_facts_for_block env)
    (hydrate_bridge_block env) llm
    (find_json_block env) (json_loads env) (strip_json_block env)
    (update_bridge_block_metadata env) (append_turn_to_block env)
    (log_turn env) (add_turn env) (save_turn_embeddings env) (scribe env).

(** The same collaborators with another embedding storage. *)
Definition with_embedding_storage (env : collaborators)
           (save : string -> list string -> result unit) : collaborators :=
  mkCollaborators
    (governor_ready env) (now_turn_id env) (chunk_engine env)
    (fact_scrubber env) (current_day env) (current_day_logged env)
    (set_session env) (gpt_nano_keywords env)
    (govern env)
    (generate_block_summary env) (mint_block_id env)
    (update_facts_block_id env) (get_facts_for_block env)
    (hydrate_bridge_block env) (query_external_api_async env)
    (find_json_block env) (json_loads env) (strip_json_block env)
    (update_bridge_block_metadata env) (append_turn_to_block env)
    (log_turn env) (add_turn env) save (scribe env).

(** Whether the day can be read once the turn is logged. *)
Definition day_noted (env : collaborators) : bool :=
  match current_day_logged env with Ret _ => true | Raise _ => false end.

(** The same collaborators with another sliding window [set_session]. *)
Definition with_set_session (env : collaborators)
           (set : option (string -> result unit)) : collaborators :=
  mkCollaborators
    (governor_ready env) (now_turn_id env) (chunk_engine env)
    (fact_scrubber env) (current_day env) (current_day_logged env)
    set (gpt_nano_keywords env)
    (govern env)
    (generate_block_summary env) (mint_block_id env)
    (update_facts_block_id env) (get_facts_for_block env)
    (hydrate_bridge_block env) (query_external_api_async env)
    (find_json_block env) (json_loads env) (strip_json_block env)
    (update_bridge_block_metadata env) (append_turn_to_block env)
    (log_turn env) (add_turn env) (save_turn_embeddings env) (scribe env).

(** The same collaborators with another outcome of the day read that ends
    [log_conversation_turn]. *)
Definition with_day_logged (env : collaborators) (day : result string)
  : collaborators :=
  mkCollaborators
    (governor_ready env) (now_turn_id env) (chunk_engine env)
    (fact_scrubber env) (current_day env) day
    (set_session env) (gpt_nano_keywords env)
    (govern env)
    (generate_block_summary env) (mint_block_id env)
    (update_facts_block_id env) (get_facts_for_block env)
    (hydrate_bridge_block env) (query_external_api_async env)
    (find_json_block env) (json_loads env) (strip_json_block env)
    (update_bridge_block_metadata env) (append_turn_to_block env)
    (log_turn env) (add_turn env) (save_turn_embeddings env) (scribe env).

(** The response a run ends with. *)
Definition response_of (r : result ConversationResponse * world)
  : option ConversationResponse :=
  match fst r with
  | Ret resp => Some resp
  | Raise _ => None
  end.

(** Row [k] of the ledger before and after: same block, same day, and not
    closed unless it was. *)
Definition same_block_not_closed (before after : block) : Prop :=
  block_id after = block_id before /\
  day_id after = day_id before /\
  topic_label after = topic_label before /\
  (Storage.status after = CLOSED -> Storage.status before = CLOSED).

(** The same rows under other statuses. *)
Definition restatus (l l' : ledger) : Prop :=
  today l' = today l /\ Forall2 same_block_not_closed (rows l) (rows l').

(** A new-topic decision whose [suggested_label] holds Python's [None]. *)
Definition unlabelled_topic : routing_decision :=
  mkRouting None (Some true) (Some None).

(** The label routing gives a new block: what the decision holds under
    [suggested_label], be it [None], and ["General Discussion"] only when the
    key is missing. *)
Definition new_block_label (rd : routing_decision) : option string :=
  match suggested_label rd with
  | Some value => value
  | None => Some "General Discussion"%string
  end.

End EngineMoreWords.

(** * Properties *)

(** ** Python sequence primitives *)

Module PyFacts.
Import Py.

Lemma len_nonneg {A} (l : list A) : 0 <= len l.
Proof. unfold len. lia. Qed.

Lemma clamp_in_range n i : 0 <= n -> 0 <= i <= n -> clamp n i = i.
Proof.
  intros Hn Hi. unfold clamp.
  destruct (Z.ltb_spec i 0); lia.
Qed.

Lemma slice_length {A} (l : list A) a b :
  0 <= a <= b -> b <= len l -> len (slice l a b) = b - a.
Proof.
  intros Hab Hb. unfold slice.
  rewrite !clamp_in_range by (pose proof (len_nonneg l); lia).
  unfold len in *. rewrite length_firstn, length_skipn. lia.
Qed.

Lemma slice_all {A} (l : list A) : slice l 0 (len l) = l.
Proof.
  unfold slice.
  rewrite !clamp_in_range by (pose proof (len_nonneg l); lia).
  simpl. unfold len. rewrite Z.sub_0_r, Nat2Z.id. apply firstn_all.
Qed.

(** [l[:k]] is always a prefix, of [k] items at most when [k] is no index
    from the end. *)
Lemma take_firstn {A} (l : list A) k :
  take l k = firstn (Z.to_nat (clamp (len l) k)) l.
Proof.
  unfold take, slice.
  assert (H0 : clamp (len l) 0 = 0).
  { apply clamp_in_range; pose proof (len_nonneg l); lia. }
  rewrite H0. simpl. now rewrite Z.sub_0_r.
Qed.

Lemma take_length_le {A} (l : list A) k : 0 <= k -> len (take l k) <= k.
Proof.
  intros Hk. rewrite take_firstn. unfold len. rewrite length_firstn.
  unfold clamp. destruct (Z.ltb_spec k 0); lia.
Qed.

(** The scan keeps its accumulator inside the searched range. *)
Lemma rfind_from_range c l : forall i lo hi acc,
  (acc = -1 \/ lo <= acc < hi) ->
  rfind_from c l i lo hi acc = -1 \/ lo <= rfind_from c l i lo hi acc < hi.
Proof.
  induction l as [|x l IH]; intros i lo hi acc Hacc; simpl; [exact Hacc|].
  apply IH.
  destruct (Z.leb_spec lo i), (Z.ltb_spec i hi), (Ascii.eqb x c);
    simpl; auto; right; lia.
Qed.

Lemma rfind_range c s lo hi :
  0 <= lo <= len s -> 0 <= hi <= len s ->
  rfind c s lo hi = -1 \/ lo <= rfind c s lo hi < hi.
Proof.
  intros Hlo Hhi. unfold rfind.
  rewrite !clamp_in_range by lia.
  apply rfind_from_range. now left.
Qed.

(** What the scan returns holds the character, and no later position of the
    range does. *)
Lemma rfind_from_spec c l : forall pre i lo hi acc,
  i = len pre ->
  (acc = -1 \/ (lo <= acc < hi /\ 0 <= acc < i /\
                nth_error pre (Z.to_nat acc) = Some c)) ->
  (forall j, lo <= j < hi -> 0 <= j < i ->
             nth_error pre (Z.to_nat j) = Some c -> j <= acc) ->
  let r := rfind_from c l i lo hi acc in
  (r = -1 \/ (lo <= r < hi /\ nth_error (pre ++ l) (Z.to_nat r) = Some c)) /\
  (forall j, lo <= j < hi -> 0 <= j ->
             nth_error (pre ++ l) (Z.to_nat j) = Some c -> j <= r).
Proof.
  induction l as [|x l IH]; intros pre i lo hi acc Hi Hacc Hmax; simpl;
    pose proof (len_nonneg pre) as Hpos.
  - rewrite app_nil_r. split.
    + destruct Hacc as [->|(H1 & _ & H3)]; auto.
    + intros j Hj Hj0 Hc. apply Hmax; auto.
      assert (Z.to_nat j < length pre)%nat
        by (apply nth_error_Some; congruence).
      unfold len in Hi. lia.
  - assert (Hlen : len (pre ++ [x]) = i + 1).
    { unfold len in *. rewrite length_app. simpl. lia. }
    assert (Hx : nth_error (pre ++ [x]) (Z.to_nat i) = Some x).
    { rewrite nth_error_app2 by (unfold len in Hi; lia).
      replace (Z.to_nat i - length pre)%nat with 0%nat
        by (unfold len in Hi; lia).
      reflexivity. }
    assert (Hpre : forall j, 0 <= j < i ->
              nth_error (pre ++ [x]) (Z.to_nat j) = nth_error pre (Z.to_nat j)).
    { intros j Hj. apply nth_error_app1. unfold len in Hi. lia. }
    specialize (IH (pre ++ [x]) (i + 1) lo hi
                   (if (lo <=? i) && (i <? hi) && Ascii.eqb x c then i else acc)
                   (eq_sym Hlen)).
    rewrite <- app_assoc in IH. simpl in IH. apply IH; clear IH.
    + destruct ((lo <=? i) && (i <? hi) && Ascii.eqb x c) eqn:E.
      * apply andb_true_iff in E. destruct E as [E E3].
        apply andb_true_iff in E. destruct E as [E1 E2].
        apply Z.leb_le in E1. apply Z.ltb_lt in E2.
        apply Ascii.eqb_eq in E3. subst x.
        right. repeat split; try lia. exact Hx.
      * destruct Hacc as [->|(H1 & H2 & H3)]; [now left|].
        right. repeat split; try lia. rewrite Hpre by lia. exact H3.
    + intros j Hj Hj0 Hc.
      assert (Hcase : j < i \/ j = i) by lia.
      destruct Hcase as [Hlt | ->].
      * rewrite Hpre in Hc by lia.
        specialize (Hmax j Hj (conj (proj1 Hj0) Hlt) Hc).
        destruct ((lo <=? i) && (i <? hi) && Ascii.eqb x c); lia.
      * rewrite Hx in Hc. injection Hc as ->.
        destruct (Z.leb_spec lo i), (Z.ltb_spec i hi); try lia.
        rewrite Ascii.eqb_refl. simpl. lia.
Qed.

Lemma rfind_spec c s lo hi :
  0 <= lo <= len s -> 0 <= hi <= len s ->
  let r := rfind c s lo hi in
  (r = -1 \/ (lo <= r < hi /\ nth_error s (Z.to_nat r) = Some c)) /\
  (forall j, lo <= j < hi -> nth_error s (Z.to_nat j) = Some c -> j <= r).
Proof.
  intros Hlo Hhi. unfold rfind.
  rewrite !clamp_in_range by lia.
  pose proof (rfind_from_spec c s [] 0 lo hi (-1) eq_refl (or_introl eq_refl)) as H.
  simpl in H. destruct H as [H1 H2].
  - intros j _ Hj. lia.
  - split; [exact H1|]. intros j Hj Hc. apply H2; auto. lia.
Qed.

End PyFacts.

(** ** Large-text windows *)

Module ChunkingFacts.
Import Py PyFacts Chunking SpecWords.

Lemma estimate_tokens_floor (t : text) :
  4 * estimate_tokens t <= len t < 4 * estimate_tokens t + 4.
Proof.
  unfold estimate_tokens.
  pose proof (Z.div_mod (len t) 4 ltac:(lia)).
  pose proof (Z.mod_pos_bound (len t) 4 ltac:(lia)). lia.
Qed.

(** With the default sizes a window that is cut before the end of the text
    ends at most 498 characters before its target. *)
Lemma window_end_bounds (t : text) (s : Z) :
  0 <= s < len t ->
  let e := window_end t 40000 s in
  (s + 40000 < len t -> s + 39502 <= e <= s + 40000) /\
  (len t <= s + 40000 -> e = len t).
Proof.
  intros Hs. unfold window_end. split; intros H.
  - rewrite Z.min_l by lia.
    destruct (Z.ltb_spec (s + 40000) (len t)); [|lia].
    rewrite (Z.max_l (s + 40000 - 500) s) by lia.
    set (lo := s + 40000 - 500). set (hi := s + 40000).
    pose proof (rfind_range "."%char t lo hi ltac:(subst lo; lia) ltac:(subst hi; lia)).
    pose proof (rfind_range "!"%char t lo hi ltac:(subst lo; lia) ltac:(subst hi; lia)).
    pose proof (rfind_range "?"%char t lo hi ltac:(subst lo; lia) ltac:(subst hi; lia)).
    destruct (Z.gtb_spec
                (Z.max (Z.max (rfind "." t lo hi) (rfind "!" t lo hi))
                       (rfind "?" t lo hi)) lo); subst lo hi; lia.
  - rewrite Z.min_r by lia.
    destruct (Z.ltb_spec (len t) (len t)); lia.
Qed.

Lemma chunk_loop_defaults (t : text) : forall fuel s i,
  0 <= s < len t -> len t - s <= Z.of_nat fuel ->
  exists cs, chunk_loop fuel t 40000 2000 s i = Some cs /\ windows_from t s cs.
Proof.
  induction fuel as [|fuel IH]; intros s i Hs Hfuel; [simpl in Hfuel; lia|].
  cbn [chunk_loop].
  destruct (Z.ltb_spec s (len t)); [|lia].
  pose proof (window_end_bounds t s Hs) as [Hfar Hnear].
  set (e := window_end t 40000 s) in *.
  assert (Hcut : e <= len t -> s < e -> e - s <= 40000 ->
                 well_cut t (mkChunk (slice t s e) s e i None)).
  { intros. unfold well_cut. simpl. repeat split; lia. }
  destruct (Z.geb_spec e (len t)) as [Hge|Hlt].
  - eexists. split; [reflexivity|].
    assert (e = len t) by lia.
    apply (windows_last t (mkChunk (slice t s e) s e i None)); simpl; auto.
    apply Hcut; lia.
  - assert (Hin : s + 40000 < len t) by lia.
    specialize (Hfar Hin).
    destruct (IH (e - 2000) (i + 1)) as (cs & Hcs & Hok); try lia.
    rewrite Hcs. eexists. split; [reflexivity|].
    apply (windows_next t (mkChunk (slice t s e) s e i None)); simpl; auto.
    apply Hcut; lia.
Qed.

Lemma windows_from_set_total (t : text) n : forall s cs,
  windows_from t s cs -> windows_from t s (map (set_total n) cs).
Proof.
  intros s cs H. induction H as [c Hc He | c cs Hc He _ IH]; simpl.
  - apply (windows_last t (set_total n c)); auto.
  - apply (windows_next t (set_total n c)); auto.
Qed.

(** Every window of a covering holds at most 10,000 tokens. *)
Lemma windows_from_tokens (t : text) : forall s cs,
  windows_from t s cs ->
  Forall (fun c => estimate_tokens (chunk_text c) <= 10000) cs.
Proof.
  assert (Hone : forall c, well_cut t c ->
                           estimate_tokens (chunk_text c) <= 10000).
  { intros c (H1 & H2 & H3 & H4). unfold estimate_tokens.
    rewrite H4, slice_length by lia.
    apply Z.div_le_upper_bound; lia. }
  intros s cs H. induction H; constructor; auto.
Qed.

(** The part two windows share is 2,000 characters, 500 tokens. *)
Lemma windows_from_overlap (t : text) : forall s cs,
  windows_from t s cs ->
  forall pre c1 c2 post, cs = pre ++ c1 :: c2 :: post ->
  start_char c2 = end_char c1 - 2000 /\
  0 <= start_char c2 < end_char c1 /\
  estimate_tokens (slice t (start_char c2) (end_char c1)) = 500.
Proof.
  assert (Hstart : forall s cs, windows_from t s cs ->
            exists c cs', cs = c :: cs' /\ start_char c = s /\ well_cut t c).
  { intros s cs H. destruct H; eauto. }
  intros s cs H. induction H as [c Hc He | c cs Hc He Hrest IH];
    intros pre c1 c2 post Heq.
  - destruct pre as [|? [|? ?]]; discriminate.
  - destruct pre as [|p pre]; simpl in Heq.
    + injection Heq as -> ->.
      destruct (Hstart _ _ Hrest) as (c' & cs' & Hc' & Hs' & Hw).
      injection Hc' as <- <-.
      destruct Hw as (H1 & H2 & H3 & H4).
      repeat split; try lia.
      unfold estimate_tokens. rewrite slice_length by lia.
      rewrite Hs'. replace (end_char c1 - (end_char c1 - 2000)) with (500 * 4) by lia.
      now rewrite Z.div_mul.
    + injection Heq as -> ->. eapply IH. reflexivity.
Qed.

(** A text of at most 10,000 estimated tokens is returned whole, as the one
    window. *)
Lemma small_text_single_window (t : text) :
  estimate_tokens t <= 10000 ->
  chunk_large_text_for_extraction t = Some [mkChunk t 0 (len t) 0 (Some 1)].
Proof.
  intros H. unfold chunk_large_text_for_extraction, chunk_large_text_with.
  destruct (Z.leb_spec (estimate_tokens t) 10000); [reflexivity|lia].
Qed.

(** A longer text: the loop of the default call ends, and leaves windows of
    at most 10,000 tokens, each starting 500 tokens before the end of the
    one before. *)
Lemma large_text_windows (t : text) :
  10000 < estimate_tokens t ->
  exists cs,
    chunk_large_text_for_extraction t = Some cs /\
    windows_from t 0 cs /\
    Forall (fun c => total_chunks c = Some (len cs)) cs.
Proof.
  intros H. unfold chunk_large_text_for_extraction, chunk_large_text_with.
  destruct (Z.leb_spec (estimate_tokens t) 10000); [lia|].
  pose proof (estimate_tokens_floor t) as Hfl.
  change (10000 * 4) with 40000. change (500 * 4) with 2000.
  destruct (chunk_loop_defaults t (S (length t)) 0 0) as (cs & Hcs & Hok).
  { lia. } { unfold len. lia. }
  rewrite Hcs. eexists. split; [reflexivity|]. split.
  - now apply windows_from_set_total.
  - apply Forall_forall. intros c Hc. apply in_map_iff in Hc.
    destruct Hc as (c0 & <- & _). simpl. unfold len. now rewrite length_map.
Qed.

(** Up to 77,502 characters (so for every text of 15,000 estimated tokens)
    the second window already reaches the end: exactly two windows. *)
Lemma two_windows (t : text) :
  10000 < estimate_tokens t -> len t <= 77502 ->
  exists c1 c2, chunk_large_text_for_extraction t = Some [c1; c2].
Proof.
  intros H Hlen. pose proof (estimate_tokens_floor t) as Hfl.
  unfold chunk_large_text_for_extraction, chunk_large_text_with.
  destruct (Z.leb_spec (estimate_tokens t) 10000); [lia|].
  change (10000 * 4) with 40000. change (500 * 4) with 2000.
  (* first window: cut at 39,502 or later, before the end *)
  cbn [chunk_loop].
  destruct (Z.ltb_spec 0 (len t)); [|lia].
  pose proof (window_end_bounds t 0 ltac:(lia)) as [Hfar _].
  simpl in Hfar. specialize (Hfar ltac:(lia)).
  set (e1 := window_end t 40000 0) in *.
  destruct (Z.geb_spec e1 (len t)); [lia|].
  (* second window: its target lies behind the end *)
  assert (Hn : exists n, length t = S n).
  { clear - H1. destruct t as [|a t'];
      [unfold len in H1; simpl in H1; lia | exists (length t'); reflexivity]. }
  destruct Hn as [n Hn]. rewrite Hn. cbn [chunk_loop].
  destruct (Z.ltb_spec (e1 - 2000) (len t)); [|lia].
  pose proof (window_end_bounds t (e1 - 2000) ltac:(lia)) as [_ Hnear].
  simpl in Hnear. rewrite (Hnear ltac:(lia)).
  destruct (Z.geb_spec (len t) (len t)); [|lia].
  simpl. eauto.
Qed.

Lemma fifteen_thousand_tokens_two_windows (t : text) :
  estimate_tokens t = 15000 ->
  exists c1 c2, chunk_large_text_for_extraction t = Some [c1; c2].
Proof.
  intros H. pose proof (estimate_tokens_floor t).
  apply two_windows; lia.
Qed.

(** The look-back as the code performs it: sentence punctuation strictly
    after the start of the 500-character look-back moves the cut to just
    behind the last such character. *)
Lemma window_end_sentence_boundary (t : text) (s j : Z) (c : ascii) :
  0 <= s -> s + 40000 < len t ->
  s + 40000 - 500 < j < s + 40000 ->
  nth_error t (Z.to_nat j) = Some c -> is_sentence_end c = true ->
  let e := window_end t 40000 s in
  j < e /\
  exists c', nth_error t (Z.to_nat (e - 1)) = Some c' /\
             is_sentence_end c' = true.
Proof.
  intros Hs Hfar Hj Hc Hend. unfold window_end.
  rewrite Z.min_l by lia.
  destruct (Z.ltb_spec (s + 40000) (len t)); [|lia].
  rewrite (Z.max_l (s + 40000 - 500) s) by lia.
  set (lo := s + 40000 - 500) in *. set (hi := s + 40000) in *.
  destruct (rfind_spec "."%char t lo hi ltac:(subst lo; lia) ltac:(subst hi; lia))
    as [Hp Hpmax].
  destruct (rfind_spec "!"%char t lo hi ltac:(subst lo; lia) ltac:(subst hi; lia))
    as [He Hemax].
  destruct (rfind_spec "?"%char t lo hi ltac:(subst lo; lia) ltac:(subst hi; lia))
    as [Hq Hqmax].
  set (rp := rfind "." t lo hi) in *.
  set (re := rfind "!" t lo hi) in *.
  set (rq := rfind "?" t lo hi) in *.
  assert (Hfound : j <= Z.max (Z.max rp re) rq).
  { unfold is_sentence_end in Hend.
    apply orb_true_iff in Hend. destruct Hend as [Hend|Hend];
      [apply orb_true_iff in Hend; destruct Hend as [Hend|Hend]|];
      apply Ascii.eqb_eq in Hend; subst c.
    - specialize (Hpmax j ltac:(lia) Hc). lia.
    - specialize (Hemax j ltac:(lia) Hc). lia.
    - specialize (Hqmax j ltac:(lia) Hc). lia. }
  destruct (Z.gtb_spec (Z.max (Z.max rp re) rq) lo); [|lia].
  split; [lia|].
  replace (Z.max (Z.max rp re) rq + 1 - 1) with (Z.max (Z.max rp re) rq) by lia.
  assert (Hwhich : Z.max (Z.max rp re) rq = rp \/ Z.max (Z.max rp re) rq = re
                   \/ Z.max (Z.max rp re) rq = rq) by lia.
  destruct Hwhich as [E|[E|E]]; rewrite E in *.
  - destruct Hp as [Hp|[_ Hp]]; [lia|]. eexists. split; [exact Hp|reflexivity].
  - destruct He as [He|[_ He]]; [lia|]. eexists. split; [exact He|reflexivity].
  - destruct Hq as [Hq|[_ Hq]]; [lia|]. eexists. split; [exact Hq|reflexivity].
Qed.

(** C3 (the look-back misses a boundary at its first position): in
    [lone_stop_document] the only full stop sits 500 characters before the
    target cut at 40,000, inside the range the look-back searches; the code
    finds it, rejects it because [boundary > search_start] is strict, and
    cuts the first window at 40,000, in the middle of a sentence. *)
Theorem lone_stop_cut_mid_sentence :
  estimate_tokens lone_stop_document = 12500 /\
  nth_error lone_stop_document (Z.to_nat 39500) = Some "."%char /\
  rfind "." lone_stop_document (40000 - 500) 40000 = 39500 /\
  option_map (map (fun c => (start_char c, end_char c)))
             (chunk_large_text_for_extraction lone_stop_document)
  = Some [(0, 40000); (38000, 50000)] /\
  nth_error lone_stop_document (Z.to_nat (40000 - 1)) = Some "a"%char.
Proof. vm_compute. repeat split; reflexivity. Qed.

(** C8, as the specification words it, fails on a one-character text:
    the code counts 0 tokens where [ceil(1 / 4)] is 1. *)
Lemma estimate_tokens_not_ceil :
  estimate_tokens ["a"%char] = 0 /\
  ceil_quarter_tokens ["a"%char] = 1 /\
  estimate_tokens ["a"%char] <> ceil_quarter_tokens ["a"%char].
Proof. repeat split. discriminate. Qed.

(** C8 (amended): the token estimate is the floor of [len / 4], the largest
    [n] with [4 n <= len]; it is the ceiling only for lengths that are
    multiples of four, and one less otherwise. *)
Theorem estimate_tokens_is_floor (t : text) :
  4 * estimate_tokens t <= len t < 4 * estimate_tokens t + 4 /\
  estimate_tokens t
  = ceil_quarter_tokens t - (if len t mod 4 =? 0 then 0 else 1).
Proof.
  split; [apply estimate_tokens_floor|].
  unfold estimate_tokens, ceil_quarter_tokens.
  pose proof (Z.div_mod (len t) 4 ltac:(lia)) as Hd.
  pose proof (Z.mod_pos_bound (len t) 4 ltac:(lia)) as Hm.
  pose proof (Z.div_mod (len t + 3) 4 ltac:(lia)) as Hd3.
  pose proof (Z.mod_pos_bound (len t + 3) 4 ltac:(lia)) as Hm3.
  destruct (Z.eqb_spec (len t mod 4) 0); lia.
Qed.

End ChunkingFacts.

(** ** Dossier fact embeddings *)

Module DossierFacts.
Import Float DossierStorage SpecWords.

(** *** Floats that are numbers *)

Lemma ge_trans a b c : ge a b = true -> ge b c = true -> ge a c = true.
Proof.
  destruct a as [|x], b as [|y], c as [|z]; simpl; try discriminate.
  rewrite !Qle_bool_iff. intros H1 H2. now apply Qle_trans with y.
Qed.

Lemma not_lt_ge a b :
  is_nan a = false -> is_nan b = false -> lt a b = false -> ge a b = true.
Proof.
  destruct a as [|x], b as [|y]; simpl; try discriminate.
  intros _ _ H. now apply negb_false_iff in H.
Qed.

Lemma lt_ge a b : lt a b = true -> ge b a = true.
Proof.
  destruct a as [|x], b as [|y]; simpl; try discriminate.
  intros H. apply negb_true_iff in H. apply Qle_bool_iff.
  destruct (Qlt_le_dec x y) as [Hlt|Hle]; [now apply Qlt_le_weak|].
  apply Qle_bool_iff in Hle. congruence.
Qed.

Lemma lt_not_eqb a b : lt a b = true -> Float.eqb a b = false.
Proof.
  destruct a as [|x], b as [|y]; simpl; try discriminate.
  intros H. apply negb_true_iff in H.
  destruct (Qeq_bool x y) eqn:E; [|reflexivity].
  apply Qeq_bool_iff in E.
  assert (Hle : Qle_bool y x = true)
    by (apply Qle_bool_iff; rewrite E; apply Qle_refl).
  congruence.
Qed.

Lemma eqb_trans_false a b s :
  Float.eqb a s = true -> Float.eqb a b = false -> Float.eqb b s = false.
Proof.
  destruct a as [|x], b as [|y], s as [|z]; simpl; try discriminate; auto.
  intros H1 H2. destruct (Qeq_bool y z) eqn:E; [|reflexivity].
  apply Qeq_bool_iff in H1, E.
  assert (Qeq_bool x y = true)
    by (apply Qeq_bool_iff; rewrite H1, E; reflexivity).
  congruence.
Qed.

Lemma ge_same a s th : Float.eqb a s = true -> ge a th = ge s th.
Proof.
  destruct a as [|x], s as [|z], th as [|t]; simpl; try discriminate; auto.
  intros H. apply Qeq_bool_iff in H.
  destruct (Qle_bool t x) eqn:E1, (Qle_bool t z) eqn:E2; auto.
  - apply Qle_bool_iff in E1. rewrite H in E1. apply Qle_bool_iff in E1. congruence.
  - apply Qle_bool_iff in E2. rewrite <- H in E2. apply Qle_bool_iff in E2. congruence.
Qed.

Lemma ge_not_nan a th : ge a th = true -> is_nan a = false.
Proof. destruct a, th; simpl; auto; discriminate. Qed.

(** *** The stable descending sort *)

Lemma insert_desc_Forall (P : hit -> Prop) h l :
  P h -> Forall P l -> Forall P (insert_desc h l).
Proof.
  intros Hh Hl. induction Hl as [|y l Hy Hl IH]; simpl.
  - auto.
  - destruct (lt (score h) (score y)); auto.
Qed.

Lemma sort_desc_Forall (P : hit -> Prop) l :
  Forall P l -> Forall P (sort_desc l).
Proof.
  induction 1; simpl; [constructor|]. now apply insert_desc_Forall.
Qed.

Lemma insert_desc_descending h l :
  is_nan (score h) = false ->
  Forall (fun y => is_nan (score y) = false) l ->
  descending l -> descending (insert_desc h l).
Proof.
  intros Hh Hnan Hl. induction Hl as [|y l Hl IH Hy]; simpl.
  - repeat constructor.
  - inversion Hnan as [|? ? Hyn Hln]; subst.
    destruct (lt (score h) (score y)) eqn:E.
    + constructor; [now apply IH|].
      apply insert_desc_Forall; [now apply lt_ge | exact Hy].
    + assert (Hhy : ge (score h) (score y) = true) by now apply not_lt_ge.
      constructor; [now constructor|].
      constructor; [exact Hhy|].
      eapply Forall_impl; [|exact Hy].
      intros z Hz. simpl in Hz. now apply ge_trans with (score y).
Qed.

Lemma sort_desc_descending l :
  Forall (fun y => is_nan (score y) = false) l -> descending (sort_desc l).
Proof.
  induction 1 as [|h l Hh Hl IH]; simpl; [constructor|].
  apply insert_desc_descending; auto. now apply sort_desc_Forall.
Qed.

(** Stability: among equal scores the sort changes nothing. *)
Lemma insert_desc_same_score s h l :
  filter (same_score s) (insert_desc h l) = filter (same_score s) (h :: l).
Proof.
  induction l as [|y l IH]; [reflexivity|].
  simpl insert_desc. destruct (lt (score h) (score y)) eqn:E; [|reflexivity].
  simpl. simpl in IH. rewrite IH.
  destruct (same_score s h) eqn:Eh; [|reflexivity].
  unfold same_score in *.
  rewrite (eqb_trans_false _ _ _ Eh (lt_not_eqb _ _ E)). reflexivity.
Qed.

Lemma sort_desc_same_score s l :
  filter (same_score s) (sort_desc l) = filter (same_score s) l.
Proof.
  induction l as [|h l IH]; [reflexivity|].
  simpl sort_desc. rewrite insert_desc_same_score. simpl. now rewrite IH.
Qed.

(** *** Prefixes *)

Lemma firstn_Forall {A} (P : A -> Prop) n (l : list A) :
  Forall P l -> Forall P (firstn n l).
Proof.
  intros H. rewrite <- (firstn_skipn n l) in H.
  now apply Forall_app in H.
Qed.

Lemma firstn_descending n l : descending l -> descending (firstn n l).
Proof.
  unfold descending. revert n. induction l as [|h l IH]; intros n H.
  - now rewrite firstn_nil.
  - destruct n as [|n]; simpl; [constructor|].
    inversion H; subst. constructor; [now apply IH|].
    now apply firstn_Forall.
Qed.

Lemma firstn_filter_prefix {A} (f : A -> bool) n (l : list A) :
  filter f l = filter f (firstn n l) ++ filter f (skipn n l).
Proof. now rewrite <- filter_app, firstn_skipn. Qed.

(** *** The scan *)

Section Ranking.
Variable encode : string -> option blob.
Variable cosine : blob -> blob -> option pyfloat.

Lemma scan_passing q th t res :
  scan cosine q th t = Some res ->
  res = filter (fun h => ge (score h) th) (table_hits cosine q t).
Proof.
  revert res. induction t as [|r t IH]; simpl; intros res H.
  - now injection H as <-.
  - destruct (cosine q (embedding r)) as [x|]; [|discriminate].
    destruct (scan cosine q th t) as [rs|]; [|discriminate].
    specialize (IH rs eq_refl). simpl. unfold score at 1. simpl.
    destruct (ge x th); injection H as <-; now rewrite IH.
Qed.

Lemma same_score_passing s th (l : list hit) :
  filter (same_score s) (filter (fun h => ge (score h) th) l)
  = if ge s th then filter (same_score s) l else [].
Proof.
  induction l as [|h l IH]; simpl; [now destruct (ge s th)|].
  destruct (same_score s h) eqn:Es.
  - unfold same_score in Es. rewrite (ge_same _ _ th Es).
    destruct (ge s th) eqn:Eg; simpl.
    + unfold same_score at 1. now rewrite Es, IH.
    + exact IH.
  - destruct (ge (score h) th); simpl; [rewrite Es|]; exact IH.
Qed.

(** What [search_similar_facts] returns, whatever [top_k] is: hits at or
    above the threshold, in descending order of similarity, ties in the
    order of the table. *)
Lemma search_ranked db query top_k threshold t :
  let res := search_similar_facts encode cosine db query top_k threshold t in
  Forall (fun h => ge (score h) threshold = true) res /\
  descending res /\
  match encode query with
  | Some q => older_first (table_hits cosine q t) res
  | None => res = []
  end.
Proof.
  unfold search_similar_facts.
  assert (Hnil : forall stored, older_first stored []).
  { intros stored s. now exists (filter (same_score s) stored). }
  destruct (encode query) as [q|]; [|repeat split; constructor].
  destruct db; [|repeat split; try constructor; apply Hnil].
  destruct (scan cosine q threshold t) as [results|] eqn:Hscan;
    [|repeat split; try constructor; apply Hnil].
  apply scan_passing in Hscan.
  assert (Hpass : Forall (fun h => ge (score h) threshold = true) results).
  { subst results. apply Forall_forall. intros h Hh.
    now apply filter_In in Hh. }
  rewrite PyFacts.take_firstn.
  set (n := Z.to_nat (Py.clamp (Py.len (sort_desc results)) top_k)).
  cbv zeta. split; [|split].
  - now apply firstn_Forall, sort_desc_Forall.
  - apply firstn_descending, sort_desc_descending.
    eapply Forall_impl; [|exact Hpass].
    intros h Hh. now apply ge_not_nan with threshold.
  - intros s.
    destruct (ge s threshold) eqn:Es.
    + exists (filter (same_score s) (skipn n (sort_desc results))).
      rewrite <- firstn_filter_prefix, sort_desc_same_score.
      subst results. now rewrite same_score_passing, Es.
    + exists (filter (same_score s) (table_hits cosine q t)).
      assert (Hnone : filter (same_score s) (sort_desc results) = []).
      { rewrite sort_desc_same_score. subst results.
        now rewrite same_score_passing, Es. }
      rewrite (firstn_filter_prefix _ n) in Hnone.
      apply app_eq_nil in Hnone. now rewrite (proj1 Hnone).
Qed.

(** C4 (amended): for every table, query and threshold, and every
    [top_k >= 0], [search_similar_facts] returns hits whose scores are at or
    above the threshold, in descending order of similarity, ties in the order
    the rows were stored (older first), and at most [top_k] of them. *)
Theorem search_similar_facts_ranked db query top_k threshold t :
  0 <= top_k ->
  let res := search_similar_facts encode cosine db query top_k threshold t in
  Forall (fun h => ge (score h) threshold = true) res /\
  descending res /\
  match encode query with
  | Some q => older_first (table_hits cosine q t) res
  | None => res = []
  end /\
  Py.len res <= top_k.
Proof.
  intros Hk res.
  destruct (search_ranked db query top_k threshold t) as (H1 & H2 & H3).
  repeat split; auto.
  subst res. unfold search_similar_facts.
  destruct (encode query); [|simpl; exact Hk].
  destruct db; [|simpl; exact Hk].
  destruct (scan cosine b threshold t); [|simpl; exact Hk].
  now apply PyFacts.take_length_le.
Qed.

End Ranking.

(** C4, as stated for every [top_k], fails for a negative one: [results[:-1]]
    drops the last hit only, so three stored facts give two hits, more than
    [top_k = -1]. *)
Lemma search_negative_top_k :
  let res := search_similar_facts toy_encode toy_cosine SqlOk "abc" (-1)
               (FVal 0) (run_ops toy_encode three_saves) in
  map fst res = [("fact_002", "dos_diet"); ("fact_001", "dos_diet")]%string /\
  ~ (Py.len res <= -1).
Proof. vm_compute. split; [reflexivity|]. intros H. now apply H. Qed.

(** The ranking on a table of three facts, for [top_k = 2]. *)
Lemma search_similar_facts_ranked_witness :
  0 <= 2 /\
  let res := search_similar_facts toy_encode toy_cosine SqlOk "abc" 2
               (FVal 0) (run_ops toy_encode three_saves) in
  Forall (fun h => ge (score h) (FVal 0) = true) res /\
  descending res /\
  match toy_encode "abc" with
  | Some q => older_first (table_hits toy_cosine q (run_ops toy_encode three_saves)) res
  | None => res = []
  end /\
  Py.len res <= 2.
Proof.
  split; [lia|].
  apply (search_similar_facts_ranked toy_encode toy_cosine SqlOk "abc" 2
           (FVal 0) (run_ops toy_encode three_saves)).
  lia.
Defined.

(** *** The table under writes *)

Lemma nodup_keys_filter (f : row -> bool) (t : table) :
  NoDup (map fact_id t) -> NoDup (map fact_id (filter f t)).
Proof.
  induction t as [|r t IH]; simpl; intros H; [constructor|].
  inversion H as [|? ? Hnotin Hrest]; subst.
  destruct (f r); simpl; [|now apply IH].
  constructor; [|now apply IH].
  intros Hin. apply Hnotin.
  apply in_map_iff in Hin. destruct Hin as (x & Hx & Hin).
  apply filter_In in Hin. rewrite <- Hx. now apply in_map.
Qed.

Lemma insert_or_replace_nodup (r : row) (t : table) :
  NoDup (map fact_id t) -> NoDup (map fact_id (insert_or_replace r t)).
Proof.
  intros H. unfold insert_or_replace. rewrite map_app. simpl.
  apply NoDup_app.
  - now apply nodup_keys_filter.
  - repeat constructor. intros [].
  - intros k Hk [<-|[]].
    apply in_map_iff in Hk. destruct Hk as (x & Hx & Hin).
    apply filter_In in Hin. destruct Hin as [_ Hne].
    unfold has_fact in Hne. rewrite Hx, String.eqb_refl in Hne. discriminate.
Qed.

Lemma filter_idem {A} (f : A -> bool) (l : list A) :
  filter f (filter f l) = filter f l.
Proof.
  induction l as [|x l IH]; simpl; [reflexivity|].
  destruct (f x) eqn:E; simpl; [rewrite E|]; now rewrite IH.
Qed.

Lemma filter_out_then_in {A} (f : A -> bool) (l : list A) :
  filter f (filter (fun x => negb (f x)) l) = [].
Proof.
  induction l as [|x l IH]; simpl; [reflexivity|].
  destruct (f x) eqn:E; simpl; [|rewrite E]; exact IH.
Qed.

(** After the upsert the key has exactly the new row. *)
Lemma insert_or_replace_row (r : row) (t : table) :
  filter (has_fact (fact_id r)) (insert_or_replace r t) = [r].
Proof.
  unfold insert_or_replace. rewrite filter_app.
  rewrite (filter_out_then_in (has_fact (fact_id r)) t).
  simpl. unfold has_fact. now rewrite String.eqb_refl.
Qed.

(** The rows of the other keys stay as they were, in their order. *)
Lemma insert_or_replace_others (r : row) (t : table) :
  filter (fun x => negb (has_fact (fact_id r) x)) (insert_or_replace r t)
  = filter (fun x => negb (has_fact (fact_id r) x)) t.
Proof.
  unfold insert_or_replace. rewrite filter_app.
  rewrite (filter_idem (fun x => negb (has_fact (fact_id r) x)) t).
  simpl. unfold has_fact at 2. rewrite String.eqb_refl. simpl.
  apply app_nil_r.
Qed.

Lemma nodup_key_once (fid : string) (t : table) :
  NoDup (map fact_id t) ->
  length (filter (has_fact fid) t) = if existsb (has_fact fid) t then 1%nat else 0%nat.
Proof.
  induction t as [|x t IH]; simpl; intros H; [reflexivity|].
  inversion H as [|? ? Hnotin Hrest]; subst. specialize (IH Hrest).
  destruct (has_fact fid x) eqn:E; simpl; [|exact IH].
  destruct (existsb (has_fact fid) t) eqn:Ex; [|now rewrite IH].
  exfalso. apply Hnotin.
  apply existsb_exists in Ex. destruct Ex as (y & Hy & Ey).
  unfold has_fact in E, Ey. apply String.eqb_eq in E, Ey.
  rewrite E, <- Ey. now apply in_map.
Qed.

(** An upsert on a stored key keeps the number of rows; on a new key it adds
    one row. *)
Lemma insert_or_replace_length (r : row) (t : table) :
  NoDup (map fact_id t) ->
  length (insert_or_replace r t)
  = if existsb (has_fact (fact_id r)) t then length t else S (length t).
Proof.
  intros H. unfold insert_or_replace. rewrite length_app. simpl.
  pose proof (filter_length (has_fact (fact_id r)) t) as Hsum.
  rewrite (nodup_key_once _ _ H) in Hsum.
  destruct (existsb (has_fact (fact_id r)) t); lia.
Qed.

Lemma delete_where_dossier_gone (did : string) (t : table) :
  filter (in_dossier did) (delete_where_dossier did t) = [].
Proof. apply (filter_out_then_in (in_dossier did) t). Qed.

Lemma run_ops_snoc encode ops o :
  run_ops encode (ops ++ [o]) = run_op encode (run_ops encode ops) o.
Proof. unfold run_ops. now rewrite fold_left_app. Qed.

Lemma run_op_nodup encode o t :
  NoDup (map fact_id t) -> NoDup (map fact_id (run_op encode t o)).
Proof.
  intros H. destruct o as [db now fid did txt | db did]; simpl.
  - unfold save_fact_embedding.
    destruct (encode txt); [|exact H].
    destruct db; simpl; [|exact H].
    now apply insert_or_replace_nodup.
  - unfold delete_dossier_embeddings. destruct db; simpl; [|exact H].
    now apply nodup_keys_filter.
Qed.

Lemma run_ops_nodup encode ops : NoDup (map fact_id (run_ops encode ops)).
Proof.
  induction ops as [|o ops IH] using rev_ind.
  - constructor.
  - rewrite run_ops_snoc. now apply run_op_nodup.
Qed.

(** C7: in every table reached by saves and deletes no [fact_id] has two
    rows; a save that goes through leaves exactly the new row under its
    [fact_id], keeps all other rows, and adds a row only for a [fact_id]
    that was not stored; a delete that goes through leaves no row of the
    dossier and keeps exactly the rows of the other dossiers. A save or
    delete that fails leaves the table as it was. *)
Theorem fact_embeddings_unique_upsert_cascade encode ops :
  let t := run_ops encode ops in
  NoDup (map fact_id t) /\
  (forall db now fid did txt,
     let r := save_fact_embedding encode db now fid did txt t in
     NoDup (map fact_id (snd r)) /\
     match encode txt, db with
     | Some e, SqlOk =>
         fst r = true /\
         filter (has_fact fid) (snd r) = [mkRow fid did e now] /\
         filter (fun x => negb (has_fact fid x)) (snd r)
         = filter (fun x => negb (has_fact fid x)) t /\
         length (snd r)
         = (if existsb (has_fact fid) t then length t else S (length t))
     | _, _ => fst r = false /\ snd r = t
     end) /\
  (forall db did,
     let r := delete_dossier_embeddings db did t in
     NoDup (map fact_id (snd r)) /\
     match db with
     | SqlOk =>
         fst r = true /\
         filter (in_dossier did) (snd r) = [] /\
         snd r = filter (fun x => negb (in_dossier did x)) t
     | SqlError => fst r = false /\ snd r = t
     end).
Proof.
  intros t. pose proof (run_ops_nodup encode ops) as Ht. fold t in Ht.
  split; [exact Ht|]. split.
  - intros db now fid did txt r. split.
    + apply (run_op_nodup encode (Save db now fid did txt) t Ht).
    + subst r. unfold save_fact_embedding.
      destruct (encode txt) as [e|]; [|now split].
      destruct db; [|now split]. simpl.
      split; [reflexivity|]. split; [|split].
      * apply (insert_or_replace_row (mkRow fid did e now)).
      * apply (insert_or_replace_others (mkRow fid did e now)).
      * now apply (insert_or_replace_length (mkRow fid did e now)).
  - intros db did r. split.
    + apply (run_op_nodup encode (Delete db did) t Ht).
    + subst r. unfold delete_dossier_embeddings. destruct db; simpl.
      * split; [reflexivity|]. split; [apply delete_where_dossier_gone|reflexivity].
      * now split.
Qed.

End DossierFacts.

(** ** Sliding-window state file *)

Module SlidingWindowFacts.
Import SlidingWindow.

Section LoadWindow.
Variable fromisoformat : string -> option datetime.

(** Missing file: empty window. *)
Lemma load_window_absent : load_window fromisoformat FileAbsent = Ok [].
Proof. reflexivity. Qed.

(** A file that cannot be opened or is no JSON: the state error. *)
Lemma load_window_unreadable :
  load_window fromisoformat FileUnreadable = Raise (SlidingWindowStateError ReadFailed) /\
  load_window fromisoformat FileNotJson = Raise (SlidingWindowStateError ReadFailed).
Proof. split; reflexivity. Qed.

(** A JSON object whose version is not the string ["1"] (or is missing): the
    state error, whatever else the object holds. *)
Lemma load_window_version_mismatch (fields : list (string * json)) :
  is_state_version (dict_get fields "version" JNull) = false ->
  load_window fromisoformat (FileJson (JObj fields))
  = Raise (SlidingWindowStateError VersionMismatch).
Proof. intros H. simpl. now rewrite H. Qed.

(** A JSON object never gets past [load_window] with anything but a window
    or the state error; a window only under version ["1"]. *)
Lemma load_window_object (fields : list (string * json)) :
  (exists turns,
     load_window fromisoformat (FileJson (JObj fields)) = Ok turns /\
     dict_get fields "version" JNull = JStr STATE_VERSION /\
     option_map (@length _) (iterate (dict_get fields "turns" (JArr [])))
     = Some (length turns)) \/
  (exists why,
     load_window fromisoformat (FileJson (JObj fields))
     = Raise (SlidingWindowStateError why)).
Proof.
  simpl.
  destruct (is_state_version (dict_get fields "version" JNull)) eqn:Ev; simpl;
    [|right; eauto].
  destruct (iterate (dict_get fields "turns" (JArr []))) as [items|];
    [|right; eauto].
  destruct (build_turns fromisoformat items) as [turns|] eqn:Eb;
    [|right; eauto].
  left. exists turns. split; [reflexivity|]. split.
  - destruct (dict_get fields "version" JNull); try discriminate.
    simpl in Ev. apply String.eqb_eq in Ev. now subst.
  - simpl. f_equal. revert turns Eb.
    induction items as [|x items IH]; simpl; intros turns Eb.
    + now injection Eb as <-.
    + destruct (build_turn fromisoformat x); [|discriminate].
      destruct (build_turns fromisoformat items); [|discriminate].
      injection Eb as <-. simpl. f_equal. now apply IH.
Qed.

(** C6 (a state file that holds JSON but no object): [state.get] is called
    outside the [try] blocks, so for the file contents [[]], [null] or
    ["1"] the call ends in [AttributeError], not in the state error that
    the docstring promises for every read, parse or integrity failure. *)
Theorem load_window_non_object_attribute_error :
  load_window fromisoformat (FileJson (JArr [])) = Raise AttributeError /\
  load_window fromisoformat (FileJson JNull) = Raise AttributeError /\
  load_window fromisoformat (FileJson (JStr "1")) = Raise AttributeError /\
  Raise (A := list ConversationTurn) AttributeError
  <> Raise (SlidingWindowStateError DeserializeFailed).
Proof. repeat split. discriminate. Qed.

End LoadWindow.

End SlidingWindowFacts.

(** ** The convenience chunker *)

Module ChunkerFacts.
Import Chunker SpecWords.

(** C10: [chunk_conversation] raises [NameError] for [SemanticChunker] on
    every input and returns no list of chunks: the name is bound neither in
    the module nor among the builtins. *)
Theorem chunk_conversation_name_error
        (builtins : list string)
        (call_global : string -> Z -> string -> string -> result (list string))
        (user_message assistant_response : string) (max_chunk_size : Z) :
  existsb (String.eqb "SemanticChunker") builtins = false ->
  chunk_conversation builtins call_global user_message assistant_response
                     max_chunk_size
  = Raise (NameError "SemanticChunker") /\
  forall chunks,
    chunk_conversation builtins call_global user_message assistant_response
                       max_chunk_size
    <> Ok chunks.
Proof.
  intros Hb. unfold chunk_conversation, load_global.
  change (existsb (String.eqb "SemanticChunker") module_globals) with false.
  rewrite Hb. split; [reflexivity|discriminate].
Qed.

(** The call of the module's own test text, under Python's builtins. *)
Lemma chunk_conversation_name_error_witness :
  existsb (String.eqb "SemanticChunker") python_builtins = false /\
  chunk_conversation python_builtins toy_semantic_chunker
                     "What's a bicycle?" "A two-wheeled vehicle." 400
  = Raise (NameError "SemanticChunker") /\
  forall chunks,
    chunk_conversation python_builtins toy_semantic_chunker
                       "What's a bicycle?" "A two-wheeled vehicle." 400
    <> Ok chunks.
Proof.
  split; [reflexivity|].
  apply (chunk_conversation_name_error python_builtins toy_semantic_chunker).
  reflexivity.
Defined.

End ChunkerFacts.

(** ** The engine turn pipeline *)

Module EngineFacts.
Import Models Storage ConversationEngine EngineWords.

(** *** Raising computations *)

Lemma raise_raises {A} (e : exn) : raises (@raise A e).
Proof. intros w. now exists e, w. Qed.


(** A sequence raises as soon as its continuation always does. *)
Lemma bind_raises {A B} (m : M A) (k : A -> M B) :
  (forall a, raises (k a)) -> raises (bind m k).
Proof.
  intros Hk w. unfold bind.
  destruct (m w) as [[a|e] w1]; [apply Hk | now exists e, w1].
Qed.

Lemma bind_raises_first {A B} (m : M A) (k : A -> M B) :
  raises m -> raises (bind m k).
Proof.
  intros Hm w. unfold bind.
  destruct (Hm w) as (e & w1 & ->). now exists e, w1.
Qed.

(** *** Error responses *)


(** Once the session is set, [process_user_message] answers whatever
    happens. *)
Lemma process_user_message_answers env q s w :
  sliding_window_set_session env s = Ret tt ->
  exists resp w', process_user_message env q s w = (Ret resp, w').
Proof.
  intros Hset. unfold process_user_message, bind at 1, call at 1.
  rewrite Hset. unfold try_except.
  destruct (bind _ _ w) as [[resp|e] w1]; eauto.
  unfold ret. eauto.
Qed.

(** A turn whose [try] body raises is answered with status [ERROR]: by one
    of the two handlers of [_handle_chat], or, when logging the fallback
    response fails too, by the handler of [process_user_message]. *)
Lemma body_raises_error_status env q s :
  governor_ready env = true ->
  raises (handle_chat_body env q s) ->
  sliding_window_set_session env s = Ret tt ->
  forall w, response_status (process_user_message env q s w) = Some ERROR.
Proof.
  intros Hready Hbody Hset w.
  unfold response_status, process_user_message, bind at 1, call at 1.
  rewrite Hset. unfold try_except, bind.
  destruct (match scribe env with
            | Some run_scribe_agent => call (run_scribe_agent q s)
            | None => ret tt
            end w) as [[[]|e0] w0]; [|reflexivity].
  unfold _handle_chat. rewrite Hready. simpl. unfold try_except.
  destruct (Hbody w0) as (e & w1 & ->).
  destruct e; try reflexivity;
    unfold bind;
    destruct (log_conversation_turn env q fallback_response "default_session" w1)
      as [[[]|e1] w2]; reflexivity.
Qed.


Lemma log_conversation_turn_raises env u a s :
  (forall s' u' a', exists e, log_turn env s' u' a' = Raise e) ->
  raises (log_conversation_turn env u a s).
Proof.
  intros Hlog w. unfold log_conversation_turn, try_except, bind, call.
  destruct (Hlog s u a) as [e ->]. unfold raise. eauto.
Qed.



(** When the turn cannot be logged ([log_turn] raises, which
    [log_conversation_turn] turns into [StorageWriteError]), the turn is
    answered with [ERROR], once the session is set. *)
Lemma log_turn_raises_error_status env q s w :
  governor_ready env = true ->
  (forall s' u' a', exists e, log_turn env s' u' a' = Raise e) ->
  sliding_window_set_session env s = Ret tt ->
  response_status (process_user_message env q s w) = Some ERROR.
Proof.
  intros Hready Hlog Hset. apply body_raises_error_status; [exact Hready| |exact Hset].
  unfold handle_chat_body.
  apply bind_raises; intros chunks.
  apply bind_raises; intros [[[routing mems] facts] dossiers].
  apply bind_raises; intros [block is_new].
  apply bind_raises; intros _.
  apply bind_raises; intros block_facts.
  apply bind_raises; intros full_prompt.
  apply bind_raises; intros chat_response.
  destruct (parse_metadata env chat_response) as [metadata_json response_text].
  apply bind_raises; intros _.
  apply bind_raises; intros l.
  apply bind_raises; intros success.
  apply bind_raises_first.
  now apply log_conversation_turn_raises.
Qed.

(** C1 ([append_turn_to_block] reports failure): with collaborators that
    all answer, and [append_turn_to_block] returning [False], the turn is
    answered with status [SUCCESS]; the return value is only printed. *)
Theorem append_failure_answered_success :
  let env := with_append quiet (fun _ _ _ => Ret false) in
  (forall l b td, append_turn_to_block env l b td = Ret false) /\
  response_status
    (process_user_message env "hello" "default_session" one_active_block)
  = Some SUCCESS.
Proof. split; reflexivity. Qed.

(** *** The governor's failure *)

(** C5: when [govern] raises [RetrievalError], the governor step yields the
    default routing decision with empty memories, facts and dossiers, and
    the turn goes on exactly as a turn whose governor returned that. *)
Theorem retrieval_error_default_routing env q s w :
  govern env q (current_day env) = Raise RetrievalError ->
  govern_step env q (current_day env) w
  = (Ret (mkRouting None (Some true) (Some (Some "General Discussion"%string)),
          [], [], []), w) /\
  _handle_chat env q s w
  = _handle_chat
      (with_govern env (fun _ _ => Ret (default_routing, [], [], []))) q s w.
Proof.
  intros Hgov. split.
  - unfold govern_step, try_except, call. now rewrite Hgov.
  - unfold _handle_chat, with_govern. cbn [governor_ready].
    destruct (governor_ready env); [|reflexivity]. cbn [negb].
    unfold try_except, handle_chat_body, govern_step, try_except, call, bind.
    cbn [govern current_day chunk_engine now_turn_id].
    rewrite Hgov. reflexivity.
Qed.

(** A governor that always fails with [RetrievalError], on a day with one
    active block. *)
Lemma retrieval_error_default_routing_witness :
  let env := with_govern quiet (fun _ _ => Raise RetrievalError) in
  govern env "hello" (current_day env) = Raise RetrievalError /\
  govern_step env "hello" (current_day env) one_active_block
  = (Ret (mkRouting None (Some true) (Some (Some "General Discussion"%string)),
          [], [], []), one_active_block) /\
  _handle_chat env "hello" "default_session" one_active_block
  = _handle_chat
      (with_govern env (fun _ _ => Ret (default_routing, [], [], [])))
      "hello" "default_session" one_active_block.
Proof.
  split; [reflexivity|].
  apply (retrieval_error_default_routing
           (with_govern quiet (fun _ _ => Raise RetrievalError))
           "hello" "default_session" one_active_block).
  reflexivity.
Defined.

(** With the governor failing the quiet turn still completes: the active
    block is paused, a new one is opened, and the answer is [SUCCESS] with no
    retrieved context. *)
Lemma retrieval_error_turn_completes :
  let env := with_govern quiet (fun _ _ => Raise RetrievalError) in
  let r := process_user_message env "hello" "default_session" one_active_block in
  response_status r = Some SUCCESS /\
  option_map contexts_retrieved
             (match fst r with Ret resp => Some resp | Raise _ => None end)
  = Some 0 /\
  map (fun b => (block_id b, Storage.status b)) (rows (store (snd r)))
  = [("bb_1"%string, PAUSED); ("bb_2"%string, ACTIVE)].
Proof. repeat split; reflexivity. Qed.

(** *** Only user text is embedded *)

Lemma skipn_length_app {A} (l l' : list A) : skipn (length l) (l ++ l') = l'.
Proof. induction l as [|x l IH]; simpl; auto. Qed.

Lemma skipn_length_all {A} (l : list A) : skipn (length l) l = [].
Proof. induction l as [|x l IH]; simpl; auto. Qed.

(** Nothing was handed over between two worlds with the same calls. *)
Lemma texts_passed_same (w w' : world) :
  embedded w' = embedded w -> texts_passed w w' = [].
Proof.
  intros H. unfold texts_passed. now rewrite H, skipn_length_all.
Qed.

Lemma texts_passed_none (w : world) : texts_passed w w = [].
Proof. now apply texts_passed_same. Qed.

Lemma texts_passed_one (w w' : world) tid texts :
  embedded w' = embedded w ++ [(tid, texts)] -> texts_passed w w' = [texts].
Proof.
  intros H. unfold texts_passed. now rewrite H, skipn_length_app.
Qed.

(** The day check hands nothing to the embedding storage and leaves the
    ledger alone. *)
Lemma note_day_frame env w :
  embedded (snd (note_day env w)) = embedded w /\
  store (snd (note_day env w)) = store w.
Proof.
  unfold note_day, bind, call, get_previous_day, put_previous_day, ret.
  destruct (current_day_logged env) as [day|e]; [|split; reflexivity].
  simpl. destruct (previous_day w) as [p|]; [destruct (String.eqb day p)|];
    split; reflexivity.
Qed.

(** What the outer handler of [log_conversation_turn] leaves of a world. *)
Lemma log_handler_frame {A} (m : M A) w :
  snd (try_except m (fun _ => raise StorageWriteError) w) = snd (m w).
Proof.
  unfold try_except, raise. now destruct (m w) as [[a|e] w1].
Qed.

Lemma bind_note_day_embedded env (m : M unit) w :
  embedded (snd (bind m (fun _ => note_day env) w)) = embedded (snd (m w)).
Proof.
  unfold bind. destruct (m w) as [[[]|e] w1]; [|reflexivity].
  apply note_day_frame.
Qed.

(** The texts [log_conversation_turn] hands to the embedding storage: the
    user's texts when the turn was logged, nothing otherwise. *)
Lemma log_conversation_turn_texts env user assistant s w :
  chunker_local env ->
  texts_passed w (snd (log_conversation_turn env user assistant s w))
  = if persisted env s user assistant then user_texts env user else [].
Proof.
  intros Hlocal.
  unfold log_conversation_turn. rewrite log_handler_frame.
  unfold persisted, bind at 1, call at 1.
  destruct (log_turn env s user assistant) as [turn|e];
    [|simpl; apply texts_passed_none].
  unfold bind at 1, call at 1.
  destruct (add_turn env turn) as [[]|e]; [|simpl; apply texts_passed_none].
  unfold texts_passed. rewrite bind_note_day_embedded.
  change (texts_passed w (snd (embed_user_query env user turn w))
          = user_texts env user).
  unfold embed_user_query, user_texts, chunker_local, try_except, bind, call in *.
  destruct (chunk_engine env) as [chunk_turn|].
  - rewrite <- (Hlocal user (turn_id turn) EmptyString).
    destruct (chunk_turn user (turn_id turn)) as [chunks|e]; simpl;
      [|apply texts_passed_none].
    destruct (sentence_texts chunks) as [|t ts] eqn:Et; simpl;
      [apply texts_passed_none|].
    unfold embedding_storage_save.
    destruct (save_turn_embeddings env (turn_id turn) (t :: ts)) as [[]|e];
      simpl; now apply (texts_passed_one _ _ (turn_id turn)).
  - simpl. unfold embedding_storage_save.
    destruct (save_turn_embeddings env (turn_id turn) [user]) as [[]|e];
      simpl; now apply (texts_passed_one _ _ (turn_id turn)).
Qed.

(** C9: two runs of [log_conversation_turn] that differ in the assistant
    response only hand the same texts to the embedding storage, and what a
    run hands over is nothing or the texts of the user message. The chunk
    engine cuts a text the same way under every turn id, and the turn is
    logged in both runs or in neither. *)
Theorem only_user_text_embedded env user a1 a2 s w :
  chunker_local env ->
  persisted env s user a1 = persisted env s user a2 ->
  texts_passed w (snd (log_conversation_turn env user a1 s w))
  = texts_passed w (snd (log_conversation_turn env user a2 s w)) /\
  (texts_passed w (snd (log_conversation_turn env user a1 s w)) = [] \/
   texts_passed w (snd (log_conversation_turn env user a1 s w))
   = user_texts env user).
Proof.
  intros Hlocal Hsame.
  rewrite !log_conversation_turn_texts by exact Hlocal.
  rewrite Hsame. split; [reflexivity|].
  destruct (persisted env s user a2); auto.
Qed.

(** Two answers to the same user message. *)
Lemma only_user_text_embedded_witness :
  chunker_local quiet /\
  persisted quiet "s1" "I am vegetarian." "Noted."
  = persisted quiet "s1" "I am vegetarian." "Enjoy the steak!" /\
  texts_passed one_active_block
    (snd (log_conversation_turn quiet "I am vegetarian." "Noted." "s1"
            one_active_block))
  = texts_passed one_active_block
      (snd (log_conversation_turn quiet "I am vegetarian." "Enjoy the steak!"
              "s1" one_active_block)) /\
  (texts_passed one_active_block
     (snd (log_conversation_turn quiet "I am vegetarian." "Noted." "s1"
             one_active_block)) = [] \/
   texts_passed one_active_block
     (snd (log_conversation_turn quiet "I am vegetarian." "Noted." "s1"
             one_active_block))
   = user_texts quiet "I am vegetarian.").
Proof.
  assert (Hlocal : chunker_local quiet) by (intros text i j; reflexivity).
  split; [exact Hlocal|]. split; [reflexivity|].
  apply (only_user_text_embedded quiet "I am vegetarian." "Noted."
           "Enjoy the steak!" "s1" one_active_block Hlocal).
  reflexivity.
Defined.

(** In the quiet run the one text embedded is the user's sentence. *)
Lemma quiet_turn_embeds_user_sentence :
  texts_passed one_active_block
    (snd (log_conversation_turn quiet "I am vegetarian." "Noted." "s1"
            one_active_block))
  = [["I am vegetarian."%string]].
Proof. reflexivity. Qed.

(** *** The ledger under status writes *)

Lemma filter_none {A} (f : A -> bool) (l : list A) :
  (forall x, In x l -> f x = false) -> filter f l = [].
Proof.
  induction l as [|x l IH]; simpl; intros H; [reflexivity|].
  rewrite (H x (or_introl eq_refl)). apply IH. intros y Hy. apply H. now right.
Qed.

Lemma filter_at_most_one {A} (f : A -> bool) (l : list A) a x :
  (length (filter f l) <= 1)%nat ->
  In a l -> f a = true -> In x l -> f x = true -> x = a.
Proof.
  intros Hlen Ha Hfa Hx Hfx.
  assert (Ia : In a (filter f l)) by now apply filter_In.
  assert (Ix : In x (filter f l)) by now apply filter_In.
  revert Hlen Ia Ix.
  destruct (filter f l) as [|y [|z rest]]; simpl; intros Hlen Ia Ix;
    [contradiction| |lia].
  destruct Ia as [<-|[]], Ix as [<-|[]]. reflexivity.
Qed.

Lemma active_count_filter day l :
  active_count day l = length (filter (active_on day) (rows l)).
Proof. reflexivity. Qed.

Lemma last_active_found (l : ledger) (b : block) :
  find (fun b => block_status_eqb (Storage.status b) ACTIVE)
       (get_active_bridge_blocks l) = Some b ->
  In b (rows l) /\ active_on (today l) b = true.
Proof.
  intros H. apply find_some in H. destruct H as [Hin Hact].
  unfold get_active_bridge_blocks in Hin. apply filter_In in Hin.
  destruct Hin as [Hin Hday]. apply andb_true_iff in Hday.
  split; [exact Hin|]. unfold active_on. now rewrite (proj1 Hday), Hact.
Qed.

Lemma no_last_active (l : ledger) :
  find (fun b => block_status_eqb (Storage.status b) ACTIVE)
       (get_active_bridge_blocks l) = None ->
  active_count (today l) l = 0%nat.
Proof.
  intros H. rewrite active_count_filter.
  rewrite filter_none; [reflexivity|].
  intros x Hx. destruct (active_on (today l) x) eqn:E; [|reflexivity].
  unfold active_on in E. apply andb_true_iff in E. destruct E as [Ed Es].
  assert (Hin : In x (get_active_bridge_blocks l)).
  { unfold get_active_bridge_blocks. apply filter_In. split; [exact Hx|].
    rewrite Ed. destruct (Storage.status x); simpl in *; auto; discriminate. }
  pose proof (find_none _ _ H x Hin) as Hn. simpl in Hn. congruence.
Qed.

Lemma update_status_today id st l :
  today (update_bridge_block_status id st l) = today l.
Proof. reflexivity. Qed.

Lemma update_status_keys id st l :
  keys_unique l -> keys_unique (update_bridge_block_status id st l).
Proof.
  unfold keys_unique. simpl. rewrite map_map.
  intros H. erewrite map_ext; [exact H|].
  intros b. simpl. now destruct (String.eqb (block_id b) id).
Qed.

(** Pausing the one active block of a day leaves the day without one. *)
Lemma pause_clears_day day l b :
  (active_count day l <= 1)%nat ->
  In b (rows l) -> active_on day b = true ->
  active_count day (update_bridge_block_status (block_id b) PAUSED l) = 0%nat.
Proof.
  intros Hcnt Hin Hact. rewrite active_count_filter. simpl.
  rewrite filter_none; [reflexivity|].
  intros y Hy. apply in_map_iff in Hy. destruct Hy as (x & <- & Hx).
  destruct (String.eqb (block_id x) (block_id b)) eqn:E.
  - unfold active_on. simpl. apply andb_false_r.
  - destruct (active_on day x) eqn:Ex; [|reflexivity].
    rewrite active_count_filter in Hcnt.
    rewrite (filter_at_most_one _ _ b x Hcnt Hin Hact Hx Ex) in E.
    rewrite String.eqb_refl in E. discriminate.
Qed.

(** Activating a block in a day without an active one leaves at most one. *)
Lemma activate_at_most_one day l m :
  keys_unique l -> active_count day l = 0%nat ->
  (active_count day (update_bridge_block_status m ACTIVE l) <= 1)%nat.
Proof.
  unfold keys_unique. rewrite !active_count_filter. simpl.
  intros Hkeys Hzero.
  assert (Hoff : forall x, In x (rows l) -> active_on day x = false).
  { intros x Hx. destruct (active_on day x) eqn:E; [|reflexivity].
    assert (Hx' : In x (filter (active_on day) (rows l))) by now apply filter_In.
    revert Hzero Hx'.
    destruct (filter (active_on day) (rows l)); simpl; [tauto|discriminate]. }
  clear Hzero.
  assert (Hgen : (length (filter (active_on day)
                    (map (fun b => if String.eqb (block_id b) m
                                   then set_status ACTIVE b else b) (rows l)))
                  <= if existsb (fun b => String.eqb (block_id b) m) (rows l)
                     then 1 else 0)%nat).
  { induction (rows l) as [|x r IH]; simpl; [lia|].
    inversion Hkeys as [|? ? Hnotin Hrest]; subst.
    specialize (IH Hrest (fun y Hy => Hoff y (or_intror Hy))).
    destruct (String.eqb (block_id x) m) eqn:E; simpl.
    - apply String.eqb_eq in E.
      assert (Hno : existsb (fun b => String.eqb (block_id b) m) r = false).
      { destruct (existsb _ r) eqn:Ex; [|reflexivity].
        apply existsb_exists in Ex. destruct Ex as (y & Hy & Ey).
        apply String.eqb_eq in Ey. exfalso. apply Hnotin.
        rewrite E, <- Ey. now apply in_map. }
      rewrite Hno in IH.
      destruct (active_on day (set_status ACTIVE x)); simpl; lia.
    - rewrite (Hoff x (or_introl eq_refl)).
      destruct (existsb _ r); lia. }
  destruct (existsb _ (rows l)); lia.
Qed.

(** The forced pause leaves the day without an active block. *)
Lemma force_pause_clears day (r : list block) :
  filter (active_on day) (map (force_pause day) r) = [].
Proof.
  apply filter_none. intros y Hy. apply in_map_iff in Hy.
  destruct Hy as (x & <- & _). unfold force_pause, active_on.
  destruct (String.eqb (day_id x) day && block_status_eqb (Storage.status x) ACTIVE)
    eqn:E; [simpl; apply andb_false_r|exact E].
Qed.

(** A created block is the one active block of its day. *)
Lemma create_count_one new_id day label kws l l' :
  create_new_bridge_block new_id day label kws l = Some l' ->
  active_count day l' = 1%nat.
Proof.
  unfold create_new_bridge_block.
  destruct (existsb _ (rows l)); [discriminate|].
  intros H. injection H as <-. rewrite active_count_filter. simpl.
  rewrite filter_app, force_pause_clears. simpl.
  unfold active_on. simpl. now rewrite String.eqb_refl.
Qed.

(** *** Routing execution *)

(** Pausing writes the status whether or not the summary can be generated. *)
Lemma pause_block_store env id w :
  store (snd (pause_block env id w))
  = update_bridge_block_status id PAUSED (store w).
Proof.
  unfold pause_block, storage_update_status, bind, get_store, put_store, call.
  simpl. now destruct (generate_block_summary env id).
Qed.

Lemma activate_step_store id w :
  store (snd (bind (storage_update_status id ACTIVE)
                   (fun _ => ret (id, false)) w))
  = update_bridge_block_status id ACTIVE (store w).
Proof. reflexivity. Qed.

(** After creating: the day's active rows are paused and the ledger has one
    more row, the created one; or the call raised and nothing changed. *)
Lemma create_step_world env day label kws w :
  let r := bind (storage_create_block env day label kws)
                (fun id => ret (id, true)) w in
  embedded (snd r) = embedded w /\
  ((exists e, fst r = Raise e /\ store (snd r) = store w) \/
   (exists id, fst r = Ret (id, true) /\ today (store (snd r)) = today (store w) /\
               rows (store (snd r))
               = map (force_pause day) (rows (store w))
                 ++ [mkBlock id day label kws ACTIVE])).
Proof.
  unfold storage_create_block, bind, get_store, put_store, ret, raise. simpl.
  unfold create_new_bridge_block.
  destruct (existsb _ (rows (store w))); simpl.
  - split; [reflexivity|]. left. eauto.
  - split; [reflexivity|]. right. eauto.
Qed.

(** Creating a block leaves its day with one active block, or raises and
    leaves the ledger alone. *)
Lemma create_step_count env day label kws w :
  (active_count day (store w) <= 1)%nat ->
  (active_count day
     (store (snd (bind (storage_create_block env day label kws)
                       (fun id => ret (id, true)) w)))
   <= 1)%nat.
Proof.
  intros Hcnt.
  unfold storage_create_block, bind, get_store, put_store, ret, raise. simpl.
  destruct (create_new_bridge_block _ day label kws (store w)) as [l'|] eqn:E;
    simpl; [|exact Hcnt].
  rewrite (create_count_one _ _ _ _ _ _ E). lia.
Qed.

(** Whatever the decision, routing execution keeps a day with at most one
    active block that way, also when a step raises half way. *)
Lemma routing_single_active env day rd w :
  keys_unique (store w) -> today (store w) = day ->
  (active_count day (store w) <= 1)%nat ->
  (active_count day (store (snd (routing_execution env day rd w))) <= 1)%nat.
Proof.
  intros Hkeys Hday Hcnt.
  unfold routing_execution. unfold bind at 1. unfold get_store at 1.
  set (is_new := match is_new_topic rd with Some b => b | None => false end).
  set (label := match suggested_label rd with
                | Some value => value
                | None => Some "General Discussion"%string end).
  set (mid := match matched_block_id rd with Some m => m | None => EmptyString end).
  destruct (find _ (get_active_bridge_blocks (store w))) as [b|] eqn:Ef.
  - (* an active block [b] *)
    destruct (last_active_found _ _ Ef) as [Hin Hact]. rewrite Hday in Hact.
    assert (Hpaused : forall w1,
              store w1 = update_bridge_block_status (block_id b) PAUSED (store w) ->
              active_count day (store w1) = 0%nat /\ keys_unique (store w1)).
    { intros w1 ->. split; [now apply pause_clears_day|now apply update_status_keys]. }
    destruct (truthy_id (matched_block_id rd) && true
              && String.eqb mid (block_id b)); [exact Hcnt|].
    destruct (truthy_id (matched_block_id rd) && negb is_new) eqn:Eres.
    + (* Resumption *)
      unfold bind at 1.
      pose proof (pause_block_store env (block_id b) w) as Hp.
      destruct (pause_block env (block_id b) w) as [[[]|e] w1]; simpl in Hp;
        destruct (Hpaused w1 Hp) as [Hz Hk].
      * rewrite activate_step_store. now apply activate_at_most_one.
      * simpl. lia.
    + destruct is_new eqn:Enew; cbn [andb negb].
      * (* Topic Shift *)
        unfold bind at 1.
        pose proof (pause_block_store env (block_id b) w) as Hp.
        destruct (pause_block env (block_id b) w) as [[[]|e] w1]; simpl in Hp;
          destruct (Hpaused w1 Hp) as [Hz Hk].
        -- apply create_step_count. lia.
        -- simpl. lia.
      * (* Fallback: the storage pauses the active block as it creates *)
        now apply create_step_count.
  - (* no active block *)
    pose proof (no_last_active _ Ef) as Hz. rewrite Hday in Hz.
    rewrite andb_false_r. cbn [andb].
    destruct (truthy_id (matched_block_id rd) && negb is_new).
    + (* Resumption, nothing to pause *)
      unfold bind at 1. unfold ret at 1.
      rewrite activate_step_store. now apply activate_at_most_one.
    + destruct is_new; cbn [andb negb]; now apply create_step_count.
Qed.

(** Continuation, Resumption, New Topic Creation and Topic Shift keep a day
    with at most one active block that way, also when a step raises half
    way; so does the fallback on a day that has no active block. *)
Lemma routing_keeps_single_active env day rd w :
  keys_unique (store w) -> today (store w) = day ->
  (active_count day (store w) <= 1)%nat ->
  truthy_id (matched_block_id rd) = true \/
  is_new_topic rd = Some true \/
  active_count day (store w) = 0%nat ->
  (active_count day (store (snd (routing_execution env day rd w))) <= 1)%nat.
Proof.
  intros Hkeys Hday Hcnt _. now apply routing_single_active.
Qed.





(** The fallback run in full: the first block is paused, the second is the
    active one. *)
Lemma fallback_pauses_previous_block :
  let r := routing_execution quiet "2025-01-01" indeterminate one_active_block in
  fst r = Ret ("bb_2"%string, true) /\
  map (fun b => (block_id b, day_id b, Storage.status b)) (rows (store (snd r)))
  = [("bb_1", "2025-01-01", PAUSED); ("bb_2", "2025-01-01", ACTIVE)]%string.
Proof. split; reflexivity. Qed.

(** The same day and the same block under a Topic Shift: the first block is
    paused before the new one is created. *)
Lemma shift_pauses_previous_block :
  let r := routing_execution quiet "2025-01-01" default_routing one_active_block in
  map (fun b => (block_id b, Storage.status b)) (rows (store (snd r)))
  = [("bb_1", PAUSED); ("bb_2", ACTIVE)]%string.
Proof. reflexivity. Qed.

End EngineFacts.

(** ** Large-text windows: layout, read-back and overhead *)

Module ChunkingLayout.
Import Py PyFacts Chunking SpecWords ChunkingWords ChunkingFacts.

Lemma chunk_loop_strides (t : text) : forall fuel s i,
  0 <= s < len t -> len t - s <= Z.of_nat fuel ->
  exists cs, chunk_loop fuel t 40000 2000 s i = Some cs /\ strides t s i cs.
Proof.
  induction fuel as [|fuel IH]; intros s i Hs Hfuel; [simpl in Hfuel; lia|].
  cbn [chunk_loop].
  destruct (Z.ltb_spec s (len t)); [|lia].
  pose proof (window_end_bounds t s Hs) as [Hfar Hnear].
  set (e := window_end t 40000 s) in *.
  destruct (Z.geb_spec e (len t)) as [Hge|Hlt].
  - assert (Hin : len t <= s + 40000) by lia.
    specialize (Hnear Hin). eexists. split; [reflexivity|].
    apply strides_last; simpl; auto. now rewrite Hnear.
  - assert (Hin : s + 40000 < len t) by lia.
    specialize (Hfar Hin).
    destruct (IH (e - 2000) (i + 1)) as (cs & Hcs & Hok); try lia.
    rewrite Hcs. eexists. split; [reflexivity|].
    apply strides_next; simpl; auto; lia.
Qed.

Lemma strides_set_total (t : text) n : forall s i cs,
  strides t s i cs -> strides t s i (map (set_total n) cs).
Proof.
  intros s i cs H. induction H; simpl.
  - apply strides_last; auto.
  - apply strides_next; auto.
Qed.

(** What the default call returns on a long text. *)
Lemma large_text_strides (t : text) :
  10000 < estimate_tokens t ->
  exists cs,
    chunk_large_text_for_extraction t = Some cs /\
    strides t 0 0 cs /\
    Forall (fun c => total_chunks c = Some (len cs)) cs.
Proof.
  intros H. unfold chunk_large_text_for_extraction, chunk_large_text_with.
  destruct (Z.leb_spec (estimate_tokens t) 10000); [lia|].
  pose proof (estimate_tokens_floor t) as Hfl.
  change (10000 * 4) with 40000. change (500 * 4) with 2000.
  destruct (chunk_loop_strides t (S (length t)) 0 0) as (cs & Hcs & Hok).
  { lia. } { unfold len. lia. }
  rewrite Hcs. eexists. split; [reflexivity|]. split.
  - now apply strides_set_total.
  - apply Forall_forall. intros c Hc. apply in_map_iff in Hc.
    destruct Hc as (c0 & <- & _). simpl. unfold len. now rewrite length_map.
Qed.

Lemma strides_head (t : text) s i cs :
  strides t s i cs ->
  exists c rest, cs = c :: rest /\ start_char c = s /\ chunk_index c = i /\
                 s < end_char c <= len t /\
                 chunk_text c = slice t s (end_char c) /\
                 (rest = [] -> end_char c = len t).
Proof.
  intros H. destruct H as [s i c Hs He Hi Ht Hr Hl | s i c cs Hs Hi Ht Hw H0 He Hlt Hrest].
  - exists c, []. repeat split; auto; try lia. now rewrite He.
  - exists c, cs. repeat split; auto; try lia.
    intros ->. inversion Hrest.
Qed.

Lemma slice_skipn_firstn {A} (l : list A) a b :
  0 <= a <= b -> b <= len l ->
  slice l a b = firstn (Z.to_nat (b - a)) (skipn (Z.to_nat a) l).
Proof.
  intros Hab Hb. unfold slice.
  now rewrite !clamp_in_range by (pose proof (len_nonneg l); lia).
Qed.

Lemma slice_to_end {A} (l : list A) a :
  0 <= a <= len l -> slice l a (len l) = skipn (Z.to_nat a) l.
Proof.
  intros Ha. rewrite slice_skipn_firstn by lia.
  apply firstn_all2. unfold len in *. rewrite length_skipn. lia.
Qed.

Lemma slice_then_rest {A} (l : list A) a b :
  0 <= a <= b -> b <= len l ->
  slice l a b ++ skipn (Z.to_nat b) l = skipn (Z.to_nat a) l.
Proof.
  intros Hab Hb. rewrite slice_skipn_firstn by lia.
  rewrite <- (firstn_skipn (Z.to_nat (b - a)) (skipn (Z.to_nat a) l)) at 2.
  f_equal. rewrite skipn_skipn. f_equal. lia.
Qed.

Lemma skipn_app_long {A} n (l1 l2 : list A) :
  (n <= length l1)%nat -> skipn n (l1 ++ l2) = skipn n l1 ++ l2.
Proof.
  intros H. rewrite skipn_app.
  replace (n - length l1)%nat with 0%nat by lia. reflexivity.
Qed.

(** Read back from position [s]: the windows give the rest of the text. *)
Lemma strides_reassemble (t : text) : forall s i cs,
  strides t s i cs -> reassemble cs = skipn (Z.to_nat s) t.
Proof.
  intros s i cs H.
  induction H as [s i c Hs He Hi Ht Hr Hl | s i c cs Hs Hi Ht Hw H0 He Hlt Hrest IH].
  - unfold reassemble. cbn [map concat]. rewrite Ht, app_nil_r.
    apply slice_to_end. lia.
  - destruct (strides_head _ _ _ _ Hrest)
      as (c' & rest & -> & Hs' & _ & He' & Ht' & _).
    unfold reassemble in IH |- *. cbn [map concat].
    assert (Hlong : (2000 <= length (chunk_text c'))%nat).
    { assert (Hl : len (chunk_text c') = end_char c' - (end_char c - 2000)).
      { rewrite Ht'. apply slice_length; lia. }
      inversion Hrest; subst; unfold len in *; lia. }
    rewrite <- skipn_app_long by exact Hlong.
    rewrite IH, skipn_skipn.
    replace (2000 + Z.to_nat (end_char c - 2000))%nat
      with (Z.to_nat (end_char c)) by lia.
    rewrite Ht. apply slice_then_rest; lia.
Qed.

Lemma strides_index (t : text) : forall s i cs,
  strides t s i cs ->
  forall k c, nth_error cs k = Some c -> chunk_index c = i + Z.of_nat k.
Proof.
  intros s i cs H.
  induction H as [s i c Hs He Hi Ht Hr Hl | s i c cs Hs Hi Ht Hw H0 He Hlt Hrest IH];
    intros k d Hk.
  - destruct k as [|k]; simpl in Hk; [injection Hk as <-; lia|].
    destruct k; discriminate.
  - destruct k as [|k]; simpl in Hk; [injection Hk as <-; lia|].
    rewrite (IH k d Hk). lia.
Qed.

(** Content and length along the windows: the windows hold the text once
    plus 2,000 shared characters per cut, and every cut advances the start by
    at least 37,502 characters. *)
Lemma strides_content (t : text) : forall s i cs,
  strides t s i cs ->
  4 * total_content_tokens cs <= (len t - s) + 2000 * (len cs - 1) /\
  37502 * (len cs - 1) < len t - s.
Proof.
  intros s i cs H.
  induction H as [s i c Hs He Hi Ht Hr Hl | s i c cs Hs Hi Ht Hw H0 He Hlt Hrest IH].
  - pose proof (estimate_tokens_floor (chunk_text c)) as Hf.
    assert (Hlen : len (chunk_text c) = len t - s)
      by (rewrite Ht; apply slice_length; lia).
    change (total_content_tokens [c]) with (estimate_tokens (chunk_text c) + 0).
    change (len [c]) with 1. lia.
  - destruct IH as [IH1 IH2].
    pose proof (estimate_tokens_floor (chunk_text c)) as Hf.
    assert (Hlen : len (chunk_text c) = end_char c - s)
      by (rewrite Ht; apply slice_length; lia).
    change (total_content_tokens (c :: cs))
      with (estimate_tokens (chunk_text c) + total_content_tokens cs).
    assert (Hl : len (c :: cs) = len cs + 1)
      by (unfold len; simpl length; lia).
    rewrite Hl. lia.
Qed.

Lemma set_total_content n cs :
  total_content_tokens (map (set_total n) cs) = total_content_tokens cs.
Proof.
  induction cs as [|c cs IH]; [reflexivity|].
  simpl. unfold total_content_tokens in *. simpl. now rewrite IH.
Qed.

Lemma strides_each (t : text) : forall s i cs,
  strides t s i cs ->
  Forall (fun c => chunk_text c = slice t (start_char c) (end_char c) /\
                   0 <= start_char c < end_char c /\ end_char c <= len t /\
                   estimate_tokens (chunk_text c) <= 10000) cs.
Proof.
  assert (Htok : forall c, chunk_text c = slice t (start_char c) (end_char c) ->
            0 <= start_char c < end_char c -> end_char c <= len t ->
            end_char c - start_char c <= 40000 ->
            estimate_tokens (chunk_text c) <= 10000).
  { intros c Ht H1 H2 H3. unfold estimate_tokens.
    rewrite Ht, slice_length by lia. apply Z.div_le_upper_bound; lia. }
  intros s i cs H.
  induction H as [s i c Hs He Hi Ht Hr Hl | s i c cs Hs Hi Ht Hw H0 He Hlt Hrest IH].
  - constructor; [|constructor]. subst s. rewrite He.
    repeat split; auto; try lia. apply Htok; rewrite ?He; auto; lia.
  - constructor; [|exact IH]. subst s.
    repeat split; auto; try lia. apply Htok; auto; lia.
Qed.

Lemma strides_pairs (t : text) : forall s i cs,
  strides t s i cs ->
  forall pre c1 c2 post, cs = pre ++ c1 :: c2 :: post ->
  start_char c2 = end_char c1 - 2000 /\
  start_char c1 + 37502 <= start_char c2 /\
  end_char c1 < end_char c2.
Proof.
  intros s i cs H.
  induction H as [s i c Hs He Hi Ht Hr Hl | s i c cs Hs Hi Ht Hw H0 He Hlt Hrest IH];
    intros pre c1 c2 post Heq.
  - destruct pre as [|? [|? ?]]; discriminate.
  - destruct pre as [|p pre]; simpl in Heq.
    + injection Heq as -> ->. clear IH.
      inversion Hrest; subst; lia.
    + injection Heq as -> ->. eapply IH. reflexivity.
Qed.

Lemma strides_last_end (t : text) : forall s i cs,
  strides t s i cs -> exists pre c, cs = pre ++ [c] /\ end_char c = len t.
Proof.
  intros s i cs H.
  induction H as [s i c Hs He Hi Ht Hr Hl | s i c cs Hs Hi Ht Hw H0 He Hlt Hrest IH].
  - now exists [], c.
  - destruct IH as (pre & d & -> & Hd). now exists (c :: pre), d.
Qed.

(** A window that is cut before the end of the text is cut by the
    look-back. *)
Lemma strides_cut (t : text) : forall s i cs,
  strides t s i cs ->
  Forall (fun c => end_char c < len t ->
                   0 <= start_char c /\ start_char c + 40000 < len t /\
                   end_char c = window_end t 40000 (start_char c)) cs.
Proof.
  intros s i cs H.
  induction H as [s i c Hs He Hi Ht Hr Hl | s i c cs Hs Hi Ht Hw H0 He Hlt Hrest IH].
  - constructor; [|constructor]. intros Hc. lia.
  - constructor; [|exact IH]. intros _.
    pose proof (window_end_bounds t s ltac:(lia)) as [_ Hnear].
    simpl in Hnear. rewrite <- Hw in Hnear.
    subst s. repeat split; auto; lia.
Qed.

(** Windows of a long text: where they start and end, what they hold, and
    how far each is from the one before. *)
Theorem default_windows_layout (t : text) :
  10000 < estimate_tokens t ->
  exists cs,
    chunk_large_text_for_extraction t = Some cs /\
    (exists c rest, cs = c :: rest /\ start_char c = 0) /\
    (exists pre c, cs = pre ++ [c] /\ end_char c = len t) /\
    Forall (fun c => chunk_text c = slice t (start_char c) (end_char c) /\
                     0 <= start_char c < end_char c /\ end_char c <= len t /\
                     estimate_tokens (chunk_text c) <= 10000) cs /\
    (forall pre c1 c2 post, cs = pre ++ c1 :: c2 :: post ->
       start_char c2 = end_char c1 - 2000 /\
       start_char c1 + 37502 <= start_char c2 /\
       end_char c1 < end_char c2).
Proof.
  intros H. destruct (large_text_strides t H) as (cs & Hcs & Hok & _).
  exists cs. split; [exact Hcs|]. split; [|split; [|split]].
  - destruct (strides_head _ _ _ _ Hok) as (c & rest & -> & Hs & _). eauto.
  - apply (strides_last_end t 0 0 cs Hok).
  - apply (strides_each t 0 0 cs Hok).
  - apply (strides_pairs t 0 0 cs Hok).
Qed.

Lemma default_windows_layout_witness :
  10000 < estimate_tokens near_stop_document /\
  exists cs,
    chunk_large_text_for_extraction near_stop_document = Some cs /\
    (exists c rest, cs = c :: rest /\ start_char c = 0) /\
    (exists pre c, cs = pre ++ [c] /\ end_char c = len near_stop_document) /\
    Forall (fun c => chunk_text c
                     = slice near_stop_document (start_char c) (end_char c) /\
                     0 <= start_char c < end_char c /\
                     end_char c <= len near_stop_document /\
                     estimate_tokens (chunk_text c) <= 10000) cs /\
    (forall pre c1 c2 post, cs = pre ++ c1 :: c2 :: post ->
       start_char c2 = end_char c1 - 2000 /\
       start_char c1 + 37502 <= start_char c2 /\
       end_char c1 < end_char c2).
Proof.
  split; [vm_compute; reflexivity|].
  apply (default_windows_layout near_stop_document).
  vm_compute; reflexivity.
Defined.

(** Read back: for every text, the first window followed by the later
    windows without their first 2,000 characters is the text again. *)
Theorem windows_reassemble (t : text) :
  exists cs,
    chunk_large_text_for_extraction t = Some cs /\ reassemble cs = t.
Proof.
  destruct (Z.leb_spec (estimate_tokens t) 10000) as [Hs|Hl].
  - rewrite (small_text_single_window t Hs). eexists. split; [reflexivity|].
    unfold reassemble. cbn [map concat chunk_text]. apply app_nil_r.
  - destruct (large_text_strides t Hl) as (cs & Hcs & Hok & _).
    exists cs. split; [exact Hcs|].
    now rewrite (strides_reassemble _ _ _ _ Hok).
Qed.

(** Numbering: for every text the call returns at least one window, window
    [k] has [chunk_index = k], and every window knows the total. *)
Theorem windows_numbered (t : text) :
  exists cs,
    chunk_large_text_for_extraction t = Some cs /\ cs <> [] /\
    forall k c, nth_error cs k = Some c ->
                chunk_index c = Z.of_nat k /\ total_chunks c = Some (len cs).
Proof.
  destruct (Z.leb_spec (estimate_tokens t) 10000) as [Hs|Hl].
  - rewrite (small_text_single_window t Hs). eexists. split; [reflexivity|].
    split; [discriminate|]. intros k c Hk.
    destruct k as [|[|k]]; simpl in Hk; try discriminate.
    injection Hk as <-. split; reflexivity.
  - destruct (large_text_strides t Hl) as (cs & Hcs & Hok & Htot).
    exists cs. split; [exact Hcs|]. split.
    + destruct (strides_head _ _ _ _ Hok) as (c & rest & -> & _). discriminate.
    + intros k c Hk. split.
      * rewrite (strides_index _ _ _ _ Hok k c Hk). lia.
      * rewrite Forall_forall in Htot. apply Htot.
        now apply nth_error_In with k.
Qed.

(** Up to 77,502 characters a long text gives exactly two windows: the
    second starts 2,000 characters before the first cut and ends with the
    text. *)
Theorem two_windows_up_to_77502 (t : text) :
  10000 < estimate_tokens t -> len t <= 77502 ->
  exists c1 c2,
    chunk_large_text_for_extraction t = Some [c1; c2] /\
    start_char c1 = 0 /\
    39502 <= end_char c1 <= 40000 /\
    start_char c2 = end_char c1 - 2000 /\
    end_char c2 = len t.
Proof.
  intros H Hlen.
  destruct (two_windows t H Hlen) as (c1 & c2 & Hres).
  destruct (large_text_strides t H) as (cs & Hcs & Hok & _).
  rewrite Hres in Hcs. injection Hcs as <-.
  exists c1, c2. split; [exact Hres|].
  inversion Hok as [|s i c cs' Hs Hi Ht Hw H0 He Hlt Hrest]; subst.
  inversion Hrest as [s i c Hs2 He2 Hi2 Ht2 Hr Hl
                     | s i c cs'' Hs2 Hi2 Ht2 Hw2 H02 He2 Hlt2 Hnone]; subst.
  - repeat split; auto; lia.
  - inversion Hnone.
Qed.

Lemma two_windows_up_to_77502_witness :
  10000 < estimate_tokens near_stop_document /\
  len near_stop_document <= 77502 /\
  exists c1 c2,
    chunk_large_text_for_extraction near_stop_document = Some [c1; c2] /\
    start_char c1 = 0 /\
    39502 <= end_char c1 <= 40000 /\
    start_char c2 = end_char c1 - 2000 /\
    end_char c2 = len near_stop_document.
Proof.
  split; [vm_compute; reflexivity|].
  split; [vm_compute; discriminate|].
  apply (two_windows_up_to_77502 near_stop_document).
  - vm_compute; reflexivity.
  - vm_compute; discriminate.
Defined.

(** A window cut before the end of the text is cut right behind the last
    sentence punctuation of the 499 characters before its target: every
    such punctuation mark lies inside the window, and the window ends with
    one. *)
Theorem interior_cut_follows_last_sentence_end
        (t : text) (cs : list chunk) (c : chunk) (j : Z) (ch : ascii) :
  chunk_large_text_for_extraction t = Some cs -> In c cs ->
  end_char c < len t ->
  start_char c + 39500 < j < start_char c + 40000 ->
  nth_error t (Z.to_nat j) = Some ch -> is_sentence_end ch = true ->
  j < end_char c /\
  exists ch', nth_error t (Z.to_nat (end_char c - 1)) = Some ch' /\
              is_sentence_end ch' = true.
Proof.
  intros Hres Hin Hcut Hj Hch Hend.
  destruct (Z.leb_spec (estimate_tokens t) 10000) as [Hs|Hl].
  - rewrite (small_text_single_window t Hs) in Hres. injection Hres as <-.
    destruct Hin as [<-|[]]. simpl in Hcut. lia.
  - destruct (large_text_strides t Hl) as (cs' & Hcs & Hok & _).
    rewrite Hres in Hcs. injection Hcs as <-.
    pose proof (strides_cut t 0 0 cs Hok) as Hall.
    rewrite Forall_forall in Hall.
    destruct (Hall c Hin Hcut) as (H0 & Hfar & ->).
    apply (window_end_sentence_boundary t (start_char c) j ch); auto; lia.
Qed.

Lemma interior_cut_follows_last_sentence_end_witness :
  exists cs c,
    chunk_large_text_for_extraction near_stop_document = Some cs /\
    In c cs /\
    end_char c < len near_stop_document /\
    start_char c + 39500 < 39800 < start_char c + 40000 /\
    nth_error near_stop_document (Z.to_nat 39800) = Some "."%char /\
    is_sentence_end "." = true /\
    39800 < end_char c /\
    exists ch', nth_error near_stop_document (Z.to_nat (end_char c - 1)) = Some ch' /\
                is_sentence_end ch' = true.
Proof.
  assert (Hspans :
            option_map (map (fun c => (start_char c, end_char c)))
                       (chunk_large_text_for_extraction near_stop_document)
            = Some [(0, 39801); (37801, 50000)]) by (vm_compute; reflexivity).
  destruct (chunk_large_text_for_extraction near_stop_document) as [cs|] eqn:Hres;
    [|discriminate Hspans].
  destruct cs as [|c1 [|c2 [|c3 cs]]]; try discriminate Hspans.
  injection Hspans as Hs1 He1 Hs2 He2.
  assert (Hin : In c1 [c1; c2]) by (left; reflexivity).
  assert (Hcut : end_char c1 < len near_stop_document)
    by (rewrite He1; vm_compute; reflexivity).
  assert (Hj : start_char c1 + 39500 < 39800 < start_char c1 + 40000)
    by (rewrite Hs1; lia).
  assert (Hch : nth_error near_stop_document (Z.to_nat 39800) = Some "."%char)
    by (vm_compute; reflexivity).
  assert (Hend : is_sentence_end "." = true) by reflexivity.
  exists [c1; c2], c1.
  split; [reflexivity|].
  repeat (split; [assumption|]).
  apply (interior_cut_follows_last_sentence_end near_stop_document [c1; c2] c1
           39800 "."%char Hres Hin Hcut Hj Hch Hend).
Defined.

(** The prompt overhead that [test_frankenstein_chunking] computes stays
    within a tenth of the single-call total, for every text. *)
Theorem heuristic_overhead_within_tenth (t : text) :
  exists cs,
    chunk_large_text_for_extraction t = Some cs /\
    10 * heuristic_overhead t cs <= original_with_heuristics t.
Proof.
  pose proof (estimate_tokens_floor t) as Hfl.
  pose proof (len_nonneg t) as Hpos.
  unfold heuristic_overhead, original_with_heuristics.
  destruct (Z.leb_spec (estimate_tokens t) 10000) as [Hs|Hl].
  - rewrite (small_text_single_window t Hs). eexists. split; [reflexivity|].
    change (total_content_tokens [mkChunk t 0 (len t) 0 (Some 1)])
      with (estimate_tokens t + 0).
    change (len [mkChunk t 0 (len t) 0 (Some 1)]) with 1. cbv zeta. lia.
  - unfold chunk_large_text_for_extraction, chunk_large_text_with.
    destruct (Z.leb_spec (estimate_tokens t) 10000); [lia|].
    change (10000 * 4) with 40000. change (500 * 4) with 2000.
    destruct (chunk_loop_strides t (S (length t)) 0 0) as (cs & Hcs & Hok).
    { lia. } { unfold len. lia. }
    rewrite Hcs. eexists. split; [reflexivity|].
    rewrite set_total_content.
    destruct (strides_content t 0 0 cs Hok) as [H1 H2].
    assert (Hn : len (map (set_total (len cs)) cs) = len cs)
      by (unfold len; now rewrite length_map).
    rewrite Hn. cbv zeta.
    assert (Hk : 0 <= len cs - 1).
    { destruct (strides_head _ _ _ _ Hok) as (c & rest & -> & _).
      unfold len. simpl length. lia. }
    lia.
Qed.

End ChunkingLayout.

(** ** Dossier fact embeddings: saves, deletes and queries together *)

Module DossierQueriesFacts.
Import Float DossierStorage DossierQueries SpecWords DossierFacts.

Lemma find_filter_out {A} (f g : A -> bool) (l : list A) :
  (forall x, f x = true -> g x = true) ->
  find f (filter g l) = find f l.
Proof.
  intros H. induction l as [|x l IH]; simpl; [reflexivity|].
  destruct (f x) eqn:Ef.
  - rewrite (H x Ef). simpl. now rewrite Ef.
  - destruct (g x); simpl; [rewrite Ef|]; exact IH.
Qed.

Lemma find_app_none {A} (f : A -> bool) (l l' : list A) :
  find f l = None -> find f (l ++ l') = find f l'.
Proof.
  induction l as [|x l IH]; simpl; [reflexivity|].
  destruct (f x); [discriminate|exact IH].
Qed.

Lemma find_app_some {A} (f : A -> bool) (l l' : list A) x :
  find f l = Some x -> find f (l ++ l') = Some x.
Proof.
  induction l as [|y l IH]; simpl; [discriminate|].
  destruct (f y); [auto|exact IH].
Qed.

Lemma find_filtered_away {A} (f : A -> bool) (l : list A) :
  find f (filter (fun x => negb (f x)) l) = None.
Proof.
  induction l as [|x l IH]; simpl; [reflexivity|].
  destruct (f x) eqn:E; simpl; [|rewrite E]; exact IH.
Qed.

Lemma has_fact_other fid fid' r :
  fid' <> fid -> has_fact fid' r = true -> negb (has_fact fid r) = true.
Proof.
  unfold has_fact. intros Hne H. apply String.eqb_eq in H.
  destruct (String.eqb_spec (fact_id r) fid); [congruence|reflexivity].
Qed.

(** Save then look up: after a save that went through, the fact id leads to
    the dossier just given, and every other fact id leads to what it led to
    before. *)
Theorem save_then_lookup (encode : string -> option blob)
        (now fid did txt : string) (e : blob) (t : table) :
  encode txt = Some e ->
  let r := save_fact_embedding encode SqlOk now fid did txt t in
  fst r = true /\
  get_dossier_by_fact_id SqlOk fid (snd r) = Some did /\
  forall fid', fid' <> fid ->
    get_dossier_by_fact_id SqlOk fid' (snd r) = get_dossier_by_fact_id SqlOk fid' t.
Proof.
  intros He. unfold save_fact_embedding. rewrite He. simpl.
  split; [reflexivity|]. unfold insert_or_replace. simpl fact_id. split.
  - rewrite find_app_none by apply find_filtered_away.
    simpl. unfold has_fact. simpl. now rewrite String.eqb_refl.
  - intros fid' Hne.
    destruct (find (has_fact fid') t) as [x|] eqn:Ef.
    + erewrite find_app_some; [reflexivity|].
      rewrite find_filter_out; [exact Ef|].
      intros y Hy. now apply has_fact_other with fid'.
    + rewrite find_app_none.
      * simpl. unfold has_fact at 1. simpl.
        destruct (String.eqb_spec fid fid'); [congruence|reflexivity].
      * rewrite find_filter_out; [exact Ef|].
        intros y Hy. now apply has_fact_other with fid'.
Qed.

Lemma save_then_lookup_witness :
  toy_encode "abcde" = Some [5] /\
  let r := save_fact_embedding toy_encode SqlOk "t4" "fact_001" "dos_tech" "abcde"
             (run_ops toy_encode three_saves) in
  fst r = true /\
  get_dossier_by_fact_id SqlOk "fact_001" (snd r) = Some "dos_tech"%string /\
  forall fid', fid' <> "fact_001"%string ->
    get_dossier_by_fact_id SqlOk fid' (snd r)
    = get_dossier_by_fact_id SqlOk fid' (run_ops toy_encode three_saves).
Proof.
  split; [reflexivity|].
  apply (save_then_lookup toy_encode "t4" "fact_001" "dos_tech" "abcde" [5]
           (run_ops toy_encode three_saves)).
  reflexivity.
Defined.

Lemma filter_filter_comm {A} (f g : A -> bool) (l : list A) :
  filter f (filter g l) = filter g (filter f l).
Proof.
  induction l as [|x l IH]; simpl; [reflexivity|].
  destruct (f x) eqn:Ef, (g x) eqn:Eg; simpl; rewrite ?Ef, ?Eg, IH; reflexivity.
Qed.

Lemma filter_keeps_all {A} (f g : A -> bool) (l : list A) :
  (forall x, f x = true -> g x = true) ->
  filter f (filter g l) = filter f l.
Proof.
  intros H. induction l as [|x l IH]; simpl; [reflexivity|].
  destruct (f x) eqn:Ef.
  - rewrite (H x Ef). simpl. now rewrite Ef, IH.
  - destruct (g x); simpl; [rewrite Ef|]; exact IH.
Qed.

(** Delete then ask: after a delete that went through, the dossier counts no
    fact, no fact id leads to it, and the other dossiers keep their counts
    and their facts. *)
Theorem delete_then_queries (did : string) (t : table) :
  did <> ""%string ->
  let r := delete_dossier_embeddings SqlOk did t in
  fst r = true /\
  get_fact_count SqlOk (Some did) (snd r) = 0 /\
  (forall fid, get_dossier_by_fact_id SqlOk fid (snd r) <> Some did) /\
  (forall d', d' <> did -> d' <> ""%string ->
     get_fact_count SqlOk (Some d') (snd r) = get_fact_count SqlOk (Some d') t) /\
  (forall fid d', get_dossier_by_fact_id SqlOk fid t = Some d' -> d' <> did ->
     get_dossier_by_fact_id SqlOk fid (snd r) = Some d').
Proof.
  intros Hne. simpl. split; [reflexivity|]. unfold delete_where_dossier.
  split; [|split; [|split]].
  - destruct (String.eqb_spec did ""); [contradiction|]. simpl.
    now rewrite filter_out_then_in.
  - intros fid.
    destruct (find (has_fact fid) (filter (fun x => negb (in_dossier did x)) t))
      as [x|] eqn:Ef; [|discriminate].
    apply find_some in Ef. destruct Ef as [Hin _].
    apply filter_In in Hin. destruct Hin as [_ Hd].
    unfold in_dossier in Hd. intros Heq. injection Heq as Heq.
    rewrite Heq, String.eqb_refl in Hd. discriminate.
  - intros d' Hd' He'.
    destruct (String.eqb_spec d' ""); [contradiction|]. simpl.
    rewrite filter_keeps_all; [reflexivity|].
    intros x Hx. unfold in_dossier in *. apply String.eqb_eq in Hx.
    destruct (String.eqb_spec (dossier_id x) did); [congruence|reflexivity].
  - intros fid d' Hf Hd'.
    destruct (find (has_fact fid) t) as [x|] eqn:Ef; [|discriminate].
    injection Hf as Hf.
    assert (Hkeep : negb (in_dossier did x) = true).
    { unfold in_dossier. rewrite Hf.
      destruct (String.eqb_spec d' did); [contradiction|reflexivity]. }
    assert (Hfind : find (has_fact fid) (filter (fun x => negb (in_dossier did x)) t)
                    = Some x).
    { clear Hf. revert Ef. induction t as [|y t IH]; simpl; [discriminate|].
      destruct (has_fact fid y) eqn:Ey.
      - intros Hy. injection Hy as ->. rewrite Hkeep. simpl. now rewrite Ey.
      - intros Hy. destruct (negb (in_dossier did y)); simpl; [rewrite Ey|]; auto. }
    now rewrite Hfind, Hf.
Qed.

Lemma delete_then_queries_witness :
  "dos_diet"%string <> ""%string /\
  let t := run_ops toy_encode three_saves in
  let r := delete_dossier_embeddings SqlOk "dos_diet" t in
  fst r = true /\
  get_fact_count SqlOk (Some "dos_diet"%string) (snd r) = 0 /\
  (forall fid, get_dossier_by_fact_id SqlOk fid (snd r) <> Some "dos_diet"%string) /\
  (forall d', d' <> "dos_diet"%string -> d' <> ""%string ->
     get_fact_count SqlOk (Some d') (snd r) = get_fact_count SqlOk (Some d') t) /\
  (forall fid d', get_dossier_by_fact_id SqlOk fid t = Some d' ->
     d' <> "dos_diet"%string ->
     get_dossier_by_fact_id SqlOk fid (snd r) = Some d').
Proof.
  split; [discriminate|].
  apply (delete_then_queries "dos_diet" (run_ops toy_encode three_saves)).
  discriminate.
Defined.

Lemma two_dossiers_length d1 d2 (t : table) :
  d1 <> d2 ->
  (length (filter (in_dossier d1) t) + length (filter (in_dossier d2) t)
   <= length t)%nat.
Proof.
  intros Hne. induction t as [|x t IH]; cbn [filter length]; [lia|].
  destruct (in_dossier d1 x) eqn:E1, (in_dossier d2 x) eqn:E2;
    cbn [length]; try lia.
  unfold in_dossier in E1, E2. apply String.eqb_eq in E1, E2. congruence.
Qed.

(** The empty string is no dossier filter: [get_fact_count("")] counts the
    whole table, as [get_fact_count()] does; two named dossiers together
    never count more facts than that. *)
Theorem fact_count_empty_id_counts_all (db : sqlite_outcome) (d1 d2 : string)
        (t : table) :
  d1 <> d2 -> d1 <> ""%string -> d2 <> ""%string ->
  get_fact_count db (Some ""%string) t = get_fact_count db None t /\
  0 <= get_fact_count db (Some d1) t /\
  get_fact_count db (Some d1) t + get_fact_count db (Some d2) t
  <= get_fact_count db None t.
Proof.
  intros Hne H1 H2. destruct db; simpl; [|repeat split; lia].
  destruct (String.eqb_spec d1 ""); [contradiction|].
  destruct (String.eqb_spec d2 ""); [contradiction|]. cbn [negb].
  pose proof (two_dossiers_length d1 d2 t Hne). unfold Py.len.
  repeat split; lia.
Qed.

Lemma fact_count_empty_id_counts_all_witness :
  "dos_diet"%string <> "dos_tech"%string /\
  "dos_diet"%string <> ""%string /\ "dos_tech"%string <> ""%string /\
  let t := run_ops toy_encode three_saves in
  get_fact_count SqlOk (Some ""%string) t = get_fact_count SqlOk None t /\
  0 <= get_fact_count SqlOk (Some "dos_diet"%string) t /\
  get_fact_count SqlOk (Some "dos_diet"%string) t
  + get_fact_count SqlOk (Some "dos_tech"%string) t
  <= get_fact_count SqlOk None t.
Proof.
  split; [discriminate|]. split; [discriminate|]. split; [discriminate|].
  apply (fact_count_empty_id_counts_all SqlOk "dos_diet" "dos_tech"
           (run_ops toy_encode three_saves)); discriminate.
Defined.

(** *** Counts under saves *)

Lemma unique_key_found (t : table) (r : row) :
  NoDup (map fact_id t) -> In r t -> find (has_fact (fact_id r)) t = Some r.
Proof.
  induction t as [|x t IH]; simpl; intros Hnd Hin; [contradiction|].
  inversion Hnd as [|? ? Hnotin Hrest]; subst.
  destruct Hin as [->|Hin].
  - unfold has_fact. now rewrite String.eqb_refl.
  - destruct (has_fact (fact_id r) x) eqn:E; [|now apply IH].
    exfalso. apply Hnotin. unfold has_fact in E. apply String.eqb_eq in E.
    rewrite E. now apply in_map.
Qed.

Lemma no_key_all_kept (fid : string) (t : table) :
  ~ In fid (map fact_id t) ->
  filter (fun x => negb (has_fact fid x)) t = t.
Proof.
  induction t as [|x t IH]; simpl; intros H; [reflexivity|].
  unfold has_fact at 1.
  destruct (String.eqb_spec (fact_id x) fid) as [E|E]; [exfalso; auto|].
  simpl. rewrite IH; auto.
Qed.

(** Taking the row of a fact id out takes one fact from the dossier that
    held it, and none from the others. *)
Lemma count_without_fact (fid d : string) (t : table) :
  NoDup (map fact_id t) ->
  Py.len (filter (in_dossier d) (filter (fun x => negb (has_fact fid x)) t))
  = Py.len (filter (in_dossier d) t)
    - match find (has_fact fid) t with
      | Some x => if in_dossier d x then 1 else 0
      | None => 0
      end.
Proof.
  unfold Py.len. induction t as [|x t IH]; intros Hnd; [reflexivity|].
  inversion Hnd as [|? ? Hnotin Hrest]; subst. specialize (IH Hrest).
  cbn [filter find].
  destruct (has_fact fid x) eqn:Ex; cbn [negb].
  - unfold has_fact in Ex. apply String.eqb_eq in Ex. subst fid.
    rewrite (no_key_all_kept _ _ Hnotin).
    destruct (in_dossier d x); cbn [length]; lia.
  - cbn [filter]. destruct (in_dossier d x); cbn [length]; lia.
Qed.

(** A save moves a fact: over the tables reached by saves and deletes, a
    save that goes through adds one row unless the fact id was stored, adds
    one fact to its dossier unless the fact was already there, and takes the
    fact from the dossier that held it before. *)
Theorem save_moves_fact_between_counts (encode : string -> option blob)
        (ops : list op) (now fid did txt : string) (e : blob) :
  encode txt = Some e -> did <> ""%string ->
  let t := run_ops encode ops in
  let t' := snd (save_fact_embedding encode SqlOk now fid did txt t) in
  get_fact_count SqlOk None t'
  = get_fact_count SqlOk None t
    + match get_dossier_by_fact_id SqlOk fid t with Some _ => 0 | None => 1 end /\
  get_fact_count SqlOk (Some did) t'
  = get_fact_count SqlOk (Some did) t
    + match get_dossier_by_fact_id SqlOk fid t with
      | Some d0 => if String.eqb d0 did then 0 else 1
      | None => 1
      end /\
  forall d', d' <> did -> d' <> ""%string ->
    get_fact_count SqlOk (Some d') t'
    = get_fact_count SqlOk (Some d') t
      - match get_dossier_by_fact_id SqlOk fid t with
        | Some d0 => if String.eqb d0 d' then 1 else 0
        | None => 0
        end.
Proof.
  intros He Hdid t t'. subst t'. unfold save_fact_embedding. rewrite He.
  cbn [snd]. pose proof (run_ops_nodup encode ops) as Hnd. fold t in Hnd.
  unfold get_fact_count, get_dossier_by_fact_id.
  assert (Hfind : forall d,
            match find (has_fact fid) t with
            | Some x => if in_dossier d x then 1 else 0
            | None => 0
            end
            = match match find (has_fact fid) t with
                    | Some result => Some (dossier_id result)
                    | None => None
                    end with
              | Some d0 => if String.eqb d0 d then 1 else 0
              | None => 0
              end).
  { intros d. now destruct (find (has_fact fid) t). }
  split; [|split].
  - pose proof (insert_or_replace_length (mkRow fid did e now) t Hnd) as Hl.
    cbn [fact_id] in Hl. unfold Py.len. rewrite Hl.
    destruct (find (has_fact fid) t) as [x|] eqn:Ef.
    + apply find_some in Ef.
      assert (Hex : existsb (has_fact fid) t = true)
        by (apply existsb_exists; eauto).
      rewrite Hex. lia.
    + assert (Hex : existsb (has_fact fid) t = false).
      { destruct (existsb (has_fact fid) t) eqn:Hex; [|reflexivity].
        apply existsb_exists in Hex. destruct Hex as (y & Hy & Ey).
        pose proof (find_none _ _ Ef y Hy). congruence. }
      rewrite Hex. lia.
  - destruct (String.eqb_spec did ""); [contradiction|]. cbn [negb].
    unfold insert_or_replace. cbn [fact_id].
    rewrite filter_app. unfold Py.len at 1. rewrite length_app.
    rewrite Nat2Z.inj_add. fold (Py.len (filter (in_dossier did)
      (filter (fun x => negb (has_fact fid x)) t))).
    rewrite (count_without_fact fid did t Hnd), Hfind.
    cbn [filter]. unfold in_dossier at 2. cbn [dossier_id].
    rewrite String.eqb_refl. cbn [length].
    destruct (find (has_fact fid) t) as [x|];
      [destruct (String.eqb (dossier_id x) did)|]; lia.
  - intros d' Hd' He'.
    destruct (String.eqb_spec d' ""); [contradiction|]. cbn [negb].
    unfold insert_or_replace. cbn [fact_id].
    rewrite filter_app. unfold Py.len at 1. rewrite length_app.
    rewrite Nat2Z.inj_add. fold (Py.len (filter (in_dossier d')
      (filter (fun x => negb (has_fact fid x)) t))).
    rewrite (count_without_fact fid d' t Hnd), Hfind.
    cbn [filter]. unfold in_dossier at 2. cbn [dossier_id].
    destruct (String.eqb_spec did d'); [congruence|]. cbn [length]. lia.
Qed.

Lemma save_moves_fact_between_counts_witness :
  toy_encode "abcde" = Some [5] /\ "dos_tech"%string <> ""%string /\
  let t := run_ops toy_encode three_saves in
  let t' := snd (save_fact_embedding toy_encode SqlOk "t4" "fact_001" "dos_tech"
                   "abcde" t) in
  get_fact_count SqlOk None t'
  = get_fact_count SqlOk None t
    + match get_dossier_by_fact_id SqlOk "fact_001" t with
      | Some _ => 0 | None => 1 end /\
  get_fact_count SqlOk (Some "dos_tech"%string) t'
  = get_fact_count SqlOk (Some "dos_tech"%string) t
    + match get_dossier_by_fact_id SqlOk "fact_001" t with
      | Some d0 => if String.eqb d0 "dos_tech" then 0 else 1
      | None => 1
      end /\
  forall d', d' <> "dos_tech"%string -> d' <> ""%string ->
    get_fact_count SqlOk (Some d') t'
    = get_fact_count SqlOk (Some d') t
      - match get_dossier_by_fact_id SqlOk "fact_001" t with
        | Some d0 => if String.eqb d0 d' then 1 else 0
        | None => 0
        end.
Proof.
  split; [reflexivity|]. split; [discriminate|].
  apply (save_moves_fact_between_counts toy_encode three_saves "t4" "fact_001"
           "dos_tech" "abcde" [5]); [reflexivity|discriminate].
Defined.

(** *** Search and the table *)

Lemma insert_desc_perm h l : Permutation (insert_desc h l) (h :: l).
Proof.
  induction l as [|y l IH]; simpl; [reflexivity|].
  destruct (lt (score h) (score y)); [|reflexivity].
  rewrite IH. apply perm_swap.
Qed.

Lemma sort_desc_perm l : Permutation (sort_desc l) l.
Proof.
  induction l as [|h l IH]; simpl; [reflexivity|].
  rewrite insert_desc_perm. now constructor.
Qed.

Lemma firstn_In {A} n (l : list A) x : In x (firstn n l) -> In x l.
Proof.
  intros H. rewrite <- (firstn_skipn n l). apply in_or_app. now left.
Qed.

Lemma firstn_NoDup {A} n (l : list A) : NoDup l -> NoDup (firstn n l).
Proof.
  intros H. rewrite <- (firstn_skipn n l) in H.
  now apply NoDup_app_remove_r in H.
Qed.

Lemma kept_hits_distinct (keep : hit -> bool) (hs : list hit) :
  NoDup (map hit_fact hs) -> NoDup (map hit_fact (filter keep hs)).
Proof.
  intros Hnd. induction hs as [|h hs IH]; [exact Hnd|].
  cbn [map] in Hnd. apply NoDup_cons_iff in Hnd. destruct Hnd as [Hfresh Hnd].
  cbn [filter]. destruct (keep h); [|exact (IH Hnd)].
  cbn [map]. apply NoDup_cons; [|exact (IH Hnd)].
  intros Hin. apply Hfresh.
  apply in_map_iff in Hin. destruct Hin as (y & Hy & Hin).
  apply filter_In in Hin. rewrite <- Hy. apply in_map. exact (proj1 Hin).
Qed.

Section Hits.
Variable encode : string -> option blob.
Variable cosine : blob -> blob -> option pyfloat.

Lemma table_hits_row q (t : table) h :
  In h (table_hits cosine q t) ->
  exists r, In r t /\ fact_id r = hit_fact h /\ dossier_id r = hit_dossier h.
Proof.
  unfold table_hits. intros H. apply in_flat_map in H.
  destruct H as (r & Hr & Hin). exists r. split; [exact Hr|].
  destruct (cosine q (embedding r)); [|contradiction].
  destruct Hin as [<-|[]]. split; reflexivity.
Qed.

Lemma table_hits_keys q (t : table) :
  NoDup (map fact_id t) -> NoDup (map hit_fact (table_hits cosine q t)).
Proof.
  induction t as [|r t IH]; simpl; intros H; [constructor|].
  inversion H as [|? ? Hnotin Hrest]; subst.
  destruct (cosine q (embedding r)); simpl; [|now apply IH].
  constructor; [|now apply IH].
  intros Hin. apply Hnotin. apply in_map_iff in Hin.
  destruct Hin as (h & Hh & Hin).
  destruct (table_hits_row _ _ _ Hin) as (r' & Hr' & Hf & _).
  change (hit_fact (fact_id r, dossier_id r, p)) with (fact_id r) in Hh.
  rewrite <- Hh, <- Hf. now apply in_map.
Qed.

(** Every hit comes from the scan of the table. *)
Lemma search_hits_from_table db query top_k threshold (t : table) h :
  In h (search_similar_facts encode cosine db query top_k threshold t) ->
  exists q, encode query = Some q /\
            In h (table_hits cosine q t) /\ ge (score h) threshold = true.
Proof.
  unfold search_similar_facts.
  destruct (encode query) as [q|]; [|contradiction].
  destruct db; [|contradiction].
  destruct (scan cosine q threshold t) as [results|] eqn:Hscan; [|contradiction].
  apply scan_passing in Hscan. rewrite PyFacts.take_firstn. intros Hin.
  apply firstn_In in Hin.
  apply (Permutation_in _ (sort_desc_perm results)) in Hin.
  subst results. apply filter_In in Hin. exists q. tauto.
Qed.

End Hits.

(** Search and look-up agree: over the tables reached by saves and deletes,
    no fact is returned twice, and every hit names the dossier that
    [get_dossier_by_fact_id] gives for its fact. *)
Theorem search_hits_are_stored_facts
        (encode : string -> option blob)
        (cosine : blob -> blob -> option pyfloat)
        (ops : list op) (db : sqlite_outcome) (query : string) (top_k : Z)
        (threshold : pyfloat) :
  let t := run_ops encode ops in
  let res := search_similar_facts encode cosine db query top_k threshold t in
  NoDup (map hit_fact res) /\
  Forall (fun h => get_dossier_by_fact_id SqlOk (hit_fact h) t
                   = Some (hit_dossier h)) res.
Proof.
  intros t res. pose proof (run_ops_nodup encode ops) as Hnd. fold t in Hnd.
  split.
  - subst res. unfold search_similar_facts.
    destruct (encode query) as [q|]; [|constructor].
    destruct db; [|constructor].
    destruct (scan cosine q threshold t) as [results|] eqn:Hscan; [|constructor].
    apply scan_passing in Hscan. rewrite PyFacts.take_firstn.
    rewrite <- firstn_map. apply firstn_NoDup.
    apply (Permutation_NoDup
             (Permutation_sym (Permutation_map hit_fact (sort_desc_perm results)))).
    subst results. apply kept_hits_distinct. now apply table_hits_keys.
  - apply Forall_forall. intros h Hh.
    destruct (search_hits_from_table _ _ _ _ _ _ _ _ Hh) as (q & _ & Hin & _).
    destruct (table_hits_row _ _ _ _ Hin) as (r & Hr & Hf & Hd).
    unfold get_dossier_by_fact_id. rewrite <- Hf.
    now rewrite (unique_key_found t r Hnd Hr), Hd.
Qed.

(** Delete then search: after a delete that went through, no search returns
    a hit of that dossier. *)
Theorem deleted_dossier_is_never_found
        (encode : string -> option blob)
        (cosine : blob -> blob -> option pyfloat)
        (db : sqlite_outcome) (query : string) (top_k : Z)
        (threshold : pyfloat) (did : string) (t : table) :
  Forall (fun h => hit_dossier h <> did)
         (search_similar_facts encode cosine db query top_k threshold
            (snd (delete_dossier_embeddings SqlOk did t))).
Proof.
  apply Forall_forall. intros h Hh.
  destruct (search_hits_from_table _ _ _ _ _ _ _ _ Hh) as (q & _ & Hin & _).
  destruct (table_hits_row _ _ _ _ Hin) as (r & Hr & _ & Hd).
  simpl in Hr. unfold delete_where_dossier in Hr. apply filter_In in Hr.
  destruct Hr as [_ Hne]. unfold in_dossier in Hne. rewrite Hd in Hne.
  intros Heq. rewrite Heq, String.eqb_refl in Hne. discriminate.
Qed.

Lemma scan_all_comparable (cosine : blob -> blob -> option pyfloat) q th
      (t : table) :
  Forall (fun r => cosine q (embedding r) <> None) t ->
  scan cosine q th t
  = Some (filter (fun h => ge (score h) th) (table_hits cosine q t)) /\
  length (table_hits cosine q t) = length t.
Proof.
  induction 1 as [|r t Hr Ht IH]; simpl; [split; reflexivity|].
  destruct IH as [IH1 IH2]. rewrite IH1.
  destruct (cosine q (embedding r)) as [x|]; [|congruence].
  simpl. unfold score at 2. simpl.
  split; [now destruct (ge x th)|now rewrite IH2].
Qed.

(** How many hits: when every stored embedding can be compared with the
    query, a search with [top_k >= 0] returns [top_k] hits, or all stored
    facts at or above the threshold when there are fewer. *)
Theorem search_returns_min_top_k_matches
        (encode : string -> option blob)
        (cosine : blob -> blob -> option pyfloat)
        (query : string) (q : blob) (top_k : Z) (threshold : pyfloat)
        (t : table) :
  0 <= top_k -> encode query = Some q ->
  Forall (fun r => cosine q (embedding r) <> None) t ->
  Py.len (search_similar_facts encode cosine SqlOk query top_k threshold t)
  = Z.min top_k
      (Py.len (filter (fun h => ge (score h) threshold) (table_hits cosine q t))) /\
  Py.len (table_hits cosine q t) = Py.len t.
Proof.
  intros Hk Hq Hall. unfold search_similar_facts. rewrite Hq.
  destruct (scan_all_comparable cosine q threshold t Hall) as [Hscan Hlen].
  rewrite Hscan. split; [|unfold Py.len; now rewrite Hlen].
  rewrite PyFacts.take_firstn. unfold Py.len. rewrite length_firstn.
  rewrite (Permutation_length (sort_desc_perm _)).
  unfold Py.clamp. destruct (Z.ltb_spec top_k 0); lia.
Qed.

Lemma search_returns_min_top_k_matches_witness :
  0 <= 2 /\ toy_encode "abc" = Some [3] /\
  Forall (fun r => toy_cosine [3] (embedding r) <> None)
         (run_ops toy_encode three_saves) /\
  Py.len (search_similar_facts toy_encode toy_cosine SqlOk "abc" 2 (FVal 0)
            (run_ops toy_encode three_saves))
  = Z.min 2
      (Py.len (filter (fun h => ge (score h) (FVal 0))
                 (table_hits toy_cosine [3] (run_ops toy_encode three_saves)))) /\
  Py.len (table_hits toy_cosine [3] (run_ops toy_encode three_saves))
  = Py.len (run_ops toy_encode three_saves).
Proof.
  assert (Hall : Forall (fun r => toy_cosine [3] (embedding r) <> None)
                        (run_ops toy_encode three_saves))
    by (repeat constructor; discriminate).
  split; [lia|]. split; [reflexivity|]. split; [exact Hall|].
  apply (search_returns_min_top_k_matches toy_encode toy_cosine "abc" [3] 2
           (FVal 0) (run_ops toy_encode three_saves));
    [lia|reflexivity|exact Hall].
Defined.

(** One stored embedding that cannot be compared with the query empties the
    whole search, whatever the other rows would have scored. *)
Theorem uncomparable_embedding_empties_search
        (encode : string -> option blob)
        (cosine : blob -> blob -> option pyfloat)
        (db : sqlite_outcome) (query : string) (q : blob) (top_k : Z)
        (threshold : pyfloat) (t : table) (r : row) :
  encode query = Some q -> In r t -> cosine q (embedding r) = None ->
  search_similar_facts encode cosine db query top_k threshold t = [].
Proof.
  intros Hq Hin Hbad. unfold search_similar_facts. rewrite Hq.
  destruct db; [|reflexivity].
  assert (Hscan : scan cosine q threshold t = None).
  { induction t as [|x t IH]; [contradiction|]. simpl.
    destruct Hin as [->|Hin]; [now rewrite Hbad|].
    destruct (cosine q (embedding x)); [|reflexivity].
    now rewrite (IH Hin). }
  now rewrite Hscan.
Qed.

Lemma uncomparable_embedding_empties_search_witness :
  toy_encode "abc" = Some [3] /\
  In (mkRow "fact_002" "dos_diet" [4] "t2") (run_ops toy_encode three_saves) /\
  picky_cosine [3] (embedding (mkRow "fact_002" "dos_diet" [4] "t2")) = None /\
  search_similar_facts toy_encode picky_cosine SqlOk "abc" 10 (FVal 0)
    (run_ops toy_encode three_saves) = [].
Proof.
  assert (Hin : In (mkRow "fact_002" "dos_diet" [4] "t2")
                   (run_ops toy_encode three_saves))
    by (right; left; reflexivity).
  split; [reflexivity|]. split; [exact Hin|]. split; [reflexivity|].
  apply (uncomparable_embedding_empties_search toy_encode picky_cosine SqlOk
           "abc" [3] 10 (FVal 0) (run_ops toy_encode three_saves)
           (mkRow "fact_002" "dos_diet" [4] "t2"));
    [reflexivity|exact Hin|reflexivity].
Defined.

End DossierQueriesFacts.

(** ** Sliding-window state file: write, read back, and broken entries *)

Module SlidingWindowRoundTrip.
Import SlidingWindow SlidingWindowSave.

Section RoundTrip.
Variable isoformat : datetime -> string.
Variable fromisoformat : string -> option datetime.

Lemma build_turn_of_saved (t : LiveTurn) :
  stamp_round_trips isoformat fromisoformat t ->
  build_turn fromisoformat (turn_json isoformat t) = Some (reloaded isoformat t).
Proof.
  unfold stamp_round_trips, build_turn, turn_json, reloaded. simpl.
  destruct (live_compression_timestamp t) as [d|]; simpl; [|reflexivity].
  intros [Hd Hne].
  destruct (String.eqb_spec (isoformat d) ""); [contradiction|]. simpl.
  now rewrite Hd.
Qed.

Lemma build_turns_of_saved (turns : list LiveTurn) :
  Forall (stamp_round_trips isoformat fromisoformat) turns ->
  build_turns fromisoformat (map (turn_json isoformat) turns)
  = Some (map (reloaded isoformat) turns).
Proof.
  induction 1 as [|t turns Ht Hall IH]; [reflexivity|].
  cbn [map build_turns]. now rewrite (build_turn_of_saved t Ht), IH.
Qed.

Lemma write_file_same path content d : write_file path content d path = content.
Proof. unfold write_file. now rewrite String.eqb_refl. Qed.

Lemma write_file_other path content d q :
  q <> path -> write_file path content d q = d q.
Proof.
  intros Hne. unfold write_file.
  destruct (String.eqb_spec q path); [contradiction|reflexivity].
Qed.

Lemma replace_target src dst d : replace src dst d dst = d src.
Proof. unfold replace. now rewrite String.eqb_refl. Qed.

(** Write then read: a window that was saved loads again, turn by turn, with
    every field as it was; only the timestamp comes back as the string that
    was written. A save that raises leaves the state file as it was, as long
    as the temporary file is another file; when the state path is its own
    temporary path, a dump that raises leaves the state file with what the
    dump got to write. *)
Theorem save_then_load (now : string) (turns : list LiveTurn)
        (state_path temp_path : string) (d : disk) :
  Forall (stamp_round_trips isoformat fromisoformat) turns ->
  load_window fromisoformat
    (snd (save_window isoformat Written now turns state_path temp_path d)
         state_path)
  = Ok (map (reloaded isoformat) turns) /\
  (forall run,
     fst (save_window isoformat run now turns state_path temp_path d) = false ->
     temp_path <> state_path ->
     snd (save_window isoformat run now turns state_path temp_path d) state_path
     = d state_path) /\
  (forall partial,
     snd (save_window isoformat (DumpRaises partial) now turns state_path
            state_path d) state_path
     = partial).
Proof.
  intros Hall. split; [|split].
  - cbn [save_window snd]. rewrite replace_target, write_file_same.
    unfold window_state. cbn -[build_turns map].
    now rewrite build_turns_of_saved.
  - intros run Hfail Hne. destruct run; cbn [save_window fst snd] in *;
      try reflexivity; try discriminate;
      apply write_file_other; congruence.
  - intros partial. cbn [save_window snd]. apply write_file_same.
Qed.

(** One broken entry fails the whole load: when the file is a version-1
    object and some entry of its [turns] list lacks a required key, no turn
    is loaded, whatever the other entries hold. *)
Theorem broken_entry_fails_the_load
        (fields : list (string * json)) (items : list json) (entry : json)
        (key : string) :
  is_state_version (dict_get fields "version" JNull) = true ->
  dict_get fields "turns" (JArr []) = JArr items ->
  In entry items -> In key required_keys -> subscript entry key = None ->
  load_window fromisoformat (FileJson (JObj fields))
  = Raise (SlidingWindowStateError DeserializeFailed).
Proof.
  intros Hv Ht Hin Hkey Hmiss.
  cbn [load_window]. rewrite Hv, Ht. cbn [negb iterate].
  assert (Hbad : build_turn fromisoformat entry = None).
  { unfold build_turn. simpl in Hkey.
    destruct Hkey as [<-|[<-|[<-|[<-|[<-|[<-|[<-|[]]]]]]]]; rewrite Hmiss;
      repeat (try reflexivity;
              match goal with
              | |- context [subscript entry ?k] => destruct (subscript entry k)
              end). }
  assert (Hnone : build_turns fromisoformat items = None).
  { clear Ht. induction items as [|x items IH]; [contradiction|]. simpl.
    destruct Hin as [->|Hin]; [now rewrite Hbad|].
    destruct (build_turn fromisoformat x); [|reflexivity].
    now rewrite (IH Hin). }
  now rewrite Hnone.
Qed.

End RoundTrip.

Lemma save_then_load_witness :
  let turns := [compressed_turn; verbatim_turn] in
  let state_path := "sliding_window_state.json"%string in
  let temp_path := "sliding_window_state.tmp"%string in
  Forall (stamp_round_trips toy_isoformat toy_fromisoformat) turns /\
  load_window toy_fromisoformat
    (snd (save_window toy_isoformat Written "now" turns state_path temp_path
            stale_disk) state_path)
  = Ok (map (reloaded toy_isoformat) turns) /\
  (forall run,
     fst (save_window toy_isoformat run "now" turns state_path temp_path
            stale_disk) = false ->
     temp_path <> state_path ->
     snd (save_window toy_isoformat run "now" turns state_path temp_path
            stale_disk) state_path
     = stale_disk state_path) /\
  (forall partial,
     snd (save_window toy_isoformat (DumpRaises partial) "now" turns state_path
            state_path stale_disk) state_path
     = partial).
Proof.
  intros turns state_path temp_path.
  assert (Hall : Forall (stamp_round_trips toy_isoformat toy_fromisoformat) turns).
  { repeat constructor. discriminate. }
  split; [exact Hall|].
  apply (save_then_load toy_isoformat toy_fromisoformat "now" turns state_path
           temp_path stale_disk Hall).
Defined.

(** The state file is kept through a failed dump when the temporary file is
    another file, and lost when it is the state file itself. *)
Lemma failed_dump_on_both_layouts :
  snd (save_window toy_isoformat (DumpRaises FileNotJson) "now" [verbatim_turn]
         "state.json" "state.tmp"
         (write_file "state.json" (FileJson (JObj [])) (fun _ => FileAbsent)))
      "state.json"%string
  = FileJson (JObj []) /\
  snd (save_window toy_isoformat (DumpRaises FileNotJson) "now" [verbatim_turn]
         "state.tmp" "state.tmp"
         (write_file "state.tmp" (FileJson (JObj [])) (fun _ => FileAbsent)))
      "state.tmp"%string
  = FileNotJson.
Proof. split; reflexivity. Qed.

Lemma broken_entry_fails_the_load_witness :
  let good := turn_json toy_isoformat verbatim_turn in
  let bad := JObj [("turn_id", JStr "turn_9")]%string in
  let fields := [("version", JStr "1"); ("turns", JArr [good; bad])]%string in
  is_state_version (dict_get fields "version" JNull) = true /\
  dict_get fields "turns" (JArr []) = JArr [good; bad] /\
  In bad [good; bad] /\ In "user_message"%string required_keys /\
  subscript bad "user_message" = None /\
  load_window toy_fromisoformat (FileJson (JObj fields))
  = Raise (SlidingWindowStateError DeserializeFailed).
Proof.
  intros good bad fields.
  assert (Hin : In bad [good; bad]) by (right; left; reflexivity).
  assert (Hkey : In "user_message"%string required_keys)
    by (unfold required_keys; simpl; tauto).
  split; [reflexivity|]. split; [reflexivity|]. split; [exact Hin|].
  split; [exact Hkey|]. split; [reflexivity|].
  apply (broken_entry_fails_the_load toy_fromisoformat fields [good; bad] bad
           "user_message" eq_refl eq_refl Hin Hkey eq_refl).
Defined.

End SlidingWindowRoundTrip.

(** ** The engine turn pipeline: what an answer tells *)

Module EngineAnswers.
Import Models Storage ConversationEngine EngineWords EngineMoreWords EngineFacts.

Lemma bind_ret_inv {A B} (m : M A) (k : A -> M B) w b w' :
  bind m k w = (Ret b, w') ->
  exists a w1, m w = (Ret a, w1) /\ k a w1 = (Ret b, w').
Proof.
  unfold bind. destruct (m w) as [[a|e] w1]; [eauto|discriminate].
Qed.

(** The inner [try] always returns, and touches neither the ledger nor
    [previous_day]. *)
Lemma embed_user_query_frame env user turn w :
  fst (embed_user_query env user turn w) = Ret tt /\
  store (snd (embed_user_query env user turn w)) = store w /\
  previous_day (snd (embed_user_query env user turn w)) = previous_day w.
Proof.
  unfold embed_user_query, try_except, bind, call, ret.
  destruct (chunk_engine env) as [chunk_turn|].
  - destruct (chunk_turn user (turn_id turn)) as [chunks|e]; [|auto].
    destruct (sentence_texts chunks) as [|t ts]; [auto|].
    unfold embedding_storage_save.
    destruct (save_turn_embeddings env (turn_id turn) (t :: ts)) as [[]|e]; auto.
  - unfold embedding_storage_save.
    destruct (save_turn_embeddings env (turn_id turn) [user]) as [[]|e]; auto.
Qed.

Lemma option_string_eqb_eq (a b : option string) :
  option_string_eqb a b = true -> a = b.
Proof.
  destruct a as [x|], b as [y|]; simpl; try discriminate; [|reflexivity].
  intros H. apply String.eqb_eq in H. now subst.
Qed.

(** The day check returns when the day can be read, and then
    [previous_day] is that day. *)
Lemma note_day_outcome env w :
  fst (note_day env w)
  = match current_day_logged env with
    | Ret _ => Ret tt
    | Raise e => Raise e
    end /\
  store (snd (note_day env w)) = store w /\
  previous_day (snd (note_day env w))
  = match current_day_logged env with
    | Ret day => Some day
    | Raise _ => previous_day w
    end.
Proof.
  unfold note_day, bind, call, get_previous_day, put_previous_day, ret.
  destruct (current_day_logged env) as [day|e]; [|auto].
  destruct (option_string_eqb (Some day) (previous_day w)) eqn:E; simpl; [|auto].
  apply option_string_eqb_eq in E. auto.
Qed.

Lemma log_conversation_turn_ends env user assistant s w :
  fst (log_conversation_turn env user assistant s w)
  = (if persisted env s user assistant && day_noted env
     then Ret tt else Raise StorageWriteError) /\
  store (snd (log_conversation_turn env user assistant s w)) = store w /\
  previous_day (snd (log_conversation_turn env user assistant s w))
  = (if persisted env s user assistant
     then match current_day_logged env with
          | Ret day => Some day
          | Raise _ => previous_day w
          end
     else previous_day w).
Proof.
  unfold log_conversation_turn, persisted, day_noted, try_except, bind, call,
    raise.
  destruct (log_turn env s user assistant) as [turn|e]; [|simpl; auto].
  destruct (add_turn env turn) as [[]|e]; [|simpl; auto].
  destruct (embed_user_query_frame env user turn w) as (He & Hs & Hp).
  destruct (embed_user_query env user turn w) as [[[]|e] w1];
    simpl in He, Hs, Hp; [|discriminate].
  destruct (note_day_outcome env w1) as (Hn & Hns & Hnp).
  destruct (note_day env w1) as [r w2]. simpl in Hn, Hns, Hnp. subst r.
  rewrite <- Hs, <- Hp.
  destruct (current_day_logged env) as [day|e]; simpl; auto.
Qed.


(** A turn that was logged and added to the window, on a day that cannot be
    read afterwards: the caller gets [StorageWriteError], and the user's
    text has been embedded. *)
Lemma logged_turn_fails_on_day_read :
  let env := with_day_logged quiet (Raise OtherException) in
  persisted env "s1" "I am vegetarian." "Noted." = true /\
  fst (log_conversation_turn env "I am vegetarian." "Noted." "s1" one_active_block)
  = Raise StorageWriteError /\
  texts_passed one_active_block
    (snd (log_conversation_turn env "I am vegetarian." "Noted." "s1"
            one_active_block))
  = [["I am vegetarian."%string]].
Proof. repeat split; reflexivity. Qed.

(** With an embedding storage that always raises, the quiet turn is logged
    all the same. *)
Lemma embedding_failure_is_swallowed :
  let env := with_embedding_storage quiet (fun _ _ => Raise OtherException) in
  fst (log_conversation_turn env "I am vegetarian." "Noted." "s1" one_active_block)
  = Ret tt /\
  texts_passed one_active_block
    (snd (log_conversation_turn env "I am vegetarian." "Noted." "s1"
            one_active_block))
  = [["I am vegetarian."%string]].
Proof. split; reflexivity. Qed.

(** What a returning [try] body has done. *)
Lemma body_returns env q s w resp w' :
  handle_chat_body env q s w = (Ret resp, w') ->
  Models.status resp = SUCCESS /\
  (exists prompt chat,
     query_external_api_async env prompt = Ret chat /\
     response_text resp = snd (parse_metadata env chat)) /\
  persisted env s q (response_text resp) = true.
Proof.
  intros H. unfold handle_chat_body in H.
  apply bind_ret_inv in H. destruct H as (chunks & w1 & _ & H).
  apply bind_ret_inv in H.
  destruct H as ([[[routing mems] facts] dossiers] & w2 & _ & H).
  apply bind_ret_inv in H. destruct H as ([block is_new] & w3 & _ & H).
  apply bind_ret_inv in H. destruct H as (u & w4 & _ & H).
  apply bind_ret_inv in H. destruct H as (block_facts & w5 & _ & H).
  apply bind_ret_inv in H. destruct H as (prompt & w6 & _ & H).
  apply bind_ret_inv in H. destruct H as (chat & w7 & Hllm & H).
  destruct (parse_metadata env chat) as [metadata_json text] eqn:Ep.
  apply bind_ret_inv in H. destruct H as (u2 & w8 & _ & H).
  apply bind_ret_inv in H. destruct H as (l & w9 & _ & H).
  apply bind_ret_inv in H. destruct H as (success & w10 & _ & H).
  apply bind_ret_inv in H. destruct H as (u3 & w11 & Hlog & H).
  unfold ret in H. injection H as <- <-. simpl.
  split; [reflexivity|]. split.
  - exists prompt, chat. unfold call in Hllm. injection Hllm as Hllm _.
    split; [exact Hllm|]. now rewrite Ep.
  - pose proof (log_conversation_turn_ends env q text s w10) as [Hout _].
    rewrite Hlog in Hout. simpl in Hout.
    destruct (persisted env s q text); [reflexivity|discriminate].
Qed.

(** The three answers of [process_user_message]. *)
Lemma answer_cases env q s w resp w' :
  process_user_message env q s w = (Ret resp, w') ->
  (Models.status resp = PARTIAL /\ governor_ready env = false /\ w' = w) \/
  (Models.status resp = SUCCESS /\ governor_ready env = true /\
   exists w0, handle_chat_body env q s w0 = (Ret resp, w')) \/
  Models.status resp = ERROR.
Proof.
  unfold process_user_message. unfold bind at 1, call at 1.
  destruct (sliding_window_set_session env s) as [[]|e]; [|discriminate].
  unfold try_except, bind.
  destruct (match scribe env with
            | Some run_scribe_agent => call (run_scribe_agent q s)
            | None => ret tt
            end w) as [[[]|e0] w0] eqn:Es.
  - assert (w0 = w).
    { destruct (scribe env); unfold call, ret in Es; now injection Es. }
    subst w0. unfold _handle_chat.
    destruct (governor_ready env) eqn:Er; simpl.
    + unfold try_except.
      destruct (handle_chat_body env q s w) as [[r|e] w1] eqn:Eb.
      * intros H. injection H as <- <-.
        destruct (body_returns _ _ _ _ _ _ Eb) as [Hs _]. right. left. eauto.
      * destruct e; unfold ret, bind;
          try (intros H; injection H as <- <-; right; right; reflexivity);
          destruct (log_conversation_turn env q fallback_response
                      "default_session" w1) as [[[]|e1] w2];
          intros H; injection H as <- <-; right; right; reflexivity.
    + unfold ret. intros H. injection H as <- <-. left. auto.
  - unfold ret. intros H. injection H as <- <-. right. right. reflexivity.
Qed.

(** A [PARTIAL] answer is given only without a governor, and then nothing
    has been written: the ledger and the embeddings are as before. *)
Theorem partial_answer_without_governor env q s w resp w' :
  process_user_message env q s w = (Ret resp, w') ->
  Models.status resp = PARTIAL ->
  governor_ready env = false /\ w' = w.
Proof.
  intros H Hs. destruct (answer_cases _ _ _ _ _ _ H) as [H1|[H1|H1]].
  - tauto.
  - destruct H1 as [H1 _]. congruence.
  - congruence.
Qed.

Lemma partial_answer_without_governor_witness :
  let env := without_governor quiet in
  let resp := mkResponse "I'm here to chat! (External API not available)"
                         PARTIAL "chat" "chat" 0 None in
  process_user_message env "hello" "s1" one_active_block
  = (Ret resp, one_active_block) /\
  Models.status resp = PARTIAL /\
  governor_ready env = false /\ one_active_block = one_active_block.
Proof.
  intros env resp.
  assert (Hrun : process_user_message env "hello" "s1" one_active_block
                 = (Ret resp, one_active_block)) by reflexivity.
  split; [exact Hrun|]. split; [reflexivity|].
  apply (partial_answer_without_governor env "hello" "s1" one_active_block
           resp one_active_block Hrun eq_refl).
Defined.

(** A [SUCCESS] answer is the main LLM's answer, without its metadata block,
    and the turn has been logged with that text. *)
Theorem success_answer_is_logged_llm_text env q s w resp w' :
  process_user_message env q s w = (Ret resp, w') ->
  Models.status resp = SUCCESS ->
  governor_ready env = true /\
  (exists prompt chat,
     query_external_api_async env prompt = Ret chat /\
     response_text resp = snd (parse_metadata env chat)) /\
  persisted env s q (response_text resp) = true.
Proof.
  intros H Hs. destruct (answer_cases _ _ _ _ _ _ H) as [H1|[H1|H1]].
  - destruct H1 as [H1 _]. congruence.
  - destruct H1 as (_ & Hr & w0 & Hb).
    split; [exact Hr|]. now destruct (body_returns _ _ _ _ _ _ Hb) as (_ & ? & ?).
  - congruence.
Qed.

Lemma success_answer_is_logged_llm_text_witness :
  let resp := mkResponse "Echo: hello" SUCCESS "chat" "chat" 1 None in
  let w' := mkWorld (store one_active_block) [("t_s1", ["hello"])]%string
                    (Some "2025-01-01"%string) in
  process_user_message quiet "hello" "s1" one_active_block = (Ret resp, w') /\
  Models.status resp = SUCCESS /\
  governor_ready quiet = true /\
  (exists prompt chat,
     query_external_api_async quiet prompt = Ret chat /\
     response_text resp = snd (parse_metadata quiet chat)) /\
  persisted quiet "s1" "hello" (response_text resp) = true.
Proof.
  intros resp w'.
  assert (Hrun : process_user_message quiet "hello" "s1" one_active_block
                 = (Ret resp, w')) by reflexivity.
  split; [exact Hrun|]. split; [reflexivity|].
  apply (success_answer_is_logged_llm_text quiet "hello" "s1" one_active_block
           resp w' Hrun eq_refl).
Defined.




(** The same LLM failure behind a sliding window whose [set_session]
    raises: the caller gets that exception and no response. *)
Lemma set_session_failure_leaves_no_response :
  let env := with_set_session
               (with_llm quiet (fun _ => Raise ApiConnectionError))
               (Some (fun _ => Raise OtherException)) in
  process_user_message env "hello" "s1" one_active_block
  = (Raise OtherException, one_active_block) /\
  response_status (process_user_message env "hello" "s1" one_active_block) = None.
Proof. split; reflexivity. Qed.

End EngineAnswers.

(** ** Routing execution: what it does to the ledger *)

Module RoutingLedger.
Import Models Storage ConversationEngine EngineWords EngineMoreWords EngineFacts.

Lemma same_block_refl b : same_block_not_closed b b.
Proof. unfold same_block_not_closed. auto. Qed.

Lemma restatus_refl l : restatus l l.
Proof.
  split; [reflexivity|]. induction (rows l); constructor; auto.
  apply same_block_refl.
Qed.

Lemma restatus_trans l1 l2 l3 : restatus l1 l2 -> restatus l2 l3 -> restatus l1 l3.
Proof.
  intros [T1 F1] [T2 F2]. split; [congruence|].
  revert F2. generalize (rows l3). induction F1 as [|a b r1 r2 Hab _ IH];
    intros r3 F2; inversion F2 as [|? c ? r3' Hbc F2']; subst; constructor.
  - unfold same_block_not_closed in *.
    destruct Hab as (A1 & A2 & A3 & A4), Hbc as (B1 & B2 & B3 & B4).
    repeat split; try congruence. auto.
  - now apply IH.
Qed.

(** A status write of [PAUSED] or [ACTIVE] keeps every row in place. *)
Lemma restatus_update id st l :
  st <> CLOSED -> restatus l (update_bridge_block_status id st l).
Proof.
  intros Hst. split; [reflexivity|]. simpl.
  induction (rows l) as [|b r IH]; simpl; constructor; auto.
  destruct (String.eqb (block_id b) id); [|apply same_block_refl].
  unfold same_block_not_closed. simpl. repeat split; auto.
  intros H. congruence.
Qed.

Lemma pause_block_world env id w :
  embedded (snd (pause_block env id w)) = embedded w /\
  restatus (store w) (store (snd (pause_block env id w))).
Proof.
  rewrite pause_block_store. split; [|apply restatus_update; discriminate].
  unfold pause_block, storage_update_status, bind, get_store, put_store, call.
  simpl. now destruct (generate_block_summary env id).
Qed.

(** The forced pause keeps every row in place. *)
Lemma restatus_force_pause day l :
  restatus l (mkLedger (map (force_pause day) (rows l)) (today l)).
Proof.
  split; [reflexivity|]. simpl.
  induction (rows l) as [|b r IH]; simpl; constructor; auto.
  unfold force_pause.
  destruct (String.eqb (day_id b) day && block_status_eqb (Storage.status b) ACTIVE);
    [|apply same_block_refl].
  unfold same_block_not_closed. simpl. repeat split; auto.
  intros H. discriminate.
Qed.

(** What routing execution leaves behind, in one of two shapes: the rows
    under other statuses and, if it returns, the matched block as the turn's
    block; or such rows plus the one created block, which is the turn's. *)
Lemma routing_outcome env day rd w res w' :
  routing_execution env day rd w = (res, w') ->
  embedded w' = embedded w /\
  ((restatus (store w) (store w') /\
    match res with
    | Ret (id, is_new) => is_new = false /\ matched_block_id rd = Some id
    | Raise _ => True
    end) \/
   (exists base id,
      restatus (store w) base /\ today (store w') = today base /\
      rows (store w')
      = rows base ++ [mkBlock id day (new_block_label rd)
                              (gpt_nano_keywords env) ACTIVE] /\
      res = Ret (id, true))).
Proof.
  set (P := fun (res : result (string * bool)) (w' : world) =>
    embedded w' = embedded w /\
    ((restatus (store w) (store w') /\
      match res with
      | Ret (id, is_new) => is_new = false /\ matched_block_id rd = Some id
      | Raise _ => True
      end) \/
     (exists base id,
        restatus (store w) base /\ today (store w') = today base /\
        rows (store w')
        = rows base ++ [mkBlock id day (new_block_label rd)
                                (gpt_nano_keywords env) ACTIVE] /\
        res = Ret (id, true)))).
  change (routing_execution env day rd w = (res, w') -> P res w').
  revert res w'.
  unfold routing_execution. unfold bind at 1. unfold get_store at 1.
  cbv beta iota zeta. fold (new_block_label rd).
  set (is_new := match is_new_topic rd with Some b => b | None => false end).
  set (mid := match matched_block_id rd with Some m => m | None => EmptyString end).
  set (last := find _ (get_active_bridge_blocks (store w))).
  set (pause_last := match last with
                     | Some b => pause_block env (block_id b)
                     | None => ret tt
                     end).
  assert (Hpause : forall w0,
            embedded (snd (pause_last w0)) = embedded w0 /\
            restatus (store w0) (store (snd (pause_last w0)))).
  { intros w0. subst pause_last. destruct last.
    - apply pause_block_world.
    - split; [reflexivity|apply restatus_refl]. }
  assert (Hcreate : forall w0, restatus (store w) (store w0) ->
            embedded w0 = embedded w ->
            forall res w',
              bind (storage_create_block env day (new_block_label rd)
                      (gpt_nano_keywords env))
                   (fun id => ret (id, true)) w0 = (res, w') ->
              P res w').
  { intros w0 Hre Hemb res w' Heq.
    pose proof (create_step_world env day (new_block_label rd)
                  (gpt_nano_keywords env) w0) as Hc.
    rewrite Heq in Hc. simpl in Hc. destruct Hc as [He Hc].
    split; [congruence|].
    destruct Hc as [(e & Hr & Hs)|(id & Hr & Ht & Hrows)].
    - left. rewrite Hs, Hr. auto.
    - right.
      exists (mkLedger (map (force_pause day) (rows (store w0))) (today (store w0))), id.
      split; [|auto].
      eapply restatus_trans; [exact Hre|apply restatus_force_pause]. }
  assert (Hmatched : truthy_id (matched_block_id rd) = true ->
                     matched_block_id rd = Some mid).
  { subst mid. destruct (matched_block_id rd); [reflexivity|discriminate]. }
  assert (Hshift : forall res w',
            bind pause_last
              (fun _ => bind (storage_create_block env day
                                (new_block_label rd) (gpt_nano_keywords env))
                             (fun id => ret (id, true))) w = (res, w') ->
            P res w').
  { intros res w'. unfold bind at 1.
    destruct (Hpause w) as [Hpe Hpr].
    destruct (pause_last w) as [[[]|e] w1]; simpl in Hpe, Hpr.
    - now apply Hcreate.
    - intros Heq. injection Heq as <- <-. split; [exact Hpe|]. left. auto. }
  intros res w'.
  destruct (truthy_id (matched_block_id rd)
            && match last with Some _ => true | None => false end
            && match last with
               | Some b => String.eqb mid (block_id b)
               | None => false
               end) eqn:Econt.
  - (* Continuation *)
    unfold ret. intros Heq. injection Heq as <- <-.
    split; [reflexivity|]. left. split; [apply restatus_refl|].
    split; [reflexivity|]. apply Hmatched.
    apply andb_true_iff in Econt. destruct Econt as [Econt _].
    now apply andb_true_iff in Econt.
  - destruct (truthy_id (matched_block_id rd) && negb is_new) eqn:Eres.
    + (* Resumption *)
      apply andb_true_iff in Eres. destruct Eres as [Em _].
      unfold bind at 1. destruct (Hpause w) as [Hpe Hpr].
      destruct (pause_last w) as [[[]|e] w1]; simpl in Hpe, Hpr.
      * unfold bind, storage_update_status, get_store, put_store, ret. simpl.
        intros Heq. injection Heq as <- <-. simpl.
        split; [exact Hpe|]. left. split; [|auto].
        eapply restatus_trans; [exact Hpr|].
        apply restatus_update. discriminate.
      * intros Heq. injection Heq as <- <-.
        split; [exact Hpe|]. left. auto.
    + destruct (is_new && negb match last with Some _ => true | None => false end).
      * (* New Topic Creation *)
        apply Hcreate; [apply restatus_refl|reflexivity].
      * destruct (is_new && match last with Some _ => true | None => false end).
        -- (* Topic Shift *) apply Hshift.
        -- (* Fallback *)
           apply Hcreate; [apply restatus_refl|reflexivity].
Qed.

(** Routing execution never drops, renames or closes a block and never
    touches the embeddings: the ledger keeps its rows in place, a row is
    closed afterwards only if it was before, and at most one row is added,
    an [ACTIVE] block of the day. *)
Theorem routing_never_drops_or_closes_blocks env day rd w :
  let w' := snd (routing_execution env day rd w) in
  embedded w' = embedded w /\
  today (store w') = today (store w) /\
  exists kept created,
    rows (store w') = kept ++ created /\
    Forall2 same_block_not_closed (rows (store w)) kept /\
    (length created <= 1)%nat /\
    Forall (fun b => Storage.status b = ACTIVE /\ day_id b = day) created.
Proof.
  intros w'. subst w'.
  destruct (routing_execution env day rd w) as [res w'] eqn:Hrun.
  destruct (routing_outcome _ _ _ _ _ _ Hrun)
    as [Hemb [[[Ht Hrows] _]|(base & id & [Ht Hrows] & Ht' & Hnew & _)]];
    simpl; (split; [exact Hemb|]).
  - split; [exact Ht|]. exists (rows (store w')), [].
    rewrite app_nil_r. repeat split; auto.
  - split; [congruence|]. eexists (rows base), _.
    split; [exact Hnew|]. split; [exact Hrows|]. split; [simpl; lia|].
    repeat constructor.
Qed.

(** The block of the turn: when routing reports a new topic, the block it
    names is the one row added to the ledger, [ACTIVE], of the day and under
    the suggested label; otherwise it is the block the governor matched, and
    no row was added. *)
Theorem routed_block_is_created_or_matched env day rd w id is_new w' :
  routing_execution env day rd w = (Ret (id, is_new), w') ->
  if is_new
  then exists older,
         rows (store w')
         = older ++ [mkBlock id day (new_block_label rd)
                             (gpt_nano_keywords env) ACTIVE] /\
         length older = length (rows (store w))
  else matched_block_id rd = Some id /\
       length (rows (store w')) = length (rows (store w)).
Proof.
  intros Hrun.
  destruct (routing_outcome _ _ _ _ _ _ Hrun)
    as [_ [[[_ Hrows] [-> Hm]]|(base & id' & [_ Hrows] & _ & Hnew & Heq)]].
  - split; [exact Hm|]. symmetry. now apply Forall2_length in Hrows.
  - injection Heq as -> ->. exists (rows base). split; [exact Hnew|].
    symmetry. now apply Forall2_length in Hrows.
Qed.

Lemma routed_block_is_created_or_matched_witness :
  let w' := mkWorld
              (mkLedger [mkBlock "bb_1" "2025-01-01" (Some "Diet"%string) []
                                 PAUSED;
                         mkBlock "bb_2" "2025-01-01"
                                 (Some "General Discussion"%string) [] ACTIVE]
                        "2025-01-01") [] (Some "2025-01-01"%string) in
  routing_execution quiet "2025-01-01" default_routing one_active_block
  = (Ret ("bb_2"%string, true), w') /\
  exists older,
    rows (store w')
    = older ++ [mkBlock "bb_2" "2025-01-01" (new_block_label default_routing)
                        (gpt_nano_keywords quiet) ACTIVE] /\
    length older = length (rows (store one_active_block)).
Proof.
  intros w'.
  assert (Hrun : routing_execution quiet "2025-01-01" default_routing
                   one_active_block = (Ret ("bb_2"%string, true), w'))
    by reflexivity.
  split; [exact Hrun|].
  apply (routed_block_is_created_or_matched quiet "2025-01-01" default_routing
           one_active_block "bb_2" true w' Hrun).
Defined.

(** A [suggested_label] that is [None] is passed on as it is: the new block
    has no label, not the default one. *)
Lemma null_label_is_kept :
  let r := routing_execution quiet "2025-01-01" unlabelled_topic one_active_block in
  fst r = Ret ("bb_2"%string, true) /\
  map (fun b => (block_id b, topic_label b, Storage.status b))
      (rows (store (snd r)))
  = [("bb_1", Some "Diet", PAUSED); ("bb_2", None, ACTIVE)]%string.
Proof. split; reflexivity. Qed.

(** The named scenarios keep the day's single active block: worked on a day
    with one active block and a new topic. *)
Lemma routing_keeps_single_active_witness :
  keys_unique (store one_active_block) /\
  today (store one_active_block) = "2025-01-01"%string /\
  (active_count "2025-01-01" (store one_active_block) <= 1)%nat /\
  (truthy_id (matched_block_id default_routing) = true \/
   is_new_topic default_routing = Some true \/
   active_count "2025-01-01" (store one_active_block) = 0%nat) /\
  (active_count "2025-01-01"
     (store (snd (routing_execution quiet "2025-01-01" default_routing
                    one_active_block))) <= 1)%nat.
Proof.
  assert (Hkeys : keys_unique (store one_active_block)).
  { unfold keys_unique. simpl. repeat constructor. intros []. }
  assert (Hcnt : (active_count "2025-01-01" (store one_active_block) <= 1)%nat)
    by (vm_compute; lia).
  assert (Hscen : truthy_id (matched_block_id default_routing) = true \/
                  is_new_topic default_routing = Some true \/
                  active_count "2025-01-01" (store one_active_block) = 0%nat)
    by (right; left; reflexivity).
  split; [exact Hkeys|]. split; [reflexivity|]. split; [exact Hcnt|].
  split; [exact Hscen|].
  apply (routing_keeps_single_active quiet "2025-01-01" default_routing
           one_active_block Hkeys eq_refl Hcnt Hscen).
Defined.


End RoutingLedger.
